(** * XML to HTML converter: a shallow embedding of [xml-converter.ts]

    The development follows the TypeScript module function by function.
    JavaScript strings are Rocq strings, read as sequences of code units
    below 256 (the ASCII and Latin-1 range), the DOM tree is an
    inductive type, and the services of the platform the module calls
    (DOMParser, XMLSerializer, the selector parser behind [querySelector]
    for a selector computed at run time, and js-beautify) are the methods
    of a type class, so every statement holds for any platform. *)

From Stdlib Require Import String Ascii List Bool Arith NArith Lia.
Import ListNotations.
Open Scope list_scope.
Open Scope string_scope.

(** ** Strings *)

Module Str.

(** The double quote and the line feed, which the template literals of the
    source contain. *)
Definition dq : string := String "034"%char EmptyString.
Definition nl : string := String "010"%char EmptyString.

(** Upper-case letters below 256: A to Z, and the accented capitals of the
    Latin-1 range (192 to 222, the multiplication sign 215 apart).  Their
    lower-case forms stand 32 places higher. *)
Definition isUpper (c : ascii) : bool :=
  let n := nat_of_ascii c in
  (((65 <=? n) && (n <=? 90))
   || ((192 <=? n) && (n <=? 222) && negb (n =? 215)))%nat.

Definition lowerChar (c : ascii) : ascii :=
  if isUpper c then ascii_of_nat (nat_of_ascii c + 32) else c.

(** [String.prototype.toLowerCase]. *)
Fixpoint toLowerCase (s : string) : string :=
  match s with
  | EmptyString => EmptyString
  | String c r => String (lowerChar c) (toLowerCase r)
  end.

(** White space as [trim] sees it, below 256: tab, line feed, vertical
    tab, form feed, carriage return, space and no-break space. *)
Definition isSpace (c : ascii) : bool :=
  let n := nat_of_ascii c in
  (((9 <=? n) && (n <=? 13)) || (n =? 32) || (n =? 160))%nat.

Definition isEmpty (s : string) : bool :=
  match s with EmptyString => true | String _ _ => false end.

Fixpoint trimStart (s : string) : string :=
  match s with
  | EmptyString => EmptyString
  | String c r => if isSpace c then trimStart r else s
  end.

Fixpoint trimEnd (s : string) : string :=
  match s with
  | EmptyString => EmptyString
  | String c r =>
      let r' := trimEnd r in
      if isSpace c && isEmpty r' then EmptyString else String c r'
  end.

(** [String.prototype.trim]. *)
Definition trim (s : string) : string := trimEnd (trimStart s).

(** JavaScript truthiness of a string: the empty string is the only falsy
    one. *)
Definition truthy (s : string) : bool := negb (isEmpty s).

(** [s || d] on strings. *)
Definition orElse (s d : string) : string := if truthy s then s else d.

(** [o?.textContent || d]-style defaulting on a possibly missing string. *)
Definition orDefault (o : option string) (d : string) : string :=
  match o with
  | Some s => orElse s d
  | None => d
  end.

(** [Array.prototype.includes] on an array of strings. *)
Definition includes (l : list string) (s : string) : bool :=
  existsb (String.eqb s) l.

(** Number of positions of [s] at which [p] starts. *)
Fixpoint occurrences (p s : string) : nat :=
  match s with
  | EmptyString => if isEmpty p then 1 else 0
  | String _ r => (if prefix p s then 1 else 0) + occurrences p r
  end.

Definition contains (p s : string) : bool := (0 <? occurrences p s)%nat.

(** A text without the character [<]. *)
Fixpoint noMarkup (s : string) : bool :=
  match s with
  | EmptyString => true
  | String c r => negb (Ascii.eqb c "<") && noMarkup r
  end.

(** [u] is a prefix of [p] and shorter than [p]. *)
Definition properPrefix (u p : string) : bool :=
  prefix u p && (String.length u <? String.length p)%nat.

(** No end of [lit] is a beginning of [p] that [p] continues: an occurrence
    of [p] cannot start in [lit] and end after it. *)
Fixpoint noOverlap (p lit : string) : bool :=
  match lit with
  | EmptyString => true
  | String _ r => negb (properPrefix lit p) && noOverlap p r
  end.

(** [a] brings [n] occurrences of [p], whatever follows it. *)
Definition contributes (p a : string) (n : nat) : Prop :=
  forall s, occurrences p (a ++ s) = n + occurrences p s.

End Str.
Import Str.

(** ** The DOM tree *)

Record Attr : Type := mkAttr { name : string; value : string }.

(** An element carries its namespace prefix (if any) and its local name;
    its children are elements, text nodes (CDATA sections included) and
    comments or processing instructions, which carry no text content. *)
Inductive Element : Type :=
| mkElement (prefix : option string) (localName : string)
            (attributes : list Attr) (childNodes : list Node)
with Node : Type :=
| ElementNode (e : Element)
| TextNode (data : string)
| CommentNode (data : string).

Record Document : Type := mkDocument { documentElement : Element }.

Definition localName (e : Element) : string :=
  match e with mkElement _ l _ _ => l end.

Definition prefixOf (e : Element) : option string :=
  match e with mkElement p _ _ _ => p end.

Definition attributes (e : Element) : list Attr :=
  match e with mkElement _ _ a _ => a end.

Definition childNodes (e : Element) : list Node :=
  match e with mkElement _ _ _ c => c end.

(** [Element.tagName]: the qualified name. *)
Definition tagName (e : Element) : string :=
  match prefixOf e with
  | Some p => p ++ ":" ++ localName e
  | None => localName e
  end.

Definition elementsOf (ns : list Node) : list Element :=
  flat_map (fun n => match n with ElementNode c => [c] | _ => [] end) ns.

(** [Element.children]: the child elements, in document order. *)
Definition children (e : Element) : list Element := elementsOf (childNodes e).

(** [Element.childElementCount]. *)
Definition childElementCount (e : Element) : nat := length (children e).

(** [Node.textContent] of an element: the text of all its text-node
    descendants, in document order. *)
Fixpoint textContent (e : Element) : string :=
  match e with
  | mkElement _ _ _ cs =>
      String.concat EmptyString
        (map (fun n => match n with
                       | ElementNode c => textContent c
                       | TextNode d => d
                       | CommentNode _ => EmptyString
                       end) cs)
  end.

Definition getAttribute (e : Element) (n : string) : option string :=
  option_map value (find (fun a => String.eqb (name a) n) (attributes e)).

Definition hasAttribute (e : Element) (n : string) : bool :=
  existsb (fun a => String.eqb (name a) n) (attributes e).

(** *** Selectors

    The selectors the module uses are type selectors, one child
    combinator ([channel > title]) and comma-separated lists of those.  A
    type selector compares with the local name of an element, and a
    document parsed as XML compares case-sensitively. *)
Inductive ComplexSelector : Type :=
| TypeSel (t : string)
| ChildSel (p t : string).

Definition Selector : Type := list ComplexSelector.

Definition matchesComplex (parent : option Element) (e : Element)
    (c : ComplexSelector) : bool :=
  match c with
  | TypeSel t => String.eqb (localName e) t
  | ChildSel p t =>
      String.eqb (localName e) t &&
      match parent with
      | Some q => String.eqb (localName q) p
      | None => false
      end
  end.

Definition matchesSelector (sel : Selector) (parent : option Element)
    (e : Element) : bool :=
  existsb (matchesComplex parent e) sel.

(** The descendants of an element in document order, each with its parent
    element. *)
Fixpoint descendants (e : Element) : list (option Element * Element) :=
  match e with
  | mkElement _ _ _ cs =>
      flat_map (fun n => match n with
                         | ElementNode c => (Some e, c) :: descendants c
                         | _ => []
                         end) cs
  end.

(** [Element.querySelectorAll]. *)
Definition querySelectorAll (sel : Selector) (e : Element) : list Element :=
  map snd (filter (fun pc => matchesSelector sel (fst pc) (snd pc))
                  (descendants e)).

(** [Element.querySelector]: the first match in document order. *)
Definition querySelector (sel : Selector) (e : Element) : option Element :=
  hd_error (querySelectorAll sel e).

(** [Document.querySelector]: the document element is a candidate too. *)
Definition docQuerySelector (sel : Selector) (d : Document) : option Element :=
  hd_error
    (map snd (filter (fun pc => matchesSelector sel (fst pc) (snd pc))
                     ((None, documentElement d)
                        :: descendants (documentElement d)))).

(** *** Node identity

    The source compares an element with the document element of its owner
    document by identity.  The document is passed along explicitly, and
    within one tree identity is structural equality: a node that sits
    strictly below the document element is a smaller tree (lemmas
    [size_child] and [sameNode_size] below), so it never compares equal to
    it. *)
Definition Attr_eq_dec (a b : Attr) : {a = b} + {a <> b}.
Proof. decide equality; apply string_dec. Defined.

Fixpoint Element_eq_dec (a b : Element) {struct a} : {a = b} + {a <> b}
with Node_eq_dec (a b : Node) {struct a} : {a = b} + {a <> b}.
Proof.
  - decide equality;
      [ apply (list_eq_dec Node_eq_dec)
      | apply (list_eq_dec Attr_eq_dec)
      | apply string_dec
      | decide equality; apply string_dec ].
  - decide equality; apply string_dec.
Defined.

Definition sameNode (a b : Element) : bool :=
  if Element_eq_dec a b then true else false.

Fixpoint size (e : Element) : nat :=
  match e with
  | mkElement _ _ _ cs =>
      S (list_sum (map (fun n => match n with
                                 | ElementNode c => size c
                                 | _ => 0
                                 end) cs))
  end.

(** *** Induction on the tree

    The induction principle that gives the hypothesis for every child
    element. *)

Section ElementInduction.

Variable P : Element -> Prop.

Hypothesis P_step :
  forall p l attrs nodes,
    Forall P (elementsOf nodes) -> P (mkElement p l attrs nodes).

Fixpoint Element_induction (e : Element) : P e :=
  match e with
  | mkElement p l attrs nodes =>
      P_step p l attrs nodes
        ((fix children_ok (ns : list Node) : Forall P (elementsOf ns) :=
            match ns with
            | [] => Forall_nil P
            | ElementNode c :: t =>
                Forall_cons c (Element_induction c) (children_ok t)
            | TextNode _ :: t => children_ok t
            | CommentNode _ :: t => children_ok t
            end) nodes)
  end.

End ElementInduction.

(** ** Exceptions *)

Inductive Exn : Type :=
| Error (message : string)
| DOMException (name : string).

Definition Result (A : Type) : Type := (Exn + A)%type.

Definition Ok {A : Type} (a : A) : Result A := inr a.
Definition Throw {A : Type} (e : Exn) : Result A := inl e.

Definition bind {A B : Type} (m : Result A) (k : A -> Result B) : Result B :=
  match m with
  | inl e => inl e
  | inr a => k a
  end.

Notation "x <- m ;; k" := (bind m (fun x => k))
  (at level 61, m at next level, right associativity).

(** [try { body } catch (error) { handler }]. *)
Definition tryCatch {A : Type} (body : Result A) (handler : Exn -> Result A)
    : Result A :=
  match body with
  | inl e => handler e
  | inr a => inr a
  end.

(** [forEach] with a body that may throw, threading the accumulated value. *)
Fixpoint forEachM {A B : Type} (f : A -> B -> Result A) (l : list B) (a : A)
    : Result A :=
  match l with
  | [] => Ok a
  | b :: t => a' <- f a b ;; forEachM f t a'
  end.

(** ** The platform *)

(** The options object handed to js-beautify. *)
Record BeautifyOptions : Type := mkOptions {
  indent_size : nat;
  indent_with_tabs : bool;
  max_preserve_newlines : nat;
  preserve_newlines : bool;
  wrap_line_length : nat;
  end_with_newline : bool;
  indent_inner_html : bool
}.

Class Platform : Type := {
  (** [new DOMParser().parseFromString(s, "text/xml")]: a document is
      returned in every case; for an input that is not well-formed it
      contains a [parsererror] element. *)
  parseFromString : string -> Document;
  (** [new XMLSerializer().serializeToString], on an element and on a
      document. *)
  serializeToString : Element -> string;
  serializeDocumentToString : Document -> string;
  (** The selector parser of [querySelector], for a selector string that
      is computed at run time. *)
  parseSelector : string -> Result Selector;
  (** [js_beautify], imported by the module as [beautifyHtml]. *)
  beautifyHtml : string -> BeautifyOptions -> Result string
}.

(** ** The converter *)

(** What a template literal prints for a value that may be [null]. *)
Definition interpolate (o : option string) : string :=
  match o with
  | Some v => v
  | None => "null"
  end.

(** The opening template of [convertTableXmlToHtml]. *)
Definition tableXmlOpen : string :=
  nl
  ++ "    <div class=" ++ dq ++ "xml-table-container" ++ dq ++ ">" ++ nl
  ++ "      <style>" ++ nl
  ++ "        .xml-table-container { font-family: system-ui, sans-serif; }" ++ nl
  ++ "        .table { width: 100%; border-collapse: collapse; margin-bottom: 1rem; }" ++ nl
  ++ "        .table th, .table td { padding: 0.75rem; text-align: left; border: 1px solid #e2e8f0; }" ++ nl
  ++ "        .table th { font-weight: 600; background-color: #f8fafc; }" ++ nl
  ++ "        .table-responsive { overflow-x: auto; }" ++ nl
  ++ "        .table tr:nth-child(even) { background-color: #f8fafc; }" ++ nl
  ++ "      </style>" ++ nl
  ++ "      <div class=" ++ dq ++ "table-responsive" ++ dq ++ ">" ++ nl
  ++ "        <table class=" ++ dq ++ "table" ++ dq ++ ">" ++ nl
  ++ "  ".

(** Special converter for the standard table format with header, rows and
    cells. *)
Definition convertTableXmlToHtml (tableElement : Element) : string :=
  let html := tableXmlOpen in
  (* Process header if it exists *)
  let header := querySelector [TypeSel "header"] tableElement in
  let html :=
    match header with
    | Some header =>
        let html := html ++ "<thead><tr>" in
        let columns := querySelectorAll [TypeSel "column"] header in
        let html :=
          fold_left
            (fun html col =>
               html ++ "<th>" ++ orElse (textContent col) EmptyString ++ "</th>")
            columns html in
        html ++ "</tr></thead>"
    | None => html
    end in
  (* Process rows *)
  let rows := querySelectorAll [TypeSel "row"] tableElement in
  let html :=
    if (0 <? length rows)%nat then
      let html := html ++ "<tbody>" in
      let html :=
        fold_left
          (fun html row =>
             let html := html ++ "<tr>" in
             (* Process cells in each row *)
             let cells := querySelectorAll [TypeSel "cell"] row in
             let html :=
               fold_left
                 (fun html cell =>
                    html ++ "<td>" ++ orElse (textContent cell) EmptyString
                         ++ "</td>")
                 cells html in
             html ++ "</tr>")
          rows html in
      html ++ "</tbody>"
    else html in
  html ++ "</table></div></div>".

(** The item template of [convertFeedToHtml]. *)
Definition feedItemTemplate (itemLink itemTitle itemDesc : string) : string :=
  nl
  ++ "        <div class=" ++ dq ++ "feed-item" ++ dq ++ ">" ++ nl
  ++ "          <h2><a href=" ++ dq ++ itemLink ++ dq ++ ">" ++ itemTitle ++ "</a></h2>" ++ nl
  ++ "          <div class=" ++ dq ++ "feed-content" ++ dq ++ ">" ++ itemDesc ++ "</div>" ++ nl
  ++ "        </div>" ++ nl
  ++ "      ".

(** Converts feed elements (RSS, Atom) to HTML. *)
Definition convertFeedToHtml (rootElement : Element) : string :=
  let html := "<div class=" ++ dq ++ "xml-feed" ++ dq ++ ">" in
  (* Find title *)
  let title :=
    orDefault
      (option_map textContent
         (querySelector [TypeSel "title"; ChildSel "channel" "title"]
                        rootElement))
      "XML Feed" in
  let html := html ++ "<h1>" ++ title ++ "</h1>" in
  (* Find description *)
  let description :=
    option_map textContent
      (querySelector [TypeSel "description"; ChildSel "channel" "description";
                      TypeSel "subtitle"] rootElement) in
  let html :=
    match description with
    | Some d =>
        if truthy d then
          html ++ "<p class=" ++ dq ++ "feed-description" ++ dq ++ ">"
               ++ d ++ "</p>"
        else html
    | None => html
    end in
  (* Find items/entries *)
  let items := querySelectorAll [TypeSel "item"; TypeSel "entry"] rootElement in
  let html :=
    if (0 <? length items)%nat then
      let html := html ++ "<div class=" ++ dq ++ "feed-items" ++ dq ++ ">" in
      let html :=
        fold_left
          (fun html item =>
             let itemTitle :=
               orDefault (option_map textContent
                            (querySelector [TypeSel "title"] item))
                         "Untitled" in
             let itemLink :=
               orDefault (option_map textContent
                            (querySelector [TypeSel "link"] item))
                         "#" in
             let itemDesc :=
               orDefault (option_map textContent
                            (querySelector [TypeSel "description";
                                            TypeSel "summary";
                                            TypeSel "content"] item))
                         EmptyString in
             html ++ feedItemTemplate itemLink itemTitle itemDesc)
          items html in
      html ++ "</div>"
    else html in
  html ++ "</div>".

(** Determines if the structure seems to be tabular data. *)
Definition isTabularData (element : Element) : bool :=
  (* 1. Element has a tag name of table, grid, or dataset *)
  if includes ["table"; "grid"; "dataset"; "records"; "rows"]
              (toLowerCase (tagName element))
  then true
  else
    (* 2. Element contains multiple children with the same name *)
    let children_ := children element in
    if (length children_ <=? 1)%nat then false
    else
      match children_ with
      | [] => false
      | first :: _ =>
          let firstChildTag := tagName first in
          let allSameTag :=
            forallb (fun child => String.eqb (tagName child) firstChildTag)
                    children_ in
          if allSameTag && (1 <? length children_)%nat then
            (* Check if each row has multiple children (likely cells) *)
            let firstRowHasCells := (1 <? length (children first))%nat in
            firstRowHasCells
          else false
      end.

(** [Set.prototype.add] on a set of strings kept in insertion order. *)
Definition setAdd (set : list string) (x : string) : list string :=
  if includes set x then set else (set ++ [x])%list.

(** The wrapper template of [convertToHtmlTable]. *)
Definition htmlTableTemplate (html : string) : string :=
  nl
  ++ "    <div class=" ++ dq ++ "xml-table-container" ++ dq ++ ">" ++ nl
  ++ "      <style>" ++ nl
  ++ "        .xml-table-container { font-family: system-ui, sans-serif; }" ++ nl
  ++ "        .table { width: 100%; border-collapse: collapse; margin-bottom: 1rem; }" ++ nl
  ++ "        .table th, .table td { padding: 0.75rem; text-align: left; border-bottom: 1px solid #e2e8f0; }" ++ nl
  ++ "        .table th { font-weight: 600; background-color: #f8fafc; }" ++ nl
  ++ "        .table-responsive { overflow-x: auto; }" ++ nl
  ++ "        .table tr:nth-child(even) { background-color: #f8fafc; }" ++ nl
  ++ "      </style>" ++ nl
  ++ "      " ++ html ++ nl
  ++ "    </div>" ++ nl
  ++ "  ".

Definition htmlTableOpen : string :=
  "<div class=" ++ dq ++ "table-responsive" ++ dq ++ "><table class=" ++ dq
  ++ "table" ++ dq ++ " border=" ++ dq ++ "1" ++ dq ++ " cellpadding=" ++ dq
  ++ "8" ++ dq ++ " cellspacing=" ++ dq ++ "0" ++ dq ++ ">".

(** The tag mapping of [convertToSemanticHtml]. *)
Definition tagMapping : list (string * string) :=
  [ ("title", "h1"); ("subtitle", "h2"); ("header", "header");
    ("footer", "footer"); ("section", "section"); ("paragraph", "p");
    ("p", "p"); ("list", "ul"); ("item", "li"); ("link", "a");
    ("image", "img"); ("img", "img"); ("table", "table"); ("row", "tr");
    ("cell", "td"); ("heading", "h3"); ("content", "div"); ("div", "div");
    ("span", "span"); ("article", "article"); ("nav", "nav");
    ("button", "button"); ("input", "input") ].

(** The mapping is an object literal, so a key it does not define is looked
    up in [Object.prototype].  A tag name is lower-cased before the lookup,
    and two of the inherited names are lower case: [constructor] (the
    function [Object]) and [__proto__] (the prototype object).  Both values
    are truthy, neither is a string, and a template literal prints them as
    below. *)
Definition inheritedProperty (key : string) : option string :=
  if String.eqb key "constructor" then
    Some "function Object() { [native code] }"
  else if String.eqb key "__proto__" then Some "[object Object]"
  else None.

Definition ownProperty (key : string) : option string :=
  option_map snd (find (fun kv => String.eqb (fst kv) key) tagMapping).

(** [tagMapping[tagName] || 'div'], as the template literals print it. *)
Definition htmlTagOf (tagName : string) : string :=
  match ownProperty tagName with
  | Some t => orElse t "div"
  | None =>
      match inheritedProperty tagName with
      | Some printed => printed
      | None => "div"
      end
  end.

(** The root template of [convertToSemanticHtml]. *)
Definition semanticTemplate (html : string) : string :=
  nl
  ++ "      <div class=" ++ dq ++ "semantic-xml-content" ++ dq ++ ">" ++ nl
  ++ "        <style>" ++ nl
  ++ "          .semantic-xml-content { font-family: system-ui, sans-serif; line-height: 1.5; }" ++ nl
  ++ "          .xml-title, .xml-h1 { font-size: 2rem; font-weight: bold; margin-bottom: 1rem; }" ++ nl
  ++ "          .xml-subtitle, .xml-h2 { font-size: 1.5rem; font-weight: bold; margin-bottom: 0.75rem; }" ++ nl
  ++ "          .xml-heading, .xml-h3 { font-size: 1.25rem; font-weight: bold; margin-bottom: 0.5rem; }" ++ nl
  ++ "          .xml-paragraph, .xml-p { margin-bottom: 1rem; }" ++ nl
  ++ "          .xml-list { list-style-type: disc; padding-left: 1.5rem; margin-bottom: 1rem; }" ++ nl
  ++ "          .xml-item { margin-bottom: 0.5rem; }" ++ nl
  ++ "          .xml-link { color: #0077cc; text-decoration: underline; }" ++ nl
  ++ "          .xml-image { max-width: 100%; height: auto; }" ++ nl
  ++ "          .xml-section { margin-bottom: 2rem; padding: 1rem; border: 1px solid #e2e8f0; border-radius: 0.25rem; }" ++ nl
  ++ "          .xml-content, .xml-div { margin-bottom: 1rem; }" ++ nl
  ++ "          .xml-article { border-bottom: 1px solid #e2e8f0; padding-bottom: 1rem; margin-bottom: 1rem; }" ++ nl
  ++ "          .xml-button { padding: 0.5rem 1rem; background-color: #f1f5f9; border: 1px solid #94a3b8; border-radius: 0.25rem; }" ++ nl
  ++ "        </style>" ++ nl
  ++ "        " ++ html ++ nl
  ++ "      </div>" ++ nl
  ++ "    ".

(** The start tag that [convertToSemanticHtml] writes for an element: the
    mapped tag, the class, the special attributes and the other ones. *)
Definition semanticStartTag (element : Element) : string :=
  let tagName := toLowerCase (tagName element) in
  let htmlTag := htmlTagOf tagName in
  let html := "<" ++ htmlTag in
  (* Add class for styling *)
  let html := html ++ " class=" ++ dq ++ "xml-" ++ tagName ++ dq in
  (* Handle special tag conversions *)
  let html :=
    if String.eqb htmlTag "a" && hasAttribute element "href" then
      html ++ " href=" ++ dq ++ interpolate (getAttribute element "href") ++ dq
    else if String.eqb htmlTag "img" && hasAttribute element "src" then
      html ++ " src=" ++ dq ++ interpolate (getAttribute element "src") ++ dq
           ++ " alt=" ++ dq ++ orDefault (getAttribute element "alt") EmptyString
           ++ dq
    else html in
  (* Add other attributes *)
  let html :=
    fold_left
      (fun html attr =>
         (* Skip href and src as they're already handled above *)
         if negb (String.eqb (name attr) "href")
            && negb (String.eqb (name attr) "src")
         then html ++ " data-" ++ name attr ++ "=" ++ dq ++ value attr ++ dq
         else html)
      (attributes element) html in
  html ++ ">".

(** Converts XML to semantic HTML.  The loop over [element.children] runs
    over the child nodes and skips those that are not elements. *)
Fixpoint convertToSemanticHtml (ownerDocument : Document) (element : Element)
    {struct element} : string :=
  let html := semanticStartTag element in
  (* Add content based on child elements *)
  let html :=
    if (childElementCount element =? 0)%nat then
      (* Text content *)
      html ++ orElse (textContent element) EmptyString
    else
      (* Process child elements *)
      match element with
      | mkElement _ _ _ nodes =>
          fold_left
            (fun html node =>
               match node with
               | ElementNode child =>
                   html ++ convertToSemanticHtml ownerDocument child
               | _ => html
               end)
            nodes html
      end in
  let html :=
    html ++ "</" ++ htmlTagOf (toLowerCase (tagName element)) ++ ">" in
  (* If this is the root element, add some styling *)
  if sameNode element (documentElement ownerDocument) then
    semanticTemplate html
  else html.

Section Converter.

Context `{Platform}.

(** [row.querySelector(colName)] for a selector string built at run time:
    the platform parses the string, and throws for one it rejects. *)
Definition querySelectorByString (selectors : string) (e : Element)
    : Result (option Element) :=
  sel <- parseSelector selectors ;; Ok (querySelector sel e).

(** The content of the cell of [row] in the column [colName]: the first two
    statements of the innermost loop of [convertToHtmlTable]. *)
Definition cellContent (row : Element) (colName : string) : Result string :=
  cell <- querySelectorByString colName row ;;
  Ok match cell with
     | Some cell => orElse (textContent cell) EmptyString
     | None => EmptyString
     end.

(** Converts tabular data to an HTML table. *)
Definition convertToHtmlTable (element : Element) : Result string :=
  let rows := children element in
  if (length rows =? 0)%nat then Ok EmptyString
  else
    (* HTML table start with responsive wrapper *)
    let html := htmlTableOpen in
    (* Find all possible column names from all rows *)
    let allColumnNames :=
      fold_left
        (fun set row =>
           fold_left (fun set cell => setAdd set (tagName cell))
                     (children row) set)
        rows [] in
    let columnNames := allColumnNames in
    (* Create table header from all column names *)
    let html := html ++ "<thead><tr>" in
    let html :=
      fold_left (fun html colName => html ++ "<th>" ++ colName ++ "</th>")
                columnNames html in
    let html := html ++ "</tr></thead>" in
    (* Create table body with proper cell alignment *)
    let html := html ++ "<tbody>" in
    html <-
      forEachM
        (fun html row =>
           let html := html ++ "<tr>" in
           html <-
             forEachM
               (fun html colName =>
                  cellContent <- cellContent row colName ;;
                  Ok (html ++ "<td>" ++ cellContent ++ "</td>"))
               columnNames html ;;
           Ok (html ++ "</tr>"))
        rows html ;;
    let html := html ++ "</tbody></table></div>" in
    Ok (htmlTableTemplate html).

(** Creates a proper HTML representation from XML. *)
Definition createHtmlDisplay (ownerDocument : Document) (rootElement : Element)
    : Result string :=
  (* Check if this looks like tabular data *)
  if isTabularData rootElement then convertToHtmlTable rootElement
  else
    (* Otherwise convert using semantic HTML elements *)
    Ok (convertToSemanticHtml ownerDocument rootElement).

(** Converts an XML string to HTML.  The promise the source returns is
    its result: fulfilled with a string or rejected with what was thrown. *)
Definition convertXmlToHtml (xmlString : string) : Result string :=
  tryCatch
    ((* Create a parser and parse the XML string *)
     let xmlDoc := parseFromString xmlString in
     (* Check for parser errors *)
     let parserError := docQuerySelector [TypeSel "parsererror"] xmlDoc in
     match parserError with
     | Some _ => Throw (Error "Invalid XML format")
     | None =>
         let rootElement := documentElement xmlDoc in
         (* First check for a table structure *)
         if String.eqb (toLowerCase (tagName rootElement)) "table" then
           Ok (convertTableXmlToHtml rootElement)
         else
           (* Determine if this is a specific type of XML document *)
           let rootTagName := toLowerCase (tagName rootElement) in
           (* For RSS/feed XML *)
           if String.eqb rootTagName "rss" || String.eqb rootTagName "feed"
              || String.eqb rootTagName "channel"
           then Ok (convertFeedToHtml rootElement)
           (* For SVG files *)
           else if String.eqb rootTagName "svg" then
             Ok (serializeToString rootElement)
           (* For general XML, create a styled representation *)
           else if isTabularData rootElement then
             convertToHtmlTable rootElement
           else createHtmlDisplay xmlDoc rootElement
     end)
    (fun error => Throw error).

Inductive CodeType : Type := html_ | xml_.

(** Generic code formatter using js-beautify. *)
Definition formatCode (code : string) (type : CodeType) : Result string :=
  let options :=
    {| indent_size := 2;
       indent_with_tabs := false;
       max_preserve_newlines := 2;
       preserve_newlines := true;
       wrap_line_length := 120;
       end_with_newline := true;
       indent_inner_html := true |} in
  beautifyHtml code options.

(** Formats an XML string to be properly indented. *)
Definition formatXml (xmlString : string) : string :=
  if negb (truthy (trim xmlString)) then EmptyString
  else
    match
      (let xmlDoc := parseFromString xmlString in
       (* Check for parser errors *)
       let parserError := docQuerySelector [TypeSel "parsererror"] xmlDoc in
       match parserError with
       | Some _ => Throw (Error "Invalid XML format")
       | None =>
           (* Serialize with proper formatting *)
           let formatted := serializeDocumentToString xmlDoc in
           (* Use js-beautify for better formatting *)
           formatCode formatted xml_
       end)
    with
    | inr result => result
    | inl error =>
        (* Return original string if formatting fails *)
        xmlString
    end.

(** Formats an HTML string to be properly indented. *)
Definition formatHtml (htmlString : string) : string :=
  if negb (truthy (trim htmlString)) then EmptyString
  else
    match formatCode htmlString html_ with
    | inr result => result
    | inl error => htmlString
    end.

End Converter.

(** ** A sample platform

    A small platform on which the converter runs on concrete inputs: a
    parser for the fragment of XML made of elements, attributes and text
    (no entity references, comments, processing instructions or document
    type), a serializer, type selectors, and a formatter that only settles
    the final line break.  As a browser does, the parser answers an input it
    rejects with a document whose root is a [parsererror] element. *)
Module Sample.

Definition isLetter (c : ascii) : bool :=
  let n := nat_of_ascii c in
  (((65 <=? n) && (n <=? 90)) || ((97 <=? n) && (n <=? 122)))%nat.

Definition isDigit (c : ascii) : bool :=
  let n := nat_of_ascii c in ((48 <=? n) && (n <=? 57))%nat.

Definition isNameStart (c : ascii) : bool :=
  isLetter c || Ascii.eqb c "_" || Ascii.eqb c ":".

Definition isNameChar (c : ascii) : bool :=
  isNameStart c || isDigit c || Ascii.eqb c "-" || Ascii.eqb c ".".

Definition snoc (s : string) (c : ascii) : string := s ++ String c EmptyString.

(** White space of XML: space, tab, line feed and carriage return. *)
Definition isXmlSpace (c : ascii) : bool :=
  let n := nat_of_ascii c in
  ((n =? 32) || (n =? 9) || (n =? 10) || (n =? 13))%nat.

Fixpoint allSpace (s : string) : bool :=
  match s with
  | EmptyString => true
  | String c r => isXmlSpace c && allSpace r
  end.

(** An element that is still open: its name, its attributes and the child
    nodes read so far. *)
Record Frame : Type := mkFrame {
  frameName : string; frameAttrs : list Attr; frameNodes : list Node }.

Inductive Mode : Type :=
| InText (buf : string)
| TagOpen
| OpenName (n : string)
| InTag (n : string) (attrs : list Attr)
| AfterAttr (n : string) (attrs : list Attr)
| AttrName (n : string) (attrs : list Attr) (an : string)
| AttrEq (n : string) (attrs : list Attr) (an : string)
| AttrValue (q : ascii) (n : string) (attrs : list Attr) (an av : string)
| SelfClose (n : string) (attrs : list Attr)
| CloseName (n : string)
| CloseSpace (n : string)
| Failed.

Record State : Type := mkState {
  mode : Mode; stack : list Frame; root : option Element }.

(** Splits a qualified name at its colon. *)
Fixpoint splitName (acc s : string) : option (option string * string) :=
  match s with
  | EmptyString => Some (None, acc)
  | String c r =>
      if Ascii.eqb c ":" then
        if isEmpty acc || isEmpty r || contains ":" r then None
        else Some (Some acc, r)
      else splitName (snoc acc c) r
  end.

Definition declares (p : string) (attrs : list Attr) : bool :=
  existsb (fun a => String.eqb (name a) ("xmlns:" ++ p)) attrs.

(** A prefix is in scope when the element or one that is open declares
    it. *)
Definition inScope (p : string) (attrs : list Attr) (st : list Frame) : bool :=
  declares p attrs || existsb (fun f => declares p (frameAttrs f)) st.

Definition makeElement (n : string) (attrs : list Attr) (nodes : list Node)
    (st : list Frame) : option Element :=
  match splitName EmptyString n with
  | Some (Some p, l) =>
      if inScope p attrs st then Some (mkElement (Some p) l attrs nodes)
      else None
  | Some (None, l) => Some (mkElement None l attrs nodes)
  | None => None
  end.

Definition failed (s : State) : State := mkState Failed (stack s) (root s).

(** Hands a finished element to its parent, or makes it the root. *)
Definition attach (e : Element) (st : list Frame) (r : option Element)
    : State :=
  match st with
  | f :: rest =>
      mkState (InText EmptyString)
        (mkFrame (frameName f) (frameAttrs f)
                 (frameNodes f ++ [ElementNode e])%list :: rest) r
  | [] =>
      match r with
      | Some _ => mkState Failed [] r
      | None => mkState (InText EmptyString) [] (Some e)
      end
  end.

Definition openElement (n : string) (attrs : list Attr) (s : State) : State :=
  match stack s, root s with
  | [], Some _ => failed s
  | st, r => mkState (InText EmptyString) (mkFrame n attrs [] :: st) r
  end.

Definition emptyElement (n : string) (attrs : list Attr) (s : State) : State :=
  match makeElement n attrs [] (stack s) with
  | Some e => attach e (stack s) (root s)
  | None => failed s
  end.

Definition closeElement (n : string) (s : State) : State :=
  match stack s with
  | f :: rest =>
      if String.eqb (frameName f) n then
        match makeElement n (frameAttrs f) (frameNodes f) rest with
        | Some e => attach e rest (root s)
        | None => failed s
        end
      else failed s
  | [] => failed s
  end.

(** Text ends at a tag: inside an element it becomes a text node, outside
    the root only white space is allowed. *)
Definition flushText (buf : string) (s : State) : State :=
  match stack s with
  | f :: rest =>
      if isEmpty buf then mkState TagOpen (stack s) (root s)
      else
        mkState TagOpen
          (mkFrame (frameName f) (frameAttrs f)
                   (frameNodes f ++ [TextNode buf])%list :: rest) (root s)
  | [] => if allSpace buf then mkState TagOpen [] (root s) else failed s
  end.

Definition withMode (m : Mode) (s : State) : State :=
  mkState m (stack s) (root s).

Definition step (s : State) (c : ascii) : State :=
  match mode s with
  | InText buf =>
      if Ascii.eqb c "<" then flushText buf s
      else if Ascii.eqb c "&" then failed s
      else withMode (InText (snoc buf c)) s
  | TagOpen =>
      if Ascii.eqb c "/" then withMode (CloseName EmptyString) s
      else if isNameStart c then withMode (OpenName (snoc EmptyString c)) s
      else failed s
  | OpenName n =>
      if isNameChar c then withMode (OpenName (snoc n c)) s
      else if isXmlSpace c then withMode (InTag n []) s
      else if Ascii.eqb c "/" then withMode (SelfClose n []) s
      else if Ascii.eqb c ">" then openElement n [] s
      else failed s
  | InTag n attrs =>
      if isXmlSpace c then s
      else if Ascii.eqb c "/" then withMode (SelfClose n attrs) s
      else if Ascii.eqb c ">" then openElement n attrs s
      else if isNameStart c then
        withMode (AttrName n attrs (snoc EmptyString c)) s
      else failed s
  | AfterAttr n attrs =>
      if isXmlSpace c then withMode (InTag n attrs) s
      else if Ascii.eqb c "/" then withMode (SelfClose n attrs) s
      else if Ascii.eqb c ">" then openElement n attrs s
      else failed s
  | AttrName n attrs an =>
      if isNameChar c then withMode (AttrName n attrs (snoc an c)) s
      else if Ascii.eqb c "=" then withMode (AttrEq n attrs an) s
      else failed s
  | AttrEq n attrs an =>
      if Ascii.eqb c "034" || Ascii.eqb c "'" then
        withMode (AttrValue c n attrs an EmptyString) s
      else failed s
  | AttrValue q n attrs an av =>
      if Ascii.eqb c q then
        if existsb (fun a => String.eqb (name a) an) attrs then failed s
        else withMode (AfterAttr n (attrs ++ [mkAttr an av])%list) s
      else if Ascii.eqb c "<" || Ascii.eqb c "&" then failed s
      else withMode (AttrValue q n attrs an (snoc av c)) s
  | SelfClose n attrs =>
      if Ascii.eqb c ">" then emptyElement n attrs s else failed s
  | CloseName n =>
      if isNameChar c then withMode (CloseName (snoc n c)) s
      else if isXmlSpace c then withMode (CloseSpace n) s
      else if Ascii.eqb c ">" then closeElement n s
      else failed s
  | CloseSpace n =>
      if isXmlSpace c then s
      else if Ascii.eqb c ">" then closeElement n s
      else failed s
  | Failed => s
  end.

Fixpoint run (s : State) (input : string) : State :=
  match input with
  | EmptyString => s
  | String c r => run (step s c) r
  end.

(** The document a browser hands back for an input it rejects. *)
Definition parserErrorDocument (input : string) : Document :=
  mkDocument
    (mkElement None "parsererror"
       [mkAttr "xmlns" "http://www.mozilla.org/newlayout/xml/parsererror.xml"]
       [TextNode "XML Parsing Error";
        ElementNode (mkElement None "sourcetext" [] [TextNode input])]).

Definition parse (input : string) : Document :=
  let s := run (mkState (InText EmptyString) [] None) input in
  match mode s, stack s, root s with
  | InText buf, [], Some e =>
      if allSpace buf then mkDocument e else parserErrorDocument input
  | _, _, _ => parserErrorDocument input
  end.

(** Serialization: markup characters are written as entity references. *)
Fixpoint escape (inAttr : bool) (s : string) : string :=
  match s with
  | EmptyString => EmptyString
  | String c r =>
      (if Ascii.eqb c "&" then "&amp;"
       else if Ascii.eqb c "<" then "&lt;"
       else if Ascii.eqb c ">" then "&gt;"
       else if inAttr && Ascii.eqb c "034" then "&quot;"
       else String c EmptyString) ++ escape inAttr r
  end.

Definition serializeAttr (a : Attr) : string :=
  " " ++ name a ++ "=" ++ dq ++ escape true (value a) ++ dq.

Fixpoint serialize (e : Element) : string :=
  match e with
  | mkElement _ _ attrs nodes =>
      let start :=
        "<" ++ tagName e ++ String.concat EmptyString (map serializeAttr attrs)
      in
      match nodes with
      | [] => start ++ "/>"
      | _ =>
          start ++ ">"
          ++ String.concat EmptyString
               (map (fun n => match n with
                              | ElementNode c => serialize c
                              | TextNode d => escape false d
                              | CommentNode d => "<!--" ++ d ++ "-->"
                              end) nodes)
          ++ "</" ++ tagName e ++ ">"
      end
  end.

(** A selector string that is an identifier is a type selector; the sample
    platform rejects every other string. *)
Fixpoint allNameChars (s : string) : bool :=
  match s with
  | EmptyString => true
  | String c r =>
      (isLetter c || isDigit c || Ascii.eqb c "_" || Ascii.eqb c "-")
      && allNameChars r
  end.

Definition isIdentifier (s : string) : bool :=
  match s with
  | EmptyString => false
  | String c _ => (isLetter c || Ascii.eqb c "_") && allNameChars s
  end.

Definition typeSelector (s : string) : Result Selector :=
  if isIdentifier s then Ok [TypeSel s]
  else Throw (DOMException "SyntaxError").

(** The sample formatter trims the code and ends it with one line break
    when the options ask for it. *)
Definition settleLineEnd (code : string) (options : BeautifyOptions)
    : Result string :=
  Ok (if end_with_newline options then trim code ++ nl else trim code).

Definition platform : Platform := {|
  parseFromString := parse;
  serializeToString := serialize;
  serializeDocumentToString := fun d => serialize (documentElement d);
  parseSelector := typeSelector;
  beautifyHtml := settleLineEnd
|}.

End Sample.

(** * The specification's notions

    Definitions that follow the wording of the specification, to be
    compared with the code. *)

(** ** The tabular predicate (section 4.2) *)

Definition tabularNames : list string :=
  ["table"; "grid"; "dataset"; "records"; "rows"].

(** The predicate in the words of the specification. *)
Definition tabularPredicate (E : Element) : Prop :=
  In (toLowerCase (tagName E)) tabularNames
  \/ (1 < length (children E)
      /\ (exists t, Forall (fun c => tagName c = t) (children E))
      /\ (exists first rest,
             children E = first :: rest /\ 1 < length (children first))).

(** ** Shape classification (section 4.2) *)

Inductive Shape : Type :=
| Table
| Feed
| SvgPassthrough
| TabularGeneric
| SemanticGeneric.

Definition rootTagIs (names : list string) (root : Element) : bool :=
  includes names (toLowerCase (tagName root)).

(** The decision list of the specification, top down. *)
Definition decisionOrder : list ((Element -> bool) * Shape) :=
  [ (rootTagIs ["table"], Table);
    (rootTagIs ["rss"; "feed"; "channel"], Feed);
    (rootTagIs ["svg"], SvgPassthrough);
    (isTabularData, TabularGeneric) ].

(** First match wins; [SemanticGeneric] otherwise. *)
Definition classify (root : Element) : Shape :=
  match find (fun rule => fst rule root) decisionOrder with
  | Some rule => snd rule
  | None => SemanticGeneric
  end.

(** The renderer of each shape. *)
Definition render `{Platform} (ownerDocument : Document) (shape : Shape)
    (root : Element) : Result string :=
  match shape with
  | Table => Ok (convertTableXmlToHtml root)
  | Feed => Ok (convertFeedToHtml root)
  | SvgPassthrough => Ok (serializeToString root)
  | TabularGeneric => convertToHtmlTable root
  | SemanticGeneric => Ok (convertToSemanticHtml ownerDocument root)
  end.

(** ** Well-formed input (section 4.1)

    The parser reports an input that is not well-formed through a
    [parsererror] element in the document it returns, and the module knows
    a malformed input by nothing else: both notions below are the module's
    own test.  (An input that is well-formed XML but holds an element named
    [parsererror] is therefore malformed for the module.) *)
Definition malformed `{Platform} (xmlString : string) : Prop :=
  docQuerySelector [TypeSel "parsererror"] (parseFromString xmlString) <> None.

Definition wellFormed `{Platform} (xmlString : string) : Prop :=
  docQuerySelector [TypeSel "parsererror"] (parseFromString xmlString) = None.

(** The failure of section 7 that [convert] raises for malformed input. *)
Definition ParseError : Exn := Error "Invalid XML format".

(** ** The semantic renderer without the root test (sections 4.7 and 9)

    The specification asks for a split between rendering a node and
    wrapping the root.  [renderNode] is the node part: the start tag, the
    text content of a leaf or the rendered child elements, and the end
    tag. *)
Fixpoint renderNode (element : Element) : string :=
  semanticStartTag element
  ++ (if (childElementCount element =? 0)%nat then textContent element
      else
        match element with
        | mkElement _ _ _ nodes =>
            String.concat EmptyString
              (map (fun node => match node with
                                | ElementNode child => renderNode child
                                | _ => EmptyString
                                end) nodes)
        end)
  ++ "</" ++ htmlTagOf (toLowerCase (tagName element)) ++ ">".

(** The example of section 8. *)
Definition listExample : string :=
  "<list><item>One</item><item>Two</item></list>".

Definition listDocument : Document :=
  mkDocument
    (mkElement None "list" []
       [ElementNode (mkElement None "item" [] [TextNode "One"]);
        ElementNode (mkElement None "item" [] [TextNode "Two"])]).

Definition listHtml : string :=
  "<ul class=" ++ dq ++ "xml-list" ++ dq ++ ">"
  ++ "<li class=" ++ dq ++ "xml-item" ++ dq ++ ">One</li>"
  ++ "<li class=" ++ dq ++ "xml-item" ++ dq ++ ">Two</li>"
  ++ "</ul>".

(** ** Attributes of a rendered element (section 4.7)

    The attributes the specification puts on the output element, as
    name/value pairs in the order of writing: the class, the special-cased
    [href] of an anchor or [src] and [alt] of an image, then one data
    attribute per source attribute other than [href] and [src]. *)
Definition anchorAttributes (element : Element) : list (string * string) :=
  if String.eqb (htmlTagOf (toLowerCase (tagName element))) "a" then
    match getAttribute element "href" with
    | Some h => [("href", h)]
    | None => []
    end
  else [].

Definition imageAttributes (element : Element) : list (string * string) :=
  if String.eqb (htmlTagOf (toLowerCase (tagName element))) "img" then
    match getAttribute element "src" with
    | Some s =>
        [("src", s);
         ("alt", orDefault (getAttribute element "alt") EmptyString)]
    | None => []
    end
  else [].

Definition isGeneric (a : Attr) : bool :=
  negb (String.eqb (name a) "href") && negb (String.eqb (name a) "src").

Definition dataAttributes (element : Element) : list (string * string) :=
  map (fun a => ("data-" ++ name a, value a))
      (filter isGeneric (attributes element)).

Definition writtenAttributes (element : Element) : list (string * string) :=
  ("class", "xml-" ++ toLowerCase (tagName element))
    :: (anchorAttributes element ++ imageAttributes element
        ++ dataAttributes element)%list.

(** An attribute as it stands in a start tag. *)
Definition writeAttribute (a : string * string) : string :=
  " " ++ fst a ++ "=" ++ dq ++ snd a ++ dq.

(** *** Reading a start tag

    What the renderer emits is text, and an attribute is emitted when a
    reader of HTML finds it in that text.  [readStartTag] reads a start
    tag the way the tokenizer of HTML does, state by state: the tag name,
    then attributes with a value between double or single quotes, with a
    value without quotes, or without a value.  It keeps names as they are
    written, keeps an attribute that is written twice twice, and does not
    decode character references. *)
Inductive CharClass : Type :=
| Space | Slash | Greater | Equals | DoubleQuote | SingleQuote | Other.

(** Tab, line feed, form feed, carriage return and space. *)
Definition isTagSpace (c : ascii) : bool :=
  let n := nat_of_ascii c in
  ((n =? 9) || (n =? 10) || (n =? 12) || (n =? 13) || (n =? 32))%nat.

Definition charClass (c : ascii) : CharClass :=
  if isTagSpace c then Space
  else if Ascii.eqb c "/" then Slash
  else if Ascii.eqb c ">" then Greater
  else if Ascii.eqb c "=" then Equals
  else if Ascii.eqb c "034" then DoubleQuote
  else if Ascii.eqb c "'" then SingleQuote
  else Other.


Definition snoc (s : string) (c : ascii) : string := s ++ String c EmptyString.



(** A name of ordinary characters: no white space, [/], [>], [=] or
    quote.  The names of XML are of this kind. *)
Fixpoint plainName (s : string) : bool :=
  match s with
  | EmptyString => true
  | String c r =>
      match charClass c with
      | Other => plainName r
      | _ => false
      end
  end.

(** A text without a double quote. *)
Fixpoint noQuote (s : string) : bool :=
  match s with
  | EmptyString => true
  | String c r => negb (Ascii.eqb c "034") && noQuote r
  end.

(** An element whose start tag can be written between double quotes as
    it is: the mapped tag is a plain name (it is, unless the tag name is
    one that the mapping inherits), the tag name holds no double quote,
    the attribute names are plain and no attribute value holds a double
    quote. *)
Definition quoteFree (element : Element) : bool :=
  plainName (htmlTagOf (toLowerCase (tagName element)))
  && noQuote (toLowerCase (tagName element))
  && forallb (fun a => plainName (name a) && noQuote (value a))
             (attributes element).




Definition quotedValueElement : Element :=
  mkElement None "link"
    [mkAttr "href" "a"; mkAttr "x" (dq ++ " href=" ++ dq ++ "b")] [].

(** ** Elements below an element

    The elements strictly below [e] that satisfy [keep], in document
    order, collected by a walk over the tree. *)
Fixpoint elementsBelow (keep : Element -> bool) (e : Element) : list Element :=
  match e with
  | mkElement _ _ _ nodes =>
      flat_map (fun n => match n with
                         | ElementNode c =>
                             ((if keep c then [c] else [])
                                ++ elementsBelow keep c)%list
                         | _ => []
                         end) nodes
  end.

(** An element whose local name is one of [names]. *)
Definition namedOneOf (names : list string) (e : Element) : bool :=
  existsb (String.eqb (localName e)) names.

Definition named (n : string) : Element -> bool := namedOneOf [n].

(** ** Feed items (sections 4.4 and 8)

    The [item] and [entry] elements of the source, in document order. *)
Definition sourceItems (root : Element) : list Element :=
  elementsBelow (namedOneOf ["item"; "entry"]) root.

(** The text of the first descendant that a selector matches. *)
Definition firstText (sel : Selector) (e : Element) : option string :=
  option_map textContent (querySelector sel e).

(** One rendered feed item: the heading that links to the item's [link]
    (default [#]) with the item's [title] (default Untitled), then the
    first of [description], [summary], [content] (default empty). *)
Definition feedItemHtml (item : Element) : string :=
  feedItemTemplate
    (orDefault (firstText [TypeSel "link"] item) "#")
    (orDefault (firstText [TypeSel "title"] item) "Untitled")
    (orDefault (firstText [TypeSel "description"; TypeSel "summary";
                           TypeSel "content"] item) EmptyString).

Definition feedOpen : string :=
  "<div class=" ++ dq ++ "xml-feed" ++ dq ++ ">" ++ "<h1>".

Definition descriptionOpen : string :=
  "<p class=" ++ dq ++ "feed-description" ++ dq ++ ">".

Definition itemsOpen : string :=
  "<div class=" ++ dq ++ "feed-items" ++ dq ++ ">".

(** The feed title and the optional feed description. *)
Definition feedHeading (root : Element) : string :=
  feedOpen
  ++ orDefault (firstText [TypeSel "title"; ChildSel "channel" "title"] root)
               "XML Feed"
  ++ "</h1>"
  ++ match firstText [TypeSel "description"; ChildSel "channel" "description";
                      TypeSel "subtitle"] root with
     | Some d =>
         if isEmpty d then EmptyString else descriptionOpen ++ d ++ "</p>"
     | None => EmptyString
     end.

(** The list of rendered items inside its container; nothing at all when
    there is no item. *)
Definition feedItemsSection (rendered : list string) : string :=
  match rendered with
  | [] => EmptyString
  | _ => itemsOpen ++ String.concat EmptyString rendered ++ "</div>"
  end.

(** The tag that opens a rendered feed item. *)
Definition feedItemMarkerTail : string :=
  "div class=" ++ dq ++ "feed-item" ++ dq ++ ">".

Definition feedItemMarker : string := String "<" feedItemMarkerTail.







(** ** Sections of the table renderer (section 4.3)

    The header section holds one header cell per [column] below the first
    [header]; the body section holds one row per [row], each with one cell
    per [cell] below it.  A section without its elements is not written. *)
Definition headerCell (col : Element) : string :=
  "<th>" ++ textContent col ++ "</th>".

Definition bodyCell (cell : Element) : string :=
  "<td>" ++ textContent cell ++ "</td>".

Definition bodyRow (row : Element) : string :=
  "<tr>"
  ++ String.concat EmptyString
       (map bodyCell (elementsBelow (named "cell") row))
  ++ "</tr>".

Definition theadSection (tableElement : Element) : string :=
  match elementsBelow (named "header") tableElement with
  | header :: _ =>
      "<thead><tr>"
      ++ String.concat EmptyString
           (map headerCell (elementsBelow (named "column") header))
      ++ "</tr></thead>"
  | [] => EmptyString
  end.

Definition tbodySection (tableElement : Element) : string :=
  match elementsBelow (named "row") tableElement with
  | [] => EmptyString
  | rows =>
      "<tbody>" ++ String.concat EmptyString (map bodyRow rows) ++ "</tbody>"
  end.

(** The literal pieces of the table renderer other than the two tags that
    open a section. *)
Definition tableLiterals : list string :=
  [ tableXmlOpen; "</tr></thead>"; "</tbody>"; "</table></div></div>";
    "<th>"; "</th>"; "<tr>"; "<td>"; "</td>"; "</tr>" ].

(** ** Columns of the generic table (section 4.6)

    The distinct strings of a list in first-seen order: every string
    stands where it is met first, and its later copies are dropped. *)
Definition firstSeen (l : list string) : list string :=
  fold_right
    (fun x seen => x :: filter (fun y => negb (String.eqb y x)) seen) [] l.

Definition childTagNames (row : Element) : list string :=
  map tagName (children row).

(** The union of the child-element tag names of all rows. *)
Definition columnUnion (rows : list Element) : list string :=
  firstSeen (flat_map childTagNames rows).

(** What a row shows in a column: the text of the first element with that
    name inside the row, nothing when there is none. *)
Definition cellText (row : Element) (col : string) : string :=
  match elementsBelow (named col) row with
  | cell :: _ => textContent cell
  | [] => EmptyString
  end.

Definition tableCell (row : Element) (col : string) : string :=
  "<td>" ++ cellText row col ++ "</td>".

Definition tableRow (columns : list string) (row : Element) : string :=
  "<tr>" ++ String.concat EmptyString (map (tableCell row) columns) ++ "</tr>".

Definition tableHeader (columns : list string) : string :=
  "<thead><tr>"
  ++ String.concat EmptyString (map (fun c => "<th>" ++ c ++ "</th>") columns)
  ++ "</tr></thead>".

(** The generic table of [rows] over [columns]. *)
Definition genericTable (columns : list string) (rows : list Element)
    : string :=
  htmlTableTemplate
    (htmlTableOpen ++ tableHeader columns ++ "<tbody>"
     ++ String.concat EmptyString (map (tableRow columns) rows)
     ++ "</tbody></table></div>").

(** ** Sample inputs *)

Definition tableExample : string :=
  "<table><header><column>Name</column><column>Age</column></header>"
  ++ "<row><cell>Ada</cell><cell>36</cell></row></table>".

(** A table whose only [header] sits below another element, and which has
    no [row]. *)
Definition nestedHeaderExample : string :=
  "<table><group><header><column>Name</column></header></group></table>".

(** A table without any [header] and without any [row]. *)
Definition bareTableExample : string :=
  "<table><caption>Empty</caption></table>".

Definition feedExample : string :=
  "<rss><channel><title>News</title>"
  ++ "<item><title>First</title><link>http://a</link></item>"
  ++ "<entry><summary>Second</summary></entry></channel></rss>".



(** A well-formed feed with one item, which holds an element named
    [parsererror]. *)
Definition strayErrorFeedExample : string :=
  "<rss><channel><item><parsererror/></item></channel></rss>".

Definition strayErrorFeedRoot : Element :=
  mkElement None "rss" []
    [ElementNode
       (mkElement None "channel" []
          [ElementNode
             (mkElement None "item" []
                [ElementNode (mkElement None "parsererror" [] [])])])].

(** A feed with one item, whose summary is the opening tag of a feed
    item (written with character references or in a CDATA section in the
    source). *)
Definition markupSummaryFeedRoot : Element :=
  mkElement None "rss" []
    [ElementNode
       (mkElement None "item" []
          [ElementNode
             (mkElement None "summary" [] [TextNode feedItemMarker])])].

(** Two rows with different fields; the second has no child [Y], but a
    [Y] inside its [X]. *)
Definition nestedColumnExample : string :=
  "<data><r><X>1</X><Y>2</Y></r><r><X><Y>deep</Y></X><Z>3</Z></r></data>".

Definition nestedColumnRowA : Element :=
  mkElement None "r" []
    [ElementNode (mkElement None "X" [] [TextNode "1"]);
     ElementNode (mkElement None "Y" [] [TextNode "2"])].

Definition nestedColumnRowB : Element :=
  mkElement None "r" []
    [ElementNode
       (mkElement None "X" []
          [ElementNode (mkElement None "Y" [] [TextNode "deep"])]);
     ElementNode (mkElement None "Z" [] [TextNode "3"])].

Definition nestedColumnRoot : Element :=
  mkElement None "data" []
    [ElementNode nestedColumnRowA; ElementNode nestedColumnRowB].

(** * Further notions

    Definitions for the properties of the second part of the
    development. *)

(** ** Selectors that the platform rejects *)

(** The exception of the first column name, in column order, that the
    selector parser rejects. *)
Fixpoint firstRejected `{Platform} (columns : list string) : option Exn :=
  match columns with
  | [] => None
  | col :: rest =>
      match parseSelector col with
      | inl e => Some e
      | inr _ => firstRejected rest
      end
  end.

(** The text a row shows in a column whose name the platform parses,
    whatever selector it reads it as. *)
Definition parsedCellText `{Platform} (row : Element) (col : string) : string :=
  match parseSelector col with
  | inr sel =>
      match querySelector sel row with
      | Some cell => textContent cell
      | None => EmptyString
      end
  | inl _ => EmptyString
  end.

Definition parsedRow `{Platform} (columns : list string) (row : Element)
    : string :=
  "<tr>"
  ++ String.concat EmptyString
       (map (fun col => "<td>" ++ parsedCellText row col ++ "</td>") columns)
  ++ "</tr>".

Definition parsedTable `{Platform} (columns : list string)
    (rows : list Element) : string :=
  htmlTableTemplate
    (htmlTableOpen ++ tableHeader columns ++ "<tbody>"
     ++ String.concat EmptyString (map (parsedRow columns) rows)
     ++ "</tbody></table></div>").

(** A table whose rows have a field with a namespace prefix: the sample
    platform rejects its name as a selector. *)
Definition prefixedFieldRoot : Element :=
  mkElement None "data" [mkAttr "xmlns:x" "u"]
    [ElementNode
       (mkElement None "r" []
          [ElementNode (mkElement None "a" [] [TextNode "1"]);
           ElementNode (mkElement (Some "x") "b" [] [TextNode "2"])]);
     ElementNode
       (mkElement None "r" []
          [ElementNode (mkElement None "a" [] [TextNode "3"]);
           ElementNode (mkElement (Some "x") "b" [] [TextNode "4"])])].

(** ** Counting tags in the two tables *)

(** All literal pieces of the table renderer. *)
Definition tablePieces : list string :=
  (tableLiterals ++ ["<thead><tr>"; "<tbody>"])%list.

(** The number of occurrences of a tag in the output of the table
    renderer, from its number [n] in each literal piece: the opening, the
    header section with its columns, the body section with its rows and
    their cells, and the closing. *)
Definition tableCount (n : string -> nat) (tableElement : Element) : nat :=
  n tableXmlOpen
  + match elementsBelow (named "header") tableElement with
    | header :: _ =>
        n "<thead><tr>"
        + (n "<th>" + n "</th>")
          * length (elementsBelow (named "column") header)
        + n "</tr></thead>"
    | [] => 0
    end
  + match elementsBelow (named "row") tableElement with
    | [] => 0
    | rows =>
        n "<tbody>"
        + list_sum
            (map (fun row =>
                    n "<tr>"
                    + (n "<td>" + n "</td>")
                      * length (elementsBelow (named "cell") row)
                    + n "</tr>") rows)
        + n "</tbody>"
    end
  + n "</table></div></div>".

(** The literal text of [htmlTableTemplate] before and after the table. *)
Definition genericPre : string :=
  nl
  ++ "    <div class=" ++ dq ++ "xml-table-container" ++ dq ++ ">" ++ nl
  ++ "      <style>" ++ nl
  ++ "        .xml-table-container { font-family: system-ui, sans-serif; }" ++ nl
  ++ "        .table { width: 100%; border-collapse: collapse; margin-bottom: 1rem; }" ++ nl
  ++ "        .table th, .table td { padding: 0.75rem; text-align: left; border-bottom: 1px solid #e2e8f0; }" ++ nl
  ++ "        .table th { font-weight: 600; background-color: #f8fafc; }" ++ nl
  ++ "        .table-responsive { overflow-x: auto; }" ++ nl
  ++ "        .table tr:nth-child(even) { background-color: #f8fafc; }" ++ nl
  ++ "      </style>" ++ nl
  ++ "      ".

Definition genericPost : string :=
  nl ++ "    </div>" ++ nl ++ "  ".

Definition genericPieces : list string :=
  [ genericPre; htmlTableOpen; "<thead><tr>"; "<th>"; "</th>";
    "</tr></thead>"; "<tbody>"; "<tr>"; "<td>"; "</td>"; "</tr>";
    "</tbody></table></div>"; genericPost ].

(** ** The semantic renderer on a whole tree *)

Definition isElementNode (n : Node) : bool :=
  match n with
  | ElementNode _ => true
  | _ => false
  end.

(** The tree without the text and comment nodes that stand beside child
    elements, at every depth.  An element without child elements is
    kept as it is. *)
Fixpoint dropMixedText (e : Element) : Element :=
  match e with
  | mkElement p l attrs nodes =>
      if existsb isElementNode nodes then
        mkElement p l attrs
          (flat_map (fun n => match n with
                              | ElementNode c => [ElementNode (dropMixedText c)]
                              | _ => []
                              end) nodes)
      else e
  end.

Definition cleanAttr (a : Attr) : bool :=
  noMarkup (name a) && noMarkup (value a).

(** A tree in which no name, attribute value or text holds a [<]. *)
Fixpoint cleanElement (e : Element) : bool :=
  match e with
  | mkElement p l attrs nodes =>
      noMarkup (match p with Some p => p | None => EmptyString end)
      && noMarkup l
      && forallb cleanAttr attrs
      && forallb (fun n => match n with
                           | ElementNode c => cleanElement c
                           | TextNode d => noMarkup d
                           | CommentNode _ => true
                           end) nodes
  end.

(** The tags that [htmlTagOf] can answer: the values of the mapping, the
    default, and the two inherited values as printed. *)
Definition htmlTags : list string :=
  [ "h1"; "h2"; "header"; "footer"; "section"; "p"; "ul"; "li"; "a"; "img";
    "table"; "tr"; "td"; "h3"; "div"; "span"; "article"; "nav"; "button";
    "input"; "function Object() { [native code] }"; "[object Object]" ].

(** The start of a start tag, up to the beginning of the class value, and
    the end tag. *)
Definition startLiteral (tag : string) : string :=
  "<" ++ tag ++ " class=" ++ dq ++ "xml-".

Definition endTag (tag : string) : string := "</" ++ tag ++ ">".

(** The rest of the start tag: the lower-cased tag name that ends the class
    value, the other attributes and the closing bracket. *)
Definition startTail (element : Element) : string :=
  toLowerCase (tagName element) ++ dq
  ++ String.concat EmptyString
       (map writeAttribute
            (anchorAttributes element ++ imageAttributes element
             ++ dataAttributes element)%list)
  ++ ">".

(** The tag that opens the styled container. *)
Definition semanticContainer : string :=
  "<div class=" ++ dq ++ "semantic-xml-content" ++ dq ++ ">".

Definition semanticPre : string :=
  nl
  ++ "      <div class=" ++ dq ++ "semantic-xml-content" ++ dq ++ ">" ++ nl
  ++ "        <style>" ++ nl
  ++ "          .semantic-xml-content { font-family: system-ui, sans-serif; line-height: 1.5; }" ++ nl
  ++ "          .xml-title, .xml-h1 { font-size: 2rem; font-weight: bold; margin-bottom: 1rem; }" ++ nl
  ++ "          .xml-subtitle, .xml-h2 { font-size: 1.5rem; font-weight: bold; margin-bottom: 0.75rem; }" ++ nl
  ++ "          .xml-heading, .xml-h3 { font-size: 1.25rem; font-weight: bold; margin-bottom: 0.5rem; }" ++ nl
  ++ "          .xml-paragraph, .xml-p { margin-bottom: 1rem; }" ++ nl
  ++ "          .xml-list { list-style-type: disc; padding-left: 1.5rem; margin-bottom: 1rem; }" ++ nl
  ++ "          .xml-item { margin-bottom: 0.5rem; }" ++ nl
  ++ "          .xml-link { color: #0077cc; text-decoration: underline; }" ++ nl
  ++ "          .xml-image { max-width: 100%; height: auto; }" ++ nl
  ++ "          .xml-section { margin-bottom: 2rem; padding: 1rem; border: 1px solid #e2e8f0; border-radius: 0.25rem; }" ++ nl
  ++ "          .xml-content, .xml-div { margin-bottom: 1rem; }" ++ nl
  ++ "          .xml-article { border-bottom: 1px solid #e2e8f0; padding-bottom: 1rem; margin-bottom: 1rem; }" ++ nl
  ++ "          .xml-button { padding: 0.5rem 1rem; background-color: #f1f5f9; border: 1px solid #94a3b8; border-radius: 0.25rem; }" ++ nl
  ++ "        </style>" ++ nl
  ++ "        ".

Definition semanticPost : string :=
  nl
  ++ "      </div>" ++ nl
  ++ "    ".

(** ** The file uploader ([FileUploader.tsx])

    A file as [processFile] sees it: its name, its media type, its size in
    bytes, and what the file reader answers when asked for its text
    ([None] when the reader reports an error). *)
Module File.
Record t : Type := mk {
  name : string;
  type : string;
  size : N;
  text : option string
}.
End File.

(** A toast: title, description and variant. *)
Inductive Toast : Type :=
| toast (title description : string) (variant : option string).

(** [String.prototype.endsWith]. *)
Definition endsWith (s suffix : string) : bool :=
  let n := String.length s in
  let m := String.length suffix in
  (m <=? n)%nat && String.eqb (substring (n - m) m s) suffix.

(** [processFile]: the toast it shows, or the text it hands to
    [onFileLoaded]. *)
Definition processFile (file : File.t) : Toast + string :=
  (* Check if file is XML *)
  if negb (endsWith (toLowerCase (File.name file)) ".xml")
     && negb (String.eqb (File.type file) "text/xml")
  then
    inl (toast "Invalid file format" "Please upload an XML file"
               (Some "destructive"))
  (* Check file size (10MB max) *)
  else if (10 * 1024 * 1024 <? File.size file)%N then
    inl (toast "File too large" "Maximum file size is 10MB"
               (Some "destructive"))
  else
    match File.text file with
    | Some result => inr result
    | None =>
        inl (toast "Error reading file"
                   "There was a problem reading your file. Please try again."
                   (Some "destructive"))
    end.

(** ** The converter component ([XmlConverter.tsx])

    The state of the component: one field for each state hook.  The input
    is kept by [useLocalStorage], a state cell that starts with the stored
    text. *)
Record ConverterState : Type := mkConverterState {
  activeTab : string;
  xmlInput : string;
  htmlOutput : string;
  renderedHtml : string;
  error : option string;
  isConverting : bool;
  formattedXml : string
}.

Definition setActiveTab (v : string) (s : ConverterState) : ConverterState :=
  mkConverterState v (xmlInput s) (htmlOutput s) (renderedHtml s) (error s)
                   (isConverting s) (formattedXml s).

Definition setXmlInput (v : string) (s : ConverterState) : ConverterState :=
  mkConverterState (activeTab s) v (htmlOutput s) (renderedHtml s) (error s)
                   (isConverting s) (formattedXml s).

Definition setHtmlOutput (v : string) (s : ConverterState) : ConverterState :=
  mkConverterState (activeTab s) (xmlInput s) v (renderedHtml s) (error s)
                   (isConverting s) (formattedXml s).

Definition setRenderedHtml (v : string) (s : ConverterState)
    : ConverterState :=
  mkConverterState (activeTab s) (xmlInput s) (htmlOutput s) v (error s)
                   (isConverting s) (formattedXml s).

Definition setError (v : option string) (s : ConverterState)
    : ConverterState :=
  mkConverterState (activeTab s) (xmlInput s) (htmlOutput s) (renderedHtml s)
                   v (isConverting s) (formattedXml s).

Definition setIsConverting (v : bool) (s : ConverterState) : ConverterState :=
  mkConverterState (activeTab s) (xmlInput s) (htmlOutput s) (renderedHtml s)
                   (error s) v (formattedXml s).

Definition setFormattedXml (v : string) (s : ConverterState)
    : ConverterState :=
  mkConverterState (activeTab s) (xmlInput s) (htmlOutput s) (renderedHtml s)
                   (error s) (isConverting s) v.

(** The state of the first render, for the text found in the store. *)
Definition initialState (stored : string) : ConverterState :=
  mkConverterState "upload" stored EmptyString EmptyString None false
                   EmptyString.

(** Truthiness of [error], a string or [null]. *)
Definition truthyError (e : option string) : bool :=
  match e with
  | Some m => truthy m
  | None => false
  end.

(** What leaves the component: a toast, a text for the clipboard, a file
    to save. *)
Inductive Blob : Type :=
| textBlob (parts : list string) (type : string)
| zipBlob (files : list (string * string)).

Inductive Effect : Type :=
| showToast (t : Toast)
| clipboardWriteText (text : string)
| saveAs (data : Blob) (filename : string).

Section Component.

Context `{Platform}.

(** The message of a [DOMException] of a given name.  The model of
    exceptions keeps the name only, and the handlers print the message. *)
Variable messageOf : string -> string.

(** The body of the effect on [xmlInput].  [formatXml] catches what its
    parser and formatter throw, so the [catch] of the effect has nothing
    to catch. *)
Definition inputEffect (s : ConverterState) : ConverterState :=
  if truthy (trim (xmlInput s)) then
    (* Format the XML for display *)
    let formatted := formatXml (xmlInput s) in
    let s := setFormattedXml formatted s in
    setError None s
  else
    let s := setFormattedXml EmptyString s in
    setHtmlOutput EmptyString s.

(** [handleXmlInput], in a render with the state [s]. *)
Definition handleXmlInput (value : string) (s : ConverterState)
    : ConverterState :=
  let s' := setXmlInput value s in
  (* Clear any previous errors when user starts typing again *)
  if truthyError (error s) then setError None s' else s'.

(** [handleFileUpload].  The file reader calls it when it has read the
    file, which is later than the render that made the closure:
    [seenError] is the [error] of that render, [s] the state at the time
    of the call. *)
Definition handleFileUpload (seenError : option string) (content : string)
    (s : ConverterState) : ConverterState :=
  let s := setXmlInput content s in
  let s := setActiveTab "input" s in
  (* Clear any previous errors when a new file is uploaded *)
  if truthyError seenError then setError None s else s.

(** The text shown for a failed conversion.  Both kinds of exception are
    instances of [Error]. *)
Definition failureText (err : Exn) : string :=
  match err with
  | Error message => "Error: " ++ message
  | DOMException name => "Error: " ++ messageOf name
  end.

(** [handleConvert].  The promise of [convertXmlToHtml] is settled when
    the function returns, so no other event comes between the two halves
    of the handler. *)
Definition handleConvert (s : ConverterState)
    : ConverterState * list Effect :=
  if negb (truthy (trim (xmlInput s))) then
    (setError (Some "Please provide XML input first") s, [])
  else
    let s1 := setIsConverting true s in
    let (s2, effects) :=
      match convertXmlToHtml (xmlInput s) with
      | inr result =>
          (* Convert XML to clean HTML for rendering *)
          let s2 := setRenderedHtml result s1 in
          (* Format HTML for code display *)
          let formattedHtml := formatHtml result in
          let s2 := setHtmlOutput formattedHtml s2 in
          let s2 := setActiveTab "preview" s2 in
          let s2 := setError None s2 in
          (s2, [showToast (toast "Conversion successful"
                                 "XML has been converted to HTML" None)])
      | inl err => (setError (Some (failureText err)) s1, [])
      end in
    (setIsConverting false s2, effects).

Definition handleCopyHtml (s : ConverterState) : list Effect :=
  if truthy (htmlOutput s) then
    [clipboardWriteText (htmlOutput s);
     showToast (toast "Copied to clipboard"
                      "HTML code has been copied to your clipboard" None)]
  else [].

Definition handleDownloadHtml (s : ConverterState) : list Effect :=
  if truthy (htmlOutput s) then
    [saveAs (textBlob [htmlOutput s] "text/html;charset=utf-8")
            "converted.html"]
  else [].

Definition handleDownloadZip (s : ConverterState) : list Effect :=
  if truthy (xmlInput s) && truthy (htmlOutput s) then
    [saveAs (zipBlob [("original.xml", xmlInput s);
                      ("converted.html", htmlOutput s)])
            "xml-html-conversion.zip"]
  else [].

Definition handleReset (s : ConverterState) : ConverterState :=
  let s := setXmlInput EmptyString s in
  let s := setHtmlOutput EmptyString s in
  let s := setError None s in
  setActiveTab "upload" s.

(** What the user and the file reader do to the component. *)
Inductive Event : Type :=
| Typed (value : string)
| FileRead (seenError : option string) (content : string)
| ConvertClicked
| ResetClicked
| TabSelected (value : string).

Definition handler (ev : Event) (s : ConverterState) : ConverterState :=
  match ev with
  | Typed value => handleXmlInput value s
  | FileRead seenError content => handleFileUpload seenError content s
  | ConvertClicked => fst (handleConvert s)
  | ResetClicked => handleReset s
  | TabSelected value => setActiveTab value s
  end.

(** The render after an event: the effect runs when the input is not the
    one of the render before. *)
Definition rendered (before after : ConverterState) : ConverterState :=
  if String.eqb (xmlInput before) (xmlInput after) then after
  else inputEffect after.

Definition dispatch (s : ConverterState) (ev : Event) : ConverterState :=
  rendered s (handler ev s).

(** The component after its first render, where the effect runs, and
    after a sequence of events. *)
Definition mounted (stored : string) : ConverterState :=
  inputEffect (initialState stored).

Definition session (stored : string) (events : list Event) : ConverterState :=
  fold_left dispatch events (mounted stored).

(** An upload: [processFile] runs when the file is chosen, and for a file
    it accepts the reader calls [onFileLoaded], which is the
    [handleFileUpload] of the render in which the file was chosen, when it
    has read the file.  [seenError] is the [error] of that render, and [s]
    the state when the reader has finished, after whatever events came in
    between. *)
Definition upload (seenError : option string) (file : File.t)
    (s : ConverterState) : ConverterState * list Toast :=
  match processFile file with
  | inl t => (s, [t])
  | inr content => (dispatch s (FileRead seenError content), [])
  end.

End Component.

(** What holds of the component between two events: the formatted input
    is the input formatted, a blank input has no output, an output is the
    formatted form of the HTML of the preview, which the converter has
    answered for some input, an error has a text, and no conversion is
    under way. *)
Definition consistent `{Platform} (s : ConverterState) : Prop :=
  formattedXml s = formatXml (xmlInput s)
  /\ (truthy (trim (xmlInput s)) = false -> htmlOutput s = EmptyString)
  /\ (htmlOutput s = EmptyString
      \/ (htmlOutput s = formatHtml (renderedHtml s)
          /\ exists xmlString,
               convertXmlToHtml xmlString = Ok (renderedHtml s)))
  /\ error s <> Some EmptyString
  /\ isConverting s = false.

(** ** Elements of a tree *)

(** The element itself and the elements below it, in document order. *)
Definition treeElements (root : Element) : list Element :=
  root :: elementsBelow (fun _ => true) root.

(** A note whose text, written in a CDATA section or with character
    references in the source, is markup. *)
Definition markupTextRoot : Element :=
  mkElement None "note" []
    [ElementNode
       (mkElement None "body" [] [TextNode "<script>alert(1)</script>"])].

(** ** Further sample inputs *)

(** A table whose rows have three cells and one cell under a header of
    two columns. *)
Definition raggedTableRoot : Element :=
  mkElement None "table" []
    [ElementNode
       (mkElement None "header" []
          [ElementNode (mkElement None "column" [] [TextNode "Name"]);
           ElementNode (mkElement None "column" [] [TextNode "Age"])]);
     ElementNode
       (mkElement None "row" []
          [ElementNode (mkElement None "cell" [] [TextNode "Ada"]);
           ElementNode (mkElement None "cell" [] [TextNode "36"]);
           ElementNode (mkElement None "cell" [] [TextNode "London"])]);
     ElementNode
       (mkElement None "row" []
          [ElementNode (mkElement None "cell" [] [TextNode "Bob"])])].

(** A feed with a channel and nothing in it. *)
Definition emptyFeedRoot : Element :=
  mkElement None "rss" [] [ElementNode (mkElement None "channel" [] [])].

(** A feed whose only title is the title of an item. *)
Definition untitledFeedRoot : Element :=
  mkElement None "rss" []
    [ElementNode
       (mkElement None "channel" []
          [ElementNode
             (mkElement None "item" []
                [ElementNode (mkElement None "title" [] [TextNode "First"])])])].

(** A file with an upper-case extension and no media type, and a large
    text file. *)
Definition upperCaseFile : File.t :=
  File.mk "Data.XML" EmptyString 4 (Some "<a/>").

Definition largeTextFile : File.t :=
  File.mk "notes.txt" "text/plain" 20000000 (Some "notes").

(** A file whose text is not well-formed. *)
Definition unclosedFile : File.t :=
  File.mk "a.xml" "text/xml" 3 (Some "<a>").

(** * Properties *)

(** ** Strings and loops *)

Lemma append_nil_r (s : string) : s ++ EmptyString = s.
Proof. induction s as [|c s IH]; simpl; [reflexivity | now rewrite IH]. Qed.

Lemma append_assoc (a b c : string) : (a ++ b) ++ c = a ++ (b ++ c).
Proof. induction a as [|x a IH]; simpl; [reflexivity | now rewrite IH]. Qed.

Lemma includes_In (l : list string) (s : string) :
  includes l s = true <-> In s l.
Proof.
  unfold includes. rewrite existsb_exists. split.
  - intros [x [Hin Heq]]. apply String.eqb_eq in Heq. now subst.
  - intros Hin. exists s. split; [assumption | apply String.eqb_refl].
Qed.

Lemma join_cons (s : string) (l : list string) :
  String.concat EmptyString (s :: l) = s ++ String.concat EmptyString l.
Proof. destruct l; simpl; [now rewrite append_nil_r | reflexivity]. Qed.

Lemma join_app (l1 l2 : list string) :
  String.concat EmptyString (l1 ++ l2)%list
  = String.concat EmptyString l1 ++ String.concat EmptyString l2.
Proof.
  induction l1 as [| s l1 IH]; [reflexivity |].
  change ((s :: l1) ++ l2)%list with (s :: (l1 ++ l2))%list.
  now rewrite !join_cons, IH, append_assoc.
Qed.

(** Brings both sides of an equation between concatenations to the
    right-nested form. *)
Ltac string_normalize :=
  repeat (progress (rewrite ?append_assoc, ?append_nil_r; simpl)).

(** A [forEach] that appends to [html] produces the pieces in order. *)
Lemma forEach_append {A : Type} (f : A -> string) (l : list A) (html : string) :
  fold_left (fun html x => html ++ f x) l html
  = html ++ String.concat EmptyString (map f l).
Proof.
  revert html. induction l as [|x l IH]; intros html; simpl.
  - now rewrite append_nil_r.
  - rewrite IH. destruct l as [|y l].
    + simpl. now rewrite !append_nil_r.
    + now rewrite append_assoc.
Qed.

(** ** Counting occurrences in a concatenation *)

Lemma prefix_append_literal (p lit s : string) :
  properPrefix lit p = false ->
  (lit = EmptyString -> p = EmptyString) ->
  prefix p (lit ++ s) = prefix p lit.
Proof.
  revert lit. induction p as [| a p IH]; intros lit Hnot Hempty.
  - destruct lit; [destruct s |]; reflexivity.
  - destruct lit as [| c r]; [specialize (Hempty eq_refl); discriminate |].
    simpl. destruct (ascii_dec a c) as [-> | Hneq]; [| reflexivity].
    unfold properPrefix in Hnot. simpl in Hnot.
    destruct (ascii_dec c c) as [_ | Hcc]; [| congruence].
    apply IH.
    + exact Hnot.
    + intros ->. simpl in Hnot. destruct p; [reflexivity | discriminate].
Qed.

Lemma occurrences_empty (p : string) :
  p <> EmptyString -> occurrences p EmptyString = 0.
Proof. now destruct p. Qed.

Lemma contributes_literal (p lit : string) :
  p <> EmptyString ->
  noOverlap p lit = true ->
  contributes p lit (occurrences p lit).
Proof.
  intros Hp. induction lit as [| c r IH]; intros Hno s.
  - simpl append. now rewrite occurrences_empty.
  - simpl in Hno. apply andb_true_iff in Hno as [Hhere Hrest].
    apply negb_true_iff in Hhere.
    change (String c r ++ s) with (String c (r ++ s)).
    change (occurrences p (String c (r ++ s)))
      with ((if prefix p (String c r ++ s) then 1 else 0)
            + occurrences p (r ++ s)).
    rewrite prefix_append_literal by (assumption || discriminate).
    rewrite (IH Hrest s).
    change (occurrences p (String c r))
      with ((if prefix p (String c r) then 1 else 0) + occurrences p r).
    lia.
Qed.

Lemma contributes_text (q t : string) :
  noMarkup t = true -> contributes (String "<" q) t 0.
Proof.
  induction t as [| c r IH]; intros Hclean s; [reflexivity |].
  simpl in Hclean. apply andb_true_iff in Hclean as [Hc Hr].
  apply negb_true_iff, Ascii.eqb_neq in Hc.
  change (String c r ++ s) with (String c (r ++ s)).
  change (occurrences (String "<" q) (String c (r ++ s)))
    with ((if (if ascii_dec "<" c then prefix q (r ++ s) else false)
           then 1 else 0)
          + occurrences (String "<" q) (r ++ s)).
  destruct (ascii_dec "<" c) as [<- | _]; [congruence |].
  exact (IH Hr s).
Qed.

Lemma contributes_app (p a b : string) (n m : nat) :
  contributes p a n -> contributes p b m -> contributes p (a ++ b) (n + m).
Proof.
  intros Ha Hb s. rewrite append_assoc, Ha, Hb. lia.
Qed.

Lemma contributes_nil (p : string) : contributes p EmptyString 0.
Proof. intros s. reflexivity. Qed.

Lemma contributes_concat {A : Type} (p : string) (f : A -> string)
    (l : list A) (k : nat) :
  (forall x, In x l -> contributes p (f x) k) ->
  contributes p (String.concat EmptyString (map f l)) (k * length l).
Proof.
  induction l as [| x l IH]; intros Heach.
  - rewrite Nat.mul_0_r. apply contributes_nil.
  - rewrite map_cons, join_cons.
    replace (k * length (x :: l)) with (k + k * length l) by (simpl; lia).
    apply contributes_app.
    + apply Heach. now left.
    + apply IH. intros y Hy. apply Heach. now right.
Qed.

Lemma contributes_total (p a : string) (n : nat) :
  p <> EmptyString -> contributes p a n -> occurrences p a = n.
Proof.
  intros Hp Ha. specialize (Ha EmptyString).
  rewrite append_nil_r, occurrences_empty in Ha by assumption. lia.
Qed.

Lemma noMarkup_app (a b : string) :
  noMarkup (a ++ b) = noMarkup a && noMarkup b.
Proof.
  induction a as [| c a IH]; [reflexivity |].
  simpl. now rewrite IH, andb_assoc.
Qed.

(** ** The tabular predicate *)

Lemma forallb_same_tag (t : string) (l : list Element) :
  forallb (fun child => String.eqb (tagName child) t) l = true
  <-> Forall (fun c => tagName c = t) l.
Proof.
  rewrite forallb_forall, Forall_forall.
  split; intros Hall x Hin; apply String.eqb_eq; auto.
Qed.

(** C1: [isTabularData] computes the tabular predicate of the
    specification: it answers true exactly when the lower-cased tag name is
    one of table, grid, dataset, records, rows, or the element has more than
    one child element, all of them with the same tag name, and the first of
    them has more than one child element itself.  In particular it answers
    false for an element with at most one child element whose tag name is
    not in the list. *)
Theorem isTabularData_spec (E : Element) :
  (isTabularData E = true <-> tabularPredicate E)
  /\ (length (children E) <= 1 ->
      ~ In (toLowerCase (tagName E)) tabularNames ->
      isTabularData E = false).
Proof.
  unfold isTabularData, tabularPredicate. fold tabularNames.
  destruct (includes tabularNames (toLowerCase (tagName E))) eqn:Hname.
  - apply includes_In in Hname. split; [tauto | contradiction].
  - assert (Hnot : ~ In (toLowerCase (tagName E)) tabularNames).
    { intros Hin. apply includes_In in Hin. congruence. }
    destruct (Nat.leb_spec (length (children E)) 1) as [Hle | Hgt].
    + split; [| reflexivity].
      split; [discriminate |].
      intros [Hin | [Hlen _]]; [contradiction | lia].
    + split; [| lia].
      destruct (children E) as [| first rest] eqn:Hch; [simpl in Hgt; lia |].
      assert (Hlt : (1 <? length (first :: rest))%nat = true)
        by now apply Nat.ltb_lt.
      rewrite Hlt, andb_true_r.
      destruct (forallb _ (first :: rest)) eqn:Hall.
      * apply forallb_same_tag in Hall. rewrite Nat.ltb_lt. split.
        -- intros Hcells. right. split; [assumption |]. split.
           ++ now exists (tagName first).
           ++ now exists first, rest.
        -- intros [Hin | [_ [_ [f [r [Heq Hcells]]]]]]; [contradiction |].
           now inversion Heq; subst.
      * split; [discriminate |].
        intros [Hin | [_ [[t Hsame] _]]]; [contradiction |].
        assert (Htag : t = tagName first) by (now inversion Hsame; subst).
        subst t. apply forallb_same_tag in Hsame. congruence.
Qed.

(** ** Dispatch *)

Section Dispatch.

Context `{Platform}.

Lemma includes_one (a s : string) : includes [a] s = String.eqb s a.
Proof. unfold includes; simpl. now rewrite orb_false_r. Qed.

Lemma includes_three (a b c s : string) :
  includes [a; b; c] s = String.eqb s a || String.eqb s b || String.eqb s c.
Proof. unfold includes; simpl. now rewrite orb_false_r, orb_assoc. Qed.

(** C6: on a well-formed input the converter runs the renderer of the shape
    that the decision list selects, first match first: table, then rss, feed
    or channel, then svg, then the tabular predicate, and the semantic
    renderer when none applies. *)
Theorem convertXmlToHtml_dispatch (xmlString : string) :
  wellFormed xmlString ->
  let xmlDoc := parseFromString xmlString in
  let root := documentElement xmlDoc in
  convertXmlToHtml xmlString = render xmlDoc (classify root) root.
Proof.
  intros Hwf xmlDoc root. unfold wellFormed in Hwf.
  unfold convertXmlToHtml. rewrite Hwf. fold xmlDoc. fold root.
  unfold classify, decisionOrder, find, fst, snd, rootTagIs.
  rewrite !includes_one, includes_three.
  destruct (String.eqb (toLowerCase (tagName root)) "table"); [reflexivity |].
  destruct (String.eqb (toLowerCase (tagName root)) "rss"
            || String.eqb (toLowerCase (tagName root)) "feed"
            || String.eqb (toLowerCase (tagName root)) "channel");
    [reflexivity |].
  destruct (String.eqb (toLowerCase (tagName root)) "svg"); [reflexivity |].
  unfold createHtmlDisplay.
  destruct (isTabularData root) eqn:Htab; simpl.
  - now destruct (convertToHtmlTable root).
  - reflexivity.
Qed.

End Dispatch.

(** ** The tree *)

Lemma size_child (e c : Element) : In c (children e) -> size c < size e.
Proof.
  destruct e as [p l attrs nodes]. unfold children; simpl.
  induction nodes as [| n nodes IH]; simpl; [contradiction |].
  destruct n as [c' | d | d]; simpl.
  - intros [-> | Hin]; [lia | specialize (IH Hin); lia].
  - intros Hin; specialize (IH Hin); lia.
  - intros Hin; specialize (IH Hin); lia.
Qed.

Lemma sameNode_refl (e : Element) : sameNode e e = true.
Proof. unfold sameNode. destruct (Element_eq_dec e e); congruence. Qed.

Lemma sameNode_size (a b : Element) : size a <> size b -> sameNode a b = false.
Proof.
  unfold sameNode. destruct (Element_eq_dec a b); [subst; congruence | reflexivity].
Qed.

(** ** The semantic renderer *)

Lemma orElse_empty (s : string) : orElse s EmptyString = s.
Proof. now destruct s. Qed.

(** A loop over the child nodes that only acts on elements is a loop over
    [children]. *)
Lemma forEach_child_append (g : Element -> string) (nodes : list Node)
    (html : string) :
  fold_left (fun html node => match node with
                              | ElementNode child => html ++ g child
                              | _ => html
                              end) nodes html
  = html ++ String.concat EmptyString (map g (elementsOf nodes)).
Proof.
  revert html. induction nodes as [| n nodes IH]; intros html.
  - simpl. now rewrite append_nil_r.
  - destruct n as [c | d | d]; simpl fold_left; rewrite IH.
    + change (elementsOf (ElementNode c :: nodes))
        with (c :: elementsOf nodes).
      now rewrite map_cons, join_cons, append_assoc.
    + reflexivity.
    + reflexivity.
Qed.

Lemma concat_child_map (g : Element -> string) (nodes : list Node) :
  String.concat EmptyString
    (map (fun node => match node with
                      | ElementNode child => g child
                      | _ => EmptyString
                      end) nodes)
  = String.concat EmptyString (map g (elementsOf nodes)).
Proof.
  induction nodes as [| n nodes IH]; [reflexivity |].
  rewrite map_cons, join_cons, IH.
  destruct n as [c | d | d]; try reflexivity.
  change (elementsOf (ElementNode c :: nodes)) with (c :: elementsOf nodes).
  now rewrite map_cons, join_cons.
Qed.

(** [convertToSemanticHtml] as the source writes it, with the loop over
    [element.children]. *)
Lemma convertToSemanticHtml_eq (doc : Document) (element : Element) :
  convertToSemanticHtml doc element
  = let html :=
      semanticStartTag element
      ++ (if (childElementCount element =? 0)%nat then textContent element
          else String.concat EmptyString
                 (map (convertToSemanticHtml doc) (children element)))
      ++ "</" ++ htmlTagOf (toLowerCase (tagName element)) ++ ">" in
    if sameNode element (documentElement doc) then semanticTemplate html
    else html.
Proof.
  destruct element as [p l attrs nodes].
  cbv zeta. unfold convertToSemanticHtml at 1; fold convertToSemanticHtml.
  cbv zeta.
  destruct (childElementCount (mkElement p l attrs nodes) =? 0)%nat.
  - now rewrite orElse_empty, !append_assoc.
  - rewrite forEach_child_append. unfold children, childNodes.
    now rewrite !append_assoc.
Qed.

Lemma renderNode_eq (element : Element) :
  renderNode element
  = semanticStartTag element
    ++ (if (childElementCount element =? 0)%nat then textContent element
        else String.concat EmptyString (map renderNode (children element)))
    ++ "</" ++ htmlTagOf (toLowerCase (tagName element)) ++ ">".
Proof.
  destruct element as [p l attrs nodes].
  unfold renderNode at 1; fold renderNode.
  destruct (childElementCount (mkElement p l attrs nodes) =? 0)%nat;
    [reflexivity |].
  now rewrite concat_child_map.
Qed.

(** Below the document element the root test fails, so no wrapper is
    written there. *)
Lemma convertToSemanticHtml_below (doc : Document) (element : Element) :
  size element < size (documentElement doc) ->
  convertToSemanticHtml doc element = renderNode element.
Proof.
  induction element as [p l attrs nodes IH] using Element_induction.
  intros Hsize. rewrite convertToSemanticHtml_eq, renderNode_eq. cbv zeta.
  rewrite sameNode_size by lia.
  do 2 f_equal.
  destruct (childElementCount (mkElement p l attrs nodes) =? 0)%nat;
    [reflexivity |].
  f_equal. apply map_ext_in. intros c Hin.
  rewrite Forall_forall in IH. apply IH; [exact Hin |].
  pose proof (size_child (mkElement p l attrs nodes) c Hin). lia.
Qed.

(** The wrapper is written once, around the rendering of the root. *)
Lemma convertToSemanticHtml_root (doc : Document) :
  convertToSemanticHtml doc (documentElement doc)
  = semanticTemplate (renderNode (documentElement doc)).
Proof.
  rewrite convertToSemanticHtml_eq, renderNode_eq. cbv zeta.
  rewrite sameNode_refl. do 3 f_equal.
  destruct (childElementCount (documentElement doc) =? 0)%nat;
    [reflexivity |].
  f_equal. apply map_ext_in. intros c Hin.
  apply convertToSemanticHtml_below. now apply size_child.
Qed.

(** ** The formatters

    What the module adds to the formatter it calls: a blank input is
    answered with the empty string, and a failure of the formatter with the
    input itself. *)

Section Formatters.

Context `{Platform}.

Lemma trim_empty : trim EmptyString = EmptyString.
Proof. reflexivity. Qed.

Lemma formatHtml_blank (htmlString : string) :
  isEmpty (trim htmlString) = true -> formatHtml htmlString = EmptyString.
Proof. intros Hblank. unfold formatHtml, truthy. now rewrite Hblank. Qed.

Lemma formatHtml_formatted (htmlString result : string) :
  isEmpty (trim htmlString) = false ->
  formatCode htmlString html_ = Ok result ->
  formatHtml htmlString = result.
Proof.
  intros Hblank Hcode. unfold formatHtml, truthy.
  now rewrite Hblank, Hcode.
Qed.

Lemma formatHtml_fallback (htmlString : string) (error : Exn) :
  isEmpty (trim htmlString) = false ->
  formatCode htmlString html_ = Throw error ->
  formatHtml htmlString = htmlString.
Proof.
  intros Hblank Hcode. unfold formatHtml, truthy.
  now rewrite Hblank, Hcode.
Qed.

(** Formatting twice equals formatting once on a blank input, on an input
    the formatter fails on, and on an input whose formatted form is not
    blank and is left as it is by the formatter.  Whether the formatter
    leaves its own output as it is the module does not decide. *)
Lemma formatHtml_twice (htmlString : string) :
  isEmpty (trim htmlString) = true
  \/ (exists error, formatCode htmlString html_ = Throw error)
  \/ (exists result,
        formatCode htmlString html_ = Ok result
        /\ isEmpty (trim result) = false
        /\ formatCode result html_ = Ok result) ->
  formatHtml (formatHtml htmlString) = formatHtml htmlString.
Proof.
  intros [Hblank | [[error Hthrow] | [result [Hcode [Hfull Hfixed]]]]].
  - rewrite (formatHtml_blank _ Hblank). now apply formatHtml_blank.
  - destruct (isEmpty (trim htmlString)) eqn:Hblank.
    + rewrite (formatHtml_blank _ Hblank). now apply formatHtml_blank.
    + now rewrite !(formatHtml_fallback _ error Hblank Hthrow).
  - destruct (isEmpty (trim htmlString)) eqn:Hblank.
    + rewrite (formatHtml_blank _ Hblank). now apply formatHtml_blank.
    + rewrite (formatHtml_formatted _ result Hblank Hcode).
      now apply formatHtml_formatted.
Qed.

End Formatters.

(** ** Plain tag names *)

Lemma contains_cons (p r : string) (c : ascii) :
  contains p r = true -> contains p (String c r) = true.
Proof.
  unfold contains.
  change (occurrences p (String c r))
    with ((if prefix p (String c r) then 1 else 0) + occurrences p r).
  rewrite !Nat.ltb_lt. lia.
Qed.

Lemma contains_colon_here (r : string) : contains ":" (String ":" r) = true.
Proof.
  unfold contains.
  change (occurrences ":" (String ":" r))
    with ((if prefix ":" (String ":" r) then 1 else 0) + occurrences ":" r).
  assert (Hhere : prefix ":" (String ":" r) = true)
    by (simpl; now destruct r).
  rewrite Hhere. apply Nat.ltb_lt. lia.
Qed.

Lemma hasColon_lower (a b : string) (t : string) :
  toLowerCase (a ++ ":" ++ b) = t -> contains ":" t = true.
Proof.
  intros <-. induction a as [| c a IH].
  - apply contains_colon_here.
  - apply contains_cons, IH.
Qed.

(** A root whose lower-cased tag name is a plain word has no namespace
    prefix, so its local name is its tag name. *)
Lemma plain_tagName (root : Element) (t : string) :
  toLowerCase (tagName root) = t ->
  contains ":" t = false ->
  localName root = tagName root.
Proof.
  unfold tagName. destruct (prefixOf root) as [p |]; [| reflexivity].
  intros Hlower Hplain. apply hasColon_lower in Hlower. congruence.
Qed.

Lemma descendants_leaf (e : Element) : children e = [] -> descendants e = [].
Proof.
  destruct e as [p l attrs nodes]. unfold children, childNodes.
  unfold descendants; fold descendants.
  generalize (Some (mkElement p l attrs nodes)). intros parent.
  induction nodes as [| n nodes IH]; [reflexivity |].
  destruct n as [c | d | d]; [discriminate | exact IH | exact IH].
Qed.

(** ** Conversion of concrete shapes *)

Section Conversion.

Context `{Platform}.

(** On a well-formed input the converter is the chain of tests on the
    root. *)
Lemma convertXmlToHtml_wellFormed (xmlString : string) :
  wellFormed xmlString ->
  convertXmlToHtml xmlString
  = let xmlDoc := parseFromString xmlString in
    let rootElement := documentElement xmlDoc in
    let rootTagName := toLowerCase (tagName rootElement) in
    if String.eqb rootTagName "table" then
      Ok (convertTableXmlToHtml rootElement)
    else if String.eqb rootTagName "rss" || String.eqb rootTagName "feed"
            || String.eqb rootTagName "channel"
    then Ok (convertFeedToHtml rootElement)
    else if String.eqb rootTagName "svg" then
      Ok (serializeToString rootElement)
    else if isTabularData rootElement then convertToHtmlTable rootElement
    else Ok (convertToSemanticHtml xmlDoc rootElement).
Proof.
  intros Hwf. unfold wellFormed in Hwf.
  unfold convertXmlToHtml. rewrite Hwf. cbv zeta.
  set (root := documentElement (parseFromString xmlString)).
  destruct (String.eqb (toLowerCase (tagName root)) "table"); [reflexivity |].
  destruct (String.eqb (toLowerCase (tagName root)) "rss"
            || String.eqb (toLowerCase (tagName root)) "feed"
            || String.eqb (toLowerCase (tagName root)) "channel");
    [reflexivity |].
  destruct (String.eqb (toLowerCase (tagName root)) "svg"); [reflexivity |].
  unfold createHtmlDisplay.
  destruct (isTabularData root); simpl; [| reflexivity].
  now destruct (convertToHtmlTable root).
Qed.

(** C4: the input [<list><item>One</item><item>Two</item></list>] is not a
    table, a feed or an SVG and fails the tabular predicate, so it takes the
    semantic path; the converter answers the styled container, written
    once, around a [<ul>] that holds the two [<li>] elements with the texts
    One and Two. *)
Theorem convertXmlToHtml_listExample :
  parseFromString listExample = listDocument ->
  let root := documentElement listDocument in
  let container :=
    "<div class=" ++ dq ++ "semantic-xml-content" ++ dq ++ ">" in
  classify root = SemanticGeneric
  /\ isTabularData root = false
  /\ convertXmlToHtml listExample = Ok (semanticTemplate listHtml)
  /\ occurrences container (semanticTemplate listHtml) = 1
  /\ occurrences "<ul" (semanticTemplate listHtml) = 1
  /\ occurrences "<li" (semanticTemplate listHtml) = 2.
Proof.
  intros Hparse root container.
  split; [reflexivity |]. split; [reflexivity |].
  split; [| now vm_compute].
  rewrite convertXmlToHtml_wellFormed
    by (unfold wellFormed; rewrite Hparse; reflexivity).
  rewrite Hparse. now vm_compute.
Qed.

(** C10: an input whose root is named grid, dataset, records or rows (in
    any letter case) and has no child element is converted without failure,
    and the result is the empty string.  Such a document holds no
    [parsererror] element, so the module takes it for well-formed. *)
Theorem convertXmlToHtml_empty_tabular_root (xmlString : string) :
  let root := documentElement (parseFromString xmlString) in
  In (toLowerCase (tagName root)) ["grid"; "dataset"; "records"; "rows"] ->
  children root = [] ->
  wellFormed xmlString /\ convertXmlToHtml xmlString = Ok EmptyString.
Proof.
  intros root Hname Hleaf.
  assert (Hplain : contains ":" (toLowerCase (tagName root)) = false).
  { simpl in Hname.
    destruct Hname as [Hn | [Hn | [Hn | [Hn | []]]]]; now rewrite <- Hn. }
  assert (Hwf : wellFormed xmlString).
  { unfold wellFormed, docQuerySelector. fold root.
    rewrite (descendants_leaf root Hleaf).
    unfold filter, matchesSelector, existsb, matchesComplex, fst, snd.
    rewrite (plain_tagName root _ eq_refl Hplain), orb_false_r.
    destruct (String.eqb_spec (tagName root) "parsererror") as [He | _];
      [| reflexivity].
    rewrite He in Hname. simpl in Hname.
    destruct Hname as [Hn | [Hn | [Hn | [Hn | []]]]]; discriminate Hn. }
  split; [exact Hwf |].
  rewrite convertXmlToHtml_wellFormed by assumption. cbv zeta. fold root.
  assert (Htab : isTabularData root = true).
  { unfold isTabularData.
    replace (includes _ (toLowerCase (tagName root))) with true;
      [reflexivity |].
    symmetry. apply includes_In. simpl in Hname |- *. tauto. }
  assert (Hrender : convertToHtmlTable root = Ok EmptyString).
  { unfold convertToHtmlTable. now rewrite Hleaf. }
  rewrite Htab, Hrender.
  simpl in Hname.
  destruct Hname as [Hn | [Hn | [Hn | [Hn | []]]]]; rewrite <- Hn; reflexivity.
Qed.

(** C5, as the code has it: a malformed input makes the converter fail with
    the parse failure and no HTML, and [formatXml] answers the input
    unchanged when the input holds a character that is not white space; an
    input of white space only is answered with the empty string. *)
Theorem malformed_input (xmlString : string) :
  malformed xmlString ->
  convertXmlToHtml xmlString = Throw ParseError
  /\ formatXml xmlString
     = if isEmpty (trim xmlString) then EmptyString else xmlString.
Proof.
  unfold malformed. intros Hbad. split.
  - unfold convertXmlToHtml.
    destruct (docQuerySelector _ (parseFromString xmlString));
      [reflexivity | congruence].
  - unfold formatXml, truthy. rewrite negb_involutive.
    destruct (isEmpty (trim xmlString)); [reflexivity |].
    destruct (docQuerySelector _ (parseFromString xmlString));
      [reflexivity | congruence].
Qed.

End Conversion.

(** ** Attributes in the semantic renderer *)

Lemma forEach_filter_append {A : Type} (keep : A -> bool) (f : A -> string)
    (l : list A) (html : string) :
  fold_left (fun html x => if keep x then html ++ f x else html) l html
  = html ++ String.concat EmptyString (map f (filter keep l)).
Proof.
  revert html. induction l as [| x l IH]; intros html; simpl.
  - now rewrite append_nil_r.
  - rewrite IH. destruct (keep x); [| reflexivity].
    now rewrite map_cons, join_cons, append_assoc.
Qed.

Lemma hasAttribute_getAttribute (element : Element) (n : string) :
  hasAttribute element n = true <-> exists v, getAttribute element n = Some v.
Proof.
  unfold hasAttribute, getAttribute.
  induction (attributes element) as [| a l IH]; simpl.
  - split; [discriminate | intros [v Hv]; discriminate].
  - destruct (String.eqb (name a) n); simpl.
    + split; [intros _; now exists (value a) | reflexivity].
    + exact IH.
Qed.

Lemma hasAttribute_false (element : Element) (n : string) :
  hasAttribute element n = false <-> getAttribute element n = None.
Proof.
  unfold hasAttribute, getAttribute.
  induction (attributes element) as [| a l IH]; simpl; [tauto |].
  destruct (String.eqb (name a) n); simpl; [split; discriminate | exact IH].
Qed.

(** The start tag of the source is the mapped tag followed by the written
    attributes. *)
Lemma semanticStartTag_written (element : Element) :
  semanticStartTag element
  = "<" ++ htmlTagOf (toLowerCase (tagName element))
    ++ String.concat EmptyString (map writeAttribute (writtenAttributes element))
    ++ ">".
Proof.
  unfold semanticStartTag, writtenAttributes. cbv zeta.
  rewrite (forEach_filter_append isGeneric
             (fun attr => " data-" ++ name attr ++ "=" ++ dq ++ value attr ++ dq)).
  rewrite map_cons, join_cons, !map_app, !join_app.
  unfold dataAttributes. rewrite map_map.
  set (tag := htmlTagOf (toLowerCase (tagName element))).
  set (data := String.concat EmptyString (map _ (filter isGeneric _))).
  unfold anchorAttributes, imageAttributes. fold tag.
  destruct (String.eqb tag "a") eqn:Ha.
  - apply String.eqb_eq in Ha. rewrite Ha. simpl String.eqb. cbv iota.
    destruct (hasAttribute element "href") eqn:Hhref.
    + apply hasAttribute_getAttribute in Hhref as [h Hh]. rewrite Hh.
      unfold interpolate, writeAttribute. now string_normalize.
    + apply hasAttribute_false in Hhref. rewrite Hhref.
      unfold writeAttribute. now string_normalize.
  - simpl andb. cbv iota.
    destruct (String.eqb tag "img"); simpl andb; cbv iota.
    + destruct (hasAttribute element "src") eqn:Hsrc.
      * apply hasAttribute_getAttribute in Hsrc as [v Hv]. rewrite Hv.
        unfold interpolate, writeAttribute. now string_normalize.
      * apply hasAttribute_false in Hsrc. rewrite Hsrc.
        unfold writeAttribute. now string_normalize.
    + unfold writeAttribute. now string_normalize.
Qed.




(** *** Reading back what was written *)













(** ** The feed renderer *)

Lemma Forall_elementsOf_cons (P : Element -> Prop) (c : Element)
    (nodes : list Node) :
  Forall P (elementsOf (ElementNode c :: nodes)) ->
  P c /\ Forall P (elementsOf nodes).
Proof.
  change (elementsOf (ElementNode c :: nodes)) with (c :: elementsOf nodes).
  intros Hall. now inversion Hall.
Qed.

Lemma matchesSelector_types (names : list string) (parent : option Element)
    (c : Element) :
  matchesSelector (map TypeSel names) parent c = namedOneOf names c.
Proof.
  unfold matchesSelector, namedOneOf.
  induction names as [| t names IH]; [reflexivity |].
  simpl. now rewrite IH.
Qed.

(** A selector that lists type selectors only finds the elements below
    with one of these names, in document order. *)
Lemma querySelectorAll_types (names : list string) (e : Element) :
  querySelectorAll (map TypeSel names) e = elementsBelow (namedOneOf names) e.
Proof.
  unfold querySelectorAll.
  induction e as [p l attrs nodes IH] using Element_induction.
  unfold descendants; fold descendants.
  unfold elementsBelow; fold elementsBelow.
  generalize (Some (mkElement p l attrs nodes)). intros parent.
  induction nodes as [| n nodes IHnodes]; [reflexivity |].
  destruct n as [c | d | d].
  - apply Forall_elementsOf_cons in IH as [IHc IHrest].
    change (flat_map ?f (?x :: ?t)) with (f x ++ flat_map f t)%list.
    cbv beta iota.
    rewrite filter_app, map_app, (IHnodes IHrest). f_equal.
    rewrite <- IHc.
    change (filter ?f (?x :: ?t))
      with (if f x then x :: filter f t else filter f t).
    cbv beta. change (snd (parent, c)) with c.
    rewrite matchesSelector_types. now destruct (namedOneOf names c).
  - exact (IHnodes IH).
  - exact (IHnodes IH).
Qed.

Lemma querySelectorAll_type (n : string) (e : Element) :
  querySelectorAll [TypeSel n] e = elementsBelow (named n) e.
Proof. exact (querySelectorAll_types [n] e). Qed.

Lemma querySelectorAll_items (e : Element) :
  querySelectorAll [TypeSel "item"; TypeSel "entry"] e = sourceItems e.
Proof. exact (querySelectorAll_types ["item"; "entry"] e). Qed.

Lemma length_pos_nonempty {A : Type} (l : list A) :
  (0 <? length l)%nat = match l with [] => false | _ => true end.
Proof. now destruct l. Qed.

(** The feed renderer writes the heading, then one block per item of the
    source, in document order. *)
Lemma convertFeedToHtml_items (root : Element) :
  convertFeedToHtml root
  = feedHeading root
    ++ feedItemsSection (map feedItemHtml (sourceItems root))
    ++ "</div>".
Proof.
  unfold convertFeedToHtml. cbv zeta.
  rewrite querySelectorAll_items, length_pos_nonempty.
  rewrite (forEach_append feedItemHtml).
  unfold feedHeading, firstText.
  generalize
    (orDefault
       (option_map textContent
          (querySelector [TypeSel "title"; ChildSel "channel" "title"] root))
       "XML Feed").
  intros title.
  destruct (option_map textContent (querySelector _ root)) as [d |].
  - unfold truthy. destruct (isEmpty d); simpl negb; cbv iota;
      destruct (sourceItems root); simpl feedItemsSection;
      now string_normalize.
  - destruct (sourceItems root); simpl feedItemsSection;
      now string_normalize.
Qed.

(** ** The table renderer *)

Lemma noMarkup_below (keep : Element -> bool) (e d : Element) :
  noMarkup (textContent e) = true ->
  In d (elementsBelow keep e) ->
  noMarkup (textContent d) = true.
Proof.
  revert d. induction e as [p l attrs nodes IH] using Element_induction.
  intros d. unfold textContent; fold textContent.
  unfold elementsBelow; fold elementsBelow.
  induction nodes as [| n nodes IHnodes]; [contradiction |].
  rewrite map_cons, join_cons, noMarkup_app.
  intros Hclean. apply andb_true_iff in Hclean as [Hn Hrest].
  destruct n as [c | t | t].
  - apply Forall_elementsOf_cons in IH as [IHc IHtail].
    change (flat_map ?f (?x :: ?t)) with (f x ++ flat_map f t)%list.
    cbv beta iota. rewrite !in_app_iff.
    intros [[Hhere | Hbelow] | Hlater].
    + destruct (keep c); [| contradiction].
      destruct Hhere as [<- | []]. exact Hn.
    + now apply IHc.
    + now apply IHnodes.
  - now apply IHnodes.
  - now apply IHnodes.
Qed.

(** The table renderer writes its opening, the two sections and its
    closing. *)
Lemma convertTableXmlToHtml_sections (tableElement : Element) :
  convertTableXmlToHtml tableElement
  = tableXmlOpen ++ theadSection tableElement ++ tbodySection tableElement
    ++ "</table></div></div>".
Proof.
  unfold convertTableXmlToHtml, theadSection, tbodySection, querySelector.
  cbv zeta.
  rewrite !querySelectorAll_type.
  rewrite length_pos_nonempty.
  assert (Hrows : forall (rows : list Element) (html : string),
    fold_left
      (fun html row =>
         fold_left
           (fun html cell =>
              html ++ "<td>" ++ orElse (textContent cell) EmptyString
                   ++ "</td>")
           (querySelectorAll [TypeSel "cell"] row) (html ++ "<tr>")
         ++ "</tr>") rows html
    = html ++ String.concat EmptyString (map bodyRow rows)).
  { induction rows as [| row rows IHrows]; intros html.
    - simpl. now rewrite append_nil_r.
    - simpl fold_left. rewrite IHrows, map_cons, join_cons.
      rewrite (forEach_append
                 (fun cell => "<td>" ++ orElse (textContent cell) EmptyString
                              ++ "</td>")).
      rewrite querySelectorAll_type.
      rewrite (map_ext _ bodyCell)
        by (intros cell; unfold bodyCell; now rewrite orElse_empty).
      unfold bodyRow. now rewrite !append_assoc. }
  assert (Hcols : forall (header : Element) (html : string),
    fold_left
      (fun html col =>
         html ++ "<th>" ++ orElse (textContent col) EmptyString ++ "</th>")
      (querySelectorAll [TypeSel "column"] header) html
    = html ++ String.concat EmptyString
                (map headerCell (elementsBelow (named "column") header))).
  { intros header html.
    rewrite (forEach_append
               (fun col => "<th>" ++ orElse (textContent col) EmptyString
                           ++ "</th>")).
    rewrite querySelectorAll_type.
    now rewrite (map_ext _ headerCell)
      by (intros col; unfold headerCell; now rewrite orElse_empty). }
  destruct (elementsBelow (named "header") tableElement) as [| header hs];
    destruct (elementsBelow (named "row") tableElement) as [| row rows];
    cbv [hd_error]; cbv iota;
    rewrite ?Hcols, ?Hrows, ?append_assoc, ?append_nil_r;
    try reflexivity.
Qed.

Lemma contributes_eq (p a : string) (n m : nat) :
  contributes p a n -> n = m -> contributes p a m.
Proof. now intros Ha <-. Qed.

(** A literal piece, with its count computed. *)
Ltac literal_piece :=
  eapply contributes_eq;
  [ apply contributes_literal; [discriminate | vm_compute; reflexivity]
  | vm_compute; reflexivity ].

(** The pieces of a concatenation, left to right. *)
Ltac split_pieces := repeat (eapply contributes_app; [| try split_pieces]).

Lemma contributes_headerCell (q : string) (col : Element) :
  noOverlap (String "<" q) "<th>" = true ->
  noOverlap (String "<" q) "</th>" = true ->
  occurrences (String "<" q) "<th>" = 0 ->
  occurrences (String "<" q) "</th>" = 0 ->
  noMarkup (textContent col) = true ->
  contributes (String "<" q) (headerCell col) 0.
Proof.
  intros Ho1 Ho2 Hc1 Hc2 Hclean. unfold headerCell.
  apply (contributes_eq _ _ (0 + (0 + 0))); [| reflexivity].
  apply contributes_app; [| apply contributes_app].
  - rewrite <- Hc1. now apply contributes_literal.
  - now apply contributes_text.
  - rewrite <- Hc2. now apply contributes_literal.
Qed.

Lemma contributes_bodyCell (q : string) (cell : Element) :
  noOverlap (String "<" q) "<td>" = true ->
  noOverlap (String "<" q) "</td>" = true ->
  occurrences (String "<" q) "<td>" = 0 ->
  occurrences (String "<" q) "</td>" = 0 ->
  noMarkup (textContent cell) = true ->
  contributes (String "<" q) (bodyCell cell) 0.
Proof.
  intros Ho1 Ho2 Hc1 Hc2 Hclean. unfold bodyCell.
  apply (contributes_eq _ _ (0 + (0 + 0))); [| reflexivity].
  apply contributes_app; [| apply contributes_app].
  - rewrite <- Hc1. now apply contributes_literal.
  - now apply contributes_text.
  - rewrite <- Hc2. now apply contributes_literal.
Qed.

Lemma contributes_bodyRow (q : string) (row : Element) :
  (forall lit, In lit ["<tr>"; "<td>"; "</td>"; "</tr>"] ->
     noOverlap (String "<" q) lit = true
     /\ occurrences (String "<" q) lit = 0) ->
  noMarkup (textContent row) = true ->
  contributes (String "<" q) (bodyRow row) 0.
Proof.
  intros Hlit Hclean. unfold bodyRow.
  apply (contributes_eq _ _
           (0 + (0 * length (elementsBelow (named "cell") row) + 0)));
    [| lia].
  apply contributes_app; [| apply contributes_app].
  - destruct (Hlit "<tr>") as [Ho Hc]; [simpl; auto |].
    rewrite <- Hc. now apply contributes_literal.
  - apply contributes_concat. intros cell Hin.
    apply contributes_bodyCell;
      try (apply Hlit; simpl; now auto).
    now apply (noMarkup_below (named "cell") row).
  - destruct (Hlit "</tr>") as [Ho Hc]; [simpl; auto 6 |].
    rewrite <- Hc. now apply contributes_literal.
Qed.

(** Occurrences of a tag in the output of the table renderer, for a tag
    that the literal pieces neither contain nor overlap: the two opening
    tags of the sections bring what they hold, texts without [<] bring
    nothing. *)
Lemma occurrences_table (q : string) (tableElement : Element) (h b : nat) :
  (forall lit, In lit tableLiterals ->
     noOverlap (String "<" q) lit = true
     /\ occurrences (String "<" q) lit = 0) ->
  noOverlap (String "<" q) "<thead><tr>" = true ->
  occurrences (String "<" q) "<thead><tr>" = h ->
  noOverlap (String "<" q) "<tbody>" = true ->
  occurrences (String "<" q) "<tbody>" = b ->
  noMarkup (textContent tableElement) = true ->
  occurrences (String "<" q) (convertTableXmlToHtml tableElement)
  = match elementsBelow (named "header") tableElement with
    | [] => 0
    | _ => h
    end
    + match elementsBelow (named "row") tableElement with
      | [] => 0
      | _ => b
      end.
Proof.
  intros Hlit Hoh Hh Hob Hb Hclean.
  set (p := String "<" q) in *.
  assert (Hpiece : forall lit, In lit tableLiterals -> contributes p lit 0).
  { intros lit Hin. destruct (Hlit lit Hin) as [Ho Hc].
    rewrite <- Hc. apply contributes_literal; [discriminate | exact Ho]. }
  assert (Hzero : forall lit, In lit ["<tr>"; "<td>"; "</td>"; "</tr>"] ->
            noOverlap p lit = true /\ occurrences p lit = 0).
  { intros lit Hin. apply Hlit. unfold tableLiterals.
    simpl in Hin |- *. tauto. }
  rewrite convertTableXmlToHtml_sections.
  apply contributes_total; [discriminate |].
  eapply contributes_eq.
  - apply contributes_app; [apply Hpiece; simpl; now auto |].
    apply contributes_app; [| apply contributes_app;
                              [| apply Hpiece; simpl; now auto 6]].
    + (* the header section *)
      unfold theadSection.
      instantiate (1 := match elementsBelow (named "header") tableElement
                        with [] => 0 | _ => h end).
      destruct (elementsBelow (named "header") tableElement)
        as [| header hs] eqn:Hheader; [apply contributes_nil |].
      apply (contributes_eq _ _
               (h + (0 * length (elementsBelow (named "column") header) + 0)));
        [| lia].
      apply contributes_app; [| apply contributes_app].
      * rewrite <- Hh. apply contributes_literal; [discriminate | exact Hoh].
      * apply contributes_concat. intros col Hcol.
        apply contributes_headerCell;
          try (apply Hlit; unfold tableLiterals; simpl; now auto 8).
        apply (noMarkup_below (named "column") header); [| exact Hcol].
        apply (noMarkup_below (named "header") tableElement);
          [exact Hclean |].
        rewrite Hheader. now left.
      * apply Hpiece. simpl. now auto.
    + (* the body section *)
      unfold tbodySection.
      instantiate (1 := match elementsBelow (named "row") tableElement
                        with [] => 0 | _ => b end).
      destruct (elementsBelow (named "row") tableElement)
        as [| row rows] eqn:Hrows; [apply contributes_nil |].
      apply (contributes_eq _ _ (b + (0 * length (row :: rows) + 0)));
        [| lia].
      apply contributes_app; [| apply contributes_app].
      * rewrite <- Hb. apply contributes_literal; [discriminate | exact Hob].
      * apply contributes_concat. intros r Hr.
        apply contributes_bodyRow; [exact Hzero |].
        apply (noMarkup_below (named "row") tableElement);
          [exact Hclean |].
        now rewrite Hrows.
      * apply Hpiece. simpl. now auto.
  - lia.
Qed.

(** ** Counting the rendered feed items *)

Lemma noMarkup_descendants (e : Element) (pc : option Element * Element) :
  noMarkup (textContent e) = true ->
  In pc (descendants e) ->
  noMarkup (textContent (snd pc)) = true.
Proof.
  revert pc. induction e as [p l attrs nodes IH] using Element_induction.
  intros pc. unfold textContent; fold textContent.
  unfold descendants; fold descendants.
  generalize (Some (mkElement p l attrs nodes)). intros parent.
  induction nodes as [| n nodes IHnodes]; [contradiction |].
  rewrite map_cons, join_cons, noMarkup_app.
  intros Hclean. apply andb_true_iff in Hclean as [Hn Hrest].
  destruct n as [c | t | t].
  - apply Forall_elementsOf_cons in IH as [IHc IHtail].
    change (flat_map ?f (?x :: ?t)) with (f x ++ flat_map f t)%list.
    cbv beta iota. rewrite in_app_iff.
    intros [[<- | Hbelow] | Hlater].
    + exact Hn.
    + now apply IHc.
    + now apply IHnodes.
  - now apply IHnodes.
  - now apply IHnodes.
Qed.

Lemma querySelector_clean (sel : Selector) (e d : Element) :
  noMarkup (textContent e) = true ->
  querySelector sel e = Some d ->
  noMarkup (textContent d) = true.
Proof.
  intros Hclean. unfold querySelector, querySelectorAll.
  destruct (filter _ (descendants e)) as [| pc rest] eqn:Hfilter;
    [discriminate |].
  simpl. intros [= <-].
  apply (noMarkup_descendants e pc Hclean).
  assert (Hin : In pc (filter (fun pc => matchesSelector sel (fst pc) (snd pc))
                              (descendants e)))
    by (rewrite Hfilter; now left).
  now apply filter_In in Hin.
Qed.










(** ** The generic table *)

Lemma setAdd_fold_tags (cells : list Element) (set : list string) :
  fold_left (fun set cell => setAdd set (tagName cell)) cells set
  = fold_left setAdd (map tagName cells) set.
Proof.
  revert set. induction cells as [| c cells IH]; intros set;
    [reflexivity | apply IH].
Qed.

Lemma setAdd_fold_rows (rows : list Element) (set : list string) :
  fold_left
    (fun set row =>
       fold_left (fun set cell => setAdd set (tagName cell))
                 (children row) set) rows set
  = fold_left setAdd (flat_map childTagNames rows) set.
Proof.
  revert set. induction rows as [| row rows IH]; intros set; [reflexivity |].
  simpl. rewrite fold_left_app, IH. f_equal. apply setAdd_fold_tags.
Qed.

Lemma filter_filter {A : Type} (f g : A -> bool) (l : list A) :
  filter f (filter g l) = filter (fun x => g x && f x) l.
Proof.
  induction l as [| x l IH]; [reflexivity |].
  simpl. destruct (g x); simpl; [destruct (f x) |]; now rewrite IH.
Qed.

Lemma includes_app (a b : list string) (x : string) :
  includes (a ++ b)%list x = includes a x || includes b x.
Proof. unfold includes. apply existsb_app. Qed.

(** Adding the strings of a list to a set one by one appends the strings
    not yet in the set, in first-seen order. *)
Lemma setAdd_fold_firstSeen (l set : list string) :
  fold_left setAdd l set
  = (set ++ filter (fun y => negb (includes set y)) (firstSeen l))%list.
Proof.
  revert set. induction l as [| x l IH]; intros set.
  - simpl. now rewrite app_nil_r.
  - simpl fold_left. rewrite IH. unfold setAdd.
    change (firstSeen (x :: l))
      with (x :: filter (fun y => negb (String.eqb y x)) (firstSeen l)).
    simpl filter. rewrite filter_filter.
    destruct (includes set x) eqn:Hx; simpl negb; cbv iota.
    + f_equal. apply filter_ext_in. intros y _.
      destruct (String.eqb_spec y x) as [-> | Hneq]; simpl.
      * now rewrite Hx.
      * reflexivity.
    + rewrite <- app_assoc. simpl. do 2 f_equal.
      apply filter_ext. intros y. rewrite includes_app.
      unfold includes at 2. simpl. rewrite orb_false_r, negb_orb.
      now rewrite andb_comm.
Qed.

Lemma allColumnNames_columnUnion (rows : list Element) :
  fold_left
    (fun set row =>
       fold_left (fun set cell => setAdd set (tagName cell))
                 (children row) set) rows []
  = columnUnion rows.
Proof.
  rewrite setAdd_fold_rows, setAdd_fold_firstSeen. simpl.
  unfold columnUnion. induction (firstSeen _) as [| x l IH];
    [reflexivity | simpl; now rewrite IH].
Qed.

Lemma firstSeen_In (l : list string) (x : string) :
  In x (firstSeen l) <-> In x l.
Proof.
  induction l as [| y l IH]; [reflexivity |].
  change (firstSeen (y :: l))
    with (y :: filter (fun z => negb (String.eqb z y)) (firstSeen l)).
  simpl. rewrite filter_In, IH, negb_true_iff, String.eqb_neq.
  destruct (string_dec y x) as [-> | Hneq]; [tauto |].
  split; [tauto |]. intros [Heq | Hin]; [tauto |].
  right. split; [assumption | congruence].
Qed.

Lemma firstSeen_NoDup (l : list string) : NoDup (firstSeen l).
Proof.
  induction l as [| y l IH]; [constructor |].
  change (firstSeen (y :: l))
    with (y :: filter (fun z => negb (String.eqb z y)) (firstSeen l)).
  constructor.
  - rewrite filter_In, negb_true_iff, String.eqb_neq. tauto.
  - now apply NoDup_filter.
Qed.

(** A loop whose body succeeds and appends, for the values it meets. *)
Lemma forEachM_append {A : Type} (f : string -> A -> Result string)
    (g : A -> string) (l : list A) (html : string) :
  (forall x html, In x l -> f html x = Ok (html ++ g x)) ->
  forEachM f l html = Ok (html ++ String.concat EmptyString (map g l)).
Proof.
  revert html. induction l as [| x l IH]; intros html Hbody.
  - simpl. now rewrite append_nil_r.
  - simpl forEachM. rewrite Hbody by now left. simpl bind.
    rewrite IH by (intros y h Hy; apply Hbody; now right).
    now rewrite map_cons, join_cons, append_assoc.
Qed.

(** ** The renderers on well-formed input *)

Section Renderers.

Context `{Platform}.

(** C2, as the code has it: on a well-formed input with a [table] root the
    output is the opening, the header section, the body section and the
    closing.  The header section is absent when no [header] element occurs
    anywhere below the root, and the body section is absent, not empty,
    when no [row] element occurs below the root; when the text of the
    document holds no [<], the output has one [<thead>] or none, and one
    [<tbody>] or none, accordingly. *)
Theorem table_sections (xmlString : string) :
  wellFormed xmlString ->
  let root := documentElement (parseFromString xmlString) in
  toLowerCase (tagName root) = "table" ->
  exists html,
    convertXmlToHtml xmlString = Ok html
    /\ html = tableXmlOpen ++ theadSection root ++ tbodySection root
              ++ "</table></div></div>"
    /\ (elementsBelow (named "header") root = [] ->
        theadSection root = EmptyString)
    /\ (elementsBelow (named "row") root = [] ->
        tbodySection root = EmptyString)
    /\ (noMarkup (textContent root) = true ->
        occurrences "<thead>" html
        = match elementsBelow (named "header") root with
          | [] => 0
          | _ => 1
          end
        /\ occurrences "<tbody>" html
           = match elementsBelow (named "row") root with
             | [] => 0
             | _ => 1
             end).
Proof.
  intros Hwf root Htable.
  exists (convertTableXmlToHtml root).
  split; [| split; [| split; [| split]]].
  - rewrite convertXmlToHtml_wellFormed by assumption. cbv zeta. fold root.
    now rewrite Htable.
  - apply convertTableXmlToHtml_sections.
  - unfold theadSection. now intros ->.
  - unfold tbodySection. now intros ->.
  - intros Hclean. split.
    + rewrite (occurrences_table "thead>" root 1 0); try assumption;
        try (vm_compute; reflexivity).
      * destruct (elementsBelow (named "header") root),
          (elementsBelow (named "row") root); reflexivity.
      * intros lit Hin. unfold tableLiterals in Hin. simpl in Hin.
        repeat (destruct Hin as [<- | Hin];
                [split; vm_compute; reflexivity |]).
        contradiction.
    + rewrite (occurrences_table "tbody>" root 0 1); try assumption;
        try (vm_compute; reflexivity).
      * destruct (elementsBelow (named "header") root),
          (elementsBelow (named "row") root); reflexivity.
      * intros lit Hin. unfold tableLiterals in Hin. simpl in Hin.
        repeat (destruct Hin as [<- | Hin];
                [split; vm_compute; reflexivity |]).
        contradiction.
Qed.


(** A column name that is read as a type selector finds the first element
    of that name inside the row. *)
Lemma cellContent_cellText (row : Element) (col : string) :
  parseSelector col = Ok [TypeSel col] ->
  cellContent row col = Ok (cellText row col).
Proof.
  intros Hsel. unfold cellContent, querySelectorByString.
  rewrite Hsel. cbv [bind Ok]. f_equal.
  unfold querySelector, cellText. rewrite querySelectorAll_type.
  destruct (elementsBelow (named col) row); simpl; [reflexivity |].
  apply orElse_empty.
Qed.

(** C3, as the code has it: for column names that the selector parser
    reads as type selectors, the generic table has the union of the child
    tag names of all rows as its header, each name once and in first-seen
    order, and one cell per row and column; the cell shows the text of the
    first element of that name anywhere inside the row, and is empty when
    the row has no such element at any depth. *)
Theorem convertToHtmlTable_columns (element : Element) :
  children element <> [] ->
  let rows := children element in
  let columns := columnUnion rows in
  (forall col, In col columns -> parseSelector col = Ok [TypeSel col]) ->
  convertToHtmlTable element = Ok (genericTable columns rows)
  /\ (forall n,
        In n columns <-> exists row, In row rows /\ In n (childTagNames row))
  /\ NoDup columns
  /\ (forall row col,
        In row rows -> In col columns ->
        elementsBelow (named col) row = [] ->
        cellContent row col = Ok EmptyString
        /\ tableCell row col = "<td></td>").
Proof.
  intros Hrows rows columns Hselectors.
  split; [| split; [| split]].
  - unfold convertToHtmlTable.
    assert (Hlen : (length (children element) =? 0)%nat = false)
      by (destruct (children element); [contradiction | reflexivity]).
    rewrite Hlen. cbv zeta. fold rows.
    rewrite allColumnNames_columnUnion. fold columns.
    rewrite (forEach_append (fun colName => "<th>" ++ colName ++ "</th>")).
    rewrite (forEachM_append _ (tableRow columns)).
    + cbv [bind]. unfold genericTable, tableHeader, Ok. do 2 f_equal.
      now rewrite !append_assoc.
    + intros r html _.
      rewrite (forEachM_append _ (tableCell r)).
      * cbv [bind]. unfold tableRow, Ok. now rewrite !append_assoc.
      * intros col h Hcol.
        now rewrite (cellContent_cellText r col (Hselectors col Hcol)).
  - intros n. unfold columns, columnUnion. rewrite firstSeen_In, in_flat_map.
    reflexivity.
  - apply firstSeen_NoDup.
  - intros row col _ Hcol Hnone.
    rewrite (cellContent_cellText row col (Hselectors col Hcol)).
    unfold tableCell, cellText. now rewrite Hnone.
Qed.

End Renderers.

(** ** The statements on the sample platform *)

Example tableExample_rendered :
  @convertXmlToHtml Sample.platform tableExample
  = Ok (tableXmlOpen
        ++ "<thead><tr><th>Name</th><th>Age</th></tr></thead>"
        ++ "<tbody><tr><td>Ada</td><td>36</td></tr></tbody>"
        ++ "</table></div></div>").
Proof. now vm_compute. Qed.

Example feedExample_rendered :
  @convertXmlToHtml Sample.platform feedExample
  = Ok (feedOpen ++ "News</h1>" ++ itemsOpen
        ++ feedItemTemplate "http://a" "First" EmptyString
        ++ feedItemTemplate "#" "Untitled" "Second"
        ++ "</div></div>").
Proof. now vm_compute. Qed.

Example malformed_rejected :
  @convertXmlToHtml Sample.platform "<a><b></a>" = Throw ParseError.
Proof. now vm_compute. Qed.

Example anchor_start_tag :
  semanticStartTag
    (mkElement None "link"
       [mkAttr "href" "http://a"; mkAttr "id" "l1"; mkAttr "src" "s"] [])
  = "<a class=" ++ dq ++ "xml-link" ++ dq ++ " href=" ++ dq ++ "http://a" ++ dq
    ++ " data-id=" ++ dq ++ "l1" ++ dq ++ ">".
Proof. now vm_compute. Qed.



Example quoted_value_start_tag :
  semanticStartTag quotedValueElement
  = "<a class=" ++ dq ++ "xml-link" ++ dq ++ " href=" ++ dq ++ "a" ++ dq
    ++ " data-x=" ++ dq ++ dq ++ " href=" ++ dq ++ "b" ++ dq ++ ">"
  /\ quoteFree quotedValueElement = false
  /\ ~ In ("data-x", dq ++ " href=" ++ dq ++ "b")
          [("class", "xml-link"); ("href", "a");
           ("data-x", EmptyString); ("href", "b")].
Proof.
  split; [now vm_compute |]. split; [reflexivity |].
  intros [Hin | [Hin | [Hin | [Hin | []]]]]; discriminate Hin.
Qed.

Lemma convertXmlToHtml_dispatch_witness :
  @wellFormed Sample.platform "<rows><r><a>1</a><b>2</b></r></rows>"
  /\ @convertXmlToHtml Sample.platform "<rows><r><a>1</a><b>2</b></r></rows>"
     = @convertToHtmlTable Sample.platform
         (documentElement
            (Sample.parse "<rows><r><a>1</a><b>2</b></r></rows>")).
Proof.
  split; [reflexivity |].
  apply (@convertXmlToHtml_dispatch Sample.platform
           "<rows><r><a>1</a><b>2</b></r></rows>").
  reflexivity.
Defined.

Lemma convertXmlToHtml_listExample_witness :
  @parseFromString Sample.platform listExample = listDocument
  /\ @convertXmlToHtml Sample.platform listExample
     = Ok (semanticTemplate listHtml).
Proof.
  split; [reflexivity |].
  apply (@convertXmlToHtml_listExample Sample.platform). reflexivity.
Defined.

Lemma convertXmlToHtml_empty_tabular_root_witness :
  In (toLowerCase
        (tagName (documentElement (@parseFromString Sample.platform "<Grid/>"))))
     ["grid"; "dataset"; "records"; "rows"]
  /\ @convertXmlToHtml Sample.platform "<Grid/>" = Ok EmptyString.
Proof.
  assert (Hname :
    In (toLowerCase
          (tagName
             (documentElement (@parseFromString Sample.platform "<Grid/>"))))
       ["grid"; "dataset"; "records"; "rows"]) by (vm_compute; auto).
  split; [exact Hname |].
  apply (@convertXmlToHtml_empty_tabular_root Sample.platform "<Grid/>" Hname).
  vm_compute. reflexivity.
Defined.

Lemma malformed_input_witness :
  @malformed Sample.platform "<a><b></a>"
  /\ @convertXmlToHtml Sample.platform "<a><b></a>" = Throw ParseError
  /\ @formatXml Sample.platform "<a><b></a>" = "<a><b></a>".
Proof.
  split; [discriminate |].
  apply (@malformed_input Sample.platform "<a><b></a>"). discriminate.
Defined.

(** C5 as stated fails on a blank input: a single space is not well-formed
    (it has no root element), and [formatXml] answers it with the empty
    string, before any parsing, instead of the space. *)
Lemma formatXml_blank_counterexample :
  ~ (forall (P : Platform) (xmlString : string),
       malformed xmlString ->
       convertXmlToHtml xmlString = Throw ParseError
       /\ formatXml xmlString = xmlString).
Proof.
  intros Hclaim.
  destruct (Hclaim Sample.platform " ") as [_ Hformat]; [discriminate |].
  discriminate Hformat.
Qed.

Lemma table_sections_witness :
  let root :=
    documentElement (@parseFromString Sample.platform bareTableExample) in
  @wellFormed Sample.platform bareTableExample
  /\ elementsBelow (named "header") root = []
  /\ elementsBelow (named "row") root = []
  /\ (exists html,
        @convertXmlToHtml Sample.platform bareTableExample = Ok html
        /\ theadSection root = EmptyString
        /\ tbodySection root = EmptyString
        /\ occurrences "<thead>" html = 0
        /\ occurrences "<tbody>" html = 0).
Proof.
  intros root.
  assert (Hwf : @wellFormed Sample.platform bareTableExample)
    by (vm_compute; reflexivity).
  assert (Hheader : elementsBelow (named "header") root = [])
    by (vm_compute; reflexivity).
  assert (Hrow : elementsBelow (named "row") root = [])
    by (vm_compute; reflexivity).
  split; [exact Hwf |]. split; [exact Hheader |]. split; [exact Hrow |].
  destruct (@table_sections Sample.platform bareTableExample Hwf)
    as (html & Hconv & _ & Hthead & Htbody & Hcount);
    [vm_compute; reflexivity |].
  fold root in Hthead, Htbody, Hcount.
  exists html. split; [exact Hconv |].
  split; [exact (Hthead Hheader) |]. split; [exact (Htbody Hrow) |].
  destruct Hcount as [Hnohead Hnobody]; [vm_compute; reflexivity |].
  rewrite Hnohead, Hnobody, Hheader, Hrow. split; reflexivity.
Defined.

(** C2 as stated fails on a table whose root has neither a [header] child
    nor a [row] child: the output has no [<tbody>] at all, let alone an
    empty one. *)
Lemma table_without_rows_counterexample :
  ~ (forall (P : Platform) (xmlString html : string),
       wellFormed xmlString ->
       let root := documentElement (parseFromString xmlString) in
       toLowerCase (tagName root) = "table" ->
       convertXmlToHtml xmlString = Ok html ->
       (Forall (fun c => localName c <> "header") (children root) ->
        contains "<thead>" html = false)
       /\ (Forall (fun c => localName c <> "row") (children root) ->
           contains "<tbody" html = true)).
Proof.
  intros Hclaim.
  set (html := convertTableXmlToHtml
                 (documentElement (Sample.parse nestedHeaderExample))).
  destruct (Hclaim Sample.platform nestedHeaderExample html) as [_ Hbody].
  - vm_compute. reflexivity.
  - vm_compute. reflexivity.
  - vm_compute. reflexivity.
  - assert (Hnone : contains "<tbody" html = true).
    { apply Hbody. vm_compute. repeat constructor. discriminate. }
    vm_compute in Hnone. discriminate Hnone.
Qed.

(** On the same input the first half fails too: the root has no [header]
    child, yet the [header] further down is rendered. *)
Example nested_header_rendered :
  let root := documentElement (Sample.parse nestedHeaderExample) in
  Forall (fun c => localName c <> "header") (children root)
  /\ contains "<thead>" (convertTableXmlToHtml root) = true.
Proof.
  split; [vm_compute; repeat constructor; discriminate | now vm_compute].
Qed.



Example strayErrorFeedExample_parsed :
  Sample.parse strayErrorFeedExample = mkDocument strayErrorFeedRoot
  /\ length (sourceItems strayErrorFeedRoot) = 1
  /\ @convertXmlToHtml Sample.platform strayErrorFeedExample
     = Throw ParseError.
Proof. repeat split; now vm_compute. Qed.

(** Text is written as it is, so the count in the output needs a text
    without [<]: an item whose summary is the opening tag of a feed item
    is counted twice. *)
Example markup_summary_counted_twice :
  length (sourceItems markupSummaryFeedRoot) = 1
  /\ occurrences feedItemMarker (convertFeedToHtml markupSummaryFeedRoot)
     = 2.
Proof. split; now vm_compute. Qed.

Example nestedColumnExample_parsed :
  Sample.parse nestedColumnExample = mkDocument nestedColumnRoot.
Proof. now vm_compute. Qed.

Lemma convertToHtmlTable_columns_witness :
  children nestedColumnRoot <> []
  /\ columnUnion (children nestedColumnRoot) = ["X"; "Y"; "Z"]
  /\ @convertToHtmlTable Sample.platform nestedColumnRoot
     = Ok (genericTable (columnUnion (children nestedColumnRoot))
                        (children nestedColumnRoot)).
Proof.
  assert (Hrows : children nestedColumnRoot <> []) by discriminate.
  split; [exact Hrows |]. split; [reflexivity |].
  apply (@convertToHtmlTable_columns Sample.platform nestedColumnRoot Hrows).
  intros col Hcol.
  destruct Hcol as [<- | [<- | [<- | []]]]; reflexivity.
Defined.

(** C3 as stated fails on a row that lacks a column among its children but
    holds an element of that name deeper down: the second row of the
    example has the child fields X and Z only, and its Y cell shows the
    text of the Y inside X. *)
Lemma nested_column_counterexample :
  ~ (forall (P : Platform) (element row : Element) (col : string),
       In row (children element) ->
       In col (columnUnion (children element)) ->
       ~ In col (childTagNames row) ->
       cellContent row col = Ok EmptyString).
Proof.
  intros Hclaim.
  specialize (Hclaim Sample.platform nestedColumnRoot nestedColumnRowB "Y").
  assert (Hcell : @cellContent Sample.platform nestedColumnRowB "Y"
                  = Ok EmptyString).
  { apply Hclaim.
    - vm_compute. auto.
    - vm_compute. auto.
    - vm_compute. intros [Hx | [Hz | []]]; discriminate. }
  vm_compute in Hcell. discriminate Hcell.
Qed.

Example nested_column_rendered :
  @convertXmlToHtml Sample.platform nestedColumnExample
  = Ok (htmlTableTemplate
          (htmlTableOpen
           ++ "<thead><tr><th>X</th><th>Y</th><th>Z</th></tr></thead>"
           ++ "<tbody><tr><td>1</td><td>2</td><td></td></tr>"
           ++ "<tr><td>deep</td><td>deep</td><td>3</td></tr>"
           ++ "</tbody></table></div>")).
Proof. now vm_compute. Qed.

(** * Further properties *)

(** ** Failures of the generic table and of the converter *)

Section Failures.

Context `{Platform}.

Lemma cellContent_parsed (row : Element) (col : string) :
  cellContent row col
  = match parseSelector col with
    | inl e => Throw e
    | inr _ => Ok (parsedCellText row col)
    end.
Proof.
  unfold cellContent, querySelectorByString, parsedCellText, bind, Ok, Throw.
  destruct (parseSelector col) as [e | sel]; [reflexivity |].
  destruct (querySelector sel row); [| reflexivity].
  now rewrite orElse_empty.
Qed.

(** The cells of one row: the exception of the first rejected column, or
    all cells. *)
Lemma row_cells (columns : list string) (row : Element) (html : string) :
  forEachM
    (fun html colName =>
       cellContent <- cellContent row colName ;;
       Ok (html ++ "<td>" ++ cellContent ++ "</td>"))
    columns html
  = match firstRejected columns with
    | Some e => Throw e
    | None =>
        Ok (html
            ++ String.concat EmptyString
                 (map (fun col => "<td>" ++ parsedCellText row col ++ "</td>")
                      columns))
    end.
Proof.
  revert html. induction columns as [| col columns IH]; intros html.
  - simpl. now rewrite append_nil_r.
  - simpl forEachM. simpl firstRejected. rewrite cellContent_parsed.
    destruct (parseSelector col) as [e | sel]; [reflexivity |].
    unfold bind at 1, Ok at 1. unfold bind at 1, Ok at 1.
    rewrite IH. destruct (firstRejected columns); [reflexivity |].
    rewrite map_cons, join_cons. unfold Ok. f_equal. now string_normalize.
Qed.

Lemma table_rows (columns : list string) (rows : list Element)
    (html : string) :
  forEachM
    (fun html row =>
       let html := html ++ "<tr>" in
       html <-
         forEachM
           (fun html colName =>
              cellContent <- cellContent row colName ;;
              Ok (html ++ "<td>" ++ cellContent ++ "</td>"))
           columns html ;;
       Ok (html ++ "</tr>"))
    rows html
  = match rows, firstRejected columns with
    | _ :: _, Some e => Throw e
    | _, _ =>
        Ok (html ++ String.concat EmptyString (map (parsedRow columns) rows))
    end.
Proof.
  revert html. induction rows as [| row rows IH]; intros html.
  - simpl. now rewrite append_nil_r.
  - simpl forEachM. cbv zeta. rewrite row_cells.
    destruct (firstRejected columns) as [e |] eqn:Hrej; [reflexivity |].
    unfold bind at 1, Ok at 1. unfold bind at 1, Ok at 1.
    rewrite IH, ?Hrej.
    rewrite map_cons, join_cons. unfold parsedRow at 2, Ok.
    destruct rows; f_equal; now string_normalize.
Qed.

(** The generic table: the exception of the first rejected column, or the
    whole table. *)
Lemma convertToHtmlTable_rows (element : Element) :
  children element <> [] ->
  let rows := children element in
  let columns := columnUnion rows in
  convertToHtmlTable element
  = match firstRejected columns with
    | Some e => Throw e
    | None => Ok (parsedTable columns rows)
    end.
Proof.
  intros Hrows rows columns. unfold convertToHtmlTable.
  assert (Hlen : (length (children element) =? 0)%nat = false)
    by (destruct (children element); [contradiction | reflexivity]).
  rewrite Hlen. cbv zeta. fold rows.
  rewrite allColumnNames_columnUnion. fold columns.
  rewrite (forEach_append (fun colName => "<th>" ++ colName ++ "</th>")).
  rewrite table_rows.
  destruct rows as [| row rest] eqn:Hlist; [contradiction |].
  rewrite <- Hlist.
  destruct (firstRejected columns) as [e |]; [reflexivity |].
  unfold bind, Ok, parsedTable, tableHeader. do 2 f_equal.
  now rewrite !append_assoc.
Qed.

(** X1: the generic table is all or nothing.  For an element with child
    elements, [convertToHtmlTable] throws the exception of the first column
    name (in header order) that the selector parser rejects, and no HTML;
    when the parser accepts every column name it returns the whole table,
    with one cell per row and column. *)
Theorem convertToHtmlTable_all_or_nothing (element : Element) :
  children element <> [] ->
  let rows := children element in
  let columns := columnUnion rows in
  convertToHtmlTable element
  = match firstRejected columns with
    | Some e => Throw e
    | None => Ok (parsedTable columns rows)
    end.
Proof. exact (convertToHtmlTable_rows element). Qed.

Lemma classify_chain (root : Element) :
  classify root
  = let t := toLowerCase (tagName root) in
    if String.eqb t "table" then Table
    else if String.eqb t "rss" || String.eqb t "feed" || String.eqb t "channel"
    then Feed
    else if String.eqb t "svg" then SvgPassthrough
    else if isTabularData root then TabularGeneric
    else SemanticGeneric.
Proof.
  unfold classify, decisionOrder, find, fst, snd, rootTagIs. cbv zeta.
  rewrite !includes_one, includes_three.
  destruct (String.eqb (toLowerCase (tagName root)) "table"); [reflexivity |].
  destruct (String.eqb (toLowerCase (tagName root)) "rss"
            || String.eqb (toLowerCase (tagName root)) "feed"
            || String.eqb (toLowerCase (tagName root)) "channel");
    [reflexivity |].
  destruct (String.eqb (toLowerCase (tagName root)) "svg"); [reflexivity |].
  now destruct (isTabularData root).
Qed.

(** X2: the converter fails in two cases only.  It throws the parse
    failure exactly on an input with a [parsererror] element, and on an
    input without one it throws exactly when the root takes the generic
    table path, has child elements, and the selector parser rejects one of
    the column names; the exception is then that of the first rejected
    column.  The table, feed, SVG and semantic paths never fail. *)
Theorem convertXmlToHtml_fails_only (xmlString : string) (e : Exn) :
  let root := documentElement (parseFromString xmlString) in
  convertXmlToHtml xmlString = Throw e
  <-> (malformed xmlString /\ e = ParseError)
      \/ (wellFormed xmlString
          /\ classify root = TabularGeneric
          /\ children root <> []
          /\ firstRejected (columnUnion (children root)) = Some e).
Proof.
  intros root. unfold malformed, wellFormed.
  destruct (docQuerySelector [TypeSel "parsererror"]
              (parseFromString xmlString)) as [found |] eqn:Hquery.
  - assert (Hthrow : convertXmlToHtml xmlString = Throw ParseError)
      by (unfold convertXmlToHtml; now rewrite Hquery).
    rewrite Hthrow. split.
    + intros [= <-]. left. split; [discriminate | reflexivity].
    + intros [[_ ->] | [Hnone _]]; [reflexivity | discriminate].
  - rewrite (convertXmlToHtml_wellFormed xmlString Hquery). cbv zeta.
    fold root. rewrite classify_chain. cbv zeta.
    destruct (String.eqb (toLowerCase (tagName root)) "table").
    { split; [discriminate |].
      intros [[Hbad _] | [_ [Hshape _]]]; [congruence | discriminate]. }
    destruct (String.eqb (toLowerCase (tagName root)) "rss"
              || String.eqb (toLowerCase (tagName root)) "feed"
              || String.eqb (toLowerCase (tagName root)) "channel").
    { split; [discriminate |].
      intros [[Hbad _] | [_ [Hshape _]]]; [congruence | discriminate]. }
    destruct (String.eqb (toLowerCase (tagName root)) "svg").
    { split; [discriminate |].
      intros [[Hbad _] | [_ [Hshape _]]]; [congruence | discriminate]. }
    destruct (isTabularData root).
    + destruct (children root) as [| row rows] eqn:Hrows.
      * assert (Hempty : convertToHtmlTable root = Ok EmptyString)
          by (unfold convertToHtmlTable; now rewrite Hrows).
        rewrite Hempty. split; [discriminate |].
        intros [[Hbad _] | [_ [_ [Hnot _]]]]; [congruence | congruence].
      * assert (Hsome : children root <> []) by (rewrite Hrows; discriminate).
        rewrite (convertToHtmlTable_rows root Hsome). cbv zeta.
        rewrite Hrows.
        destruct (firstRejected (columnUnion (row :: rows))) as [e' |].
        -- split.
           ++ intros [= <-]. right. repeat split; congruence.
           ++ intros [[Hbad _] | [_ [_ [_ [= ->]]]]];
                [congruence | reflexivity].
        -- split; [discriminate |].
           intros [[Hbad _] | [_ [_ [_ Hrej]]]]; [congruence | discriminate].
    + split; [discriminate |].
      intros [[Hbad _] | [_ [Hshape _]]]; [congruence | discriminate].
Qed.

End Failures.

(** ** The shape of the two tables *)

Lemma contributes_concat_sum {A : Type} (p : string) (f : A -> string)
    (k : A -> nat) (l : list A) :
  (forall x, In x l -> contributes p (f x) (k x)) ->
  contributes p (String.concat EmptyString (map f l)) (list_sum (map k l)).
Proof.
  induction l as [| x l IH]; intros Heach; [apply contributes_nil |].
  rewrite !map_cons, join_cons. simpl list_sum.
  apply contributes_app.
  - apply Heach. now left.
  - apply IH. intros y Hy. apply Heach. now right.
Qed.

Lemma contributes_piece (q lit : string) (pieces : list string) :
  (forall lit, In lit pieces -> noOverlap (String "<" q) lit = true) ->
  In lit pieces ->
  contributes (String "<" q) lit (occurrences (String "<" q) lit).
Proof.
  intros Hall Hin. apply contributes_literal; [discriminate | now apply Hall].
Qed.

Lemma noMarkup_child (e c : Element) :
  noMarkup (textContent e) = true ->
  In c (children e) ->
  noMarkup (textContent c) = true.
Proof.
  destruct e as [p l attrs nodes]. unfold children, childNodes.
  unfold textContent; fold textContent.
  induction nodes as [| n nodes IH]; [contradiction |].
  rewrite map_cons, join_cons, noMarkup_app.
  intros Hclean. apply andb_true_iff in Hclean as [Hn Hrest].
  destruct n as [c' | t | t].
  - change (elementsOf (ElementNode c' :: nodes))
      with (c' :: elementsOf nodes).
    intros [<- | Hin]; [exact Hn | now apply IH].
  - now apply IH.
  - now apply IH.
Qed.

(** The occurrences of a tag in the output of the table renderer, for a
    tag that no literal piece overlaps and a document whose text holds no
    [<]. *)
Lemma occurrences_tableCount (q : string) (tableElement : Element) :
  (forall lit, In lit tablePieces -> noOverlap (String "<" q) lit = true) ->
  noMarkup (textContent tableElement) = true ->
  occurrences (String "<" q) (convertTableXmlToHtml tableElement)
  = tableCount (occurrences (String "<" q)) tableElement.
Proof.
  intros Hall Hclean. set (p := String "<" q) in *.
  assert (Hlit : forall lit, In lit tablePieces ->
            contributes p lit (occurrences p lit))
    by (intros lit Hin; now apply (contributes_piece q lit tablePieces)).
  rewrite convertTableXmlToHtml_sections.
  apply contributes_total; [discriminate |].
  unfold tableCount. rewrite <- !Nat.add_assoc.
  apply contributes_app; [apply Hlit; vm_compute; tauto |].
  apply contributes_app; [| apply contributes_app;
                            [| apply Hlit; vm_compute; tauto]].
  - unfold theadSection.
    destruct (elementsBelow (named "header") tableElement)
      as [| header hs] eqn:Hheader; [apply contributes_nil |].
    rewrite <- !Nat.add_assoc.
    apply contributes_app; [apply Hlit; vm_compute; tauto |].
    apply contributes_app; [| apply Hlit; vm_compute; tauto].
    apply contributes_concat. intros col Hcol. unfold headerCell.
    apply (contributes_eq _ _
             (occurrences p "<th>" + (0 + occurrences p "</th>"))); [| lia].
    apply contributes_app; [apply Hlit; vm_compute; tauto |].
    apply contributes_app; [| apply Hlit; vm_compute; tauto].
    apply contributes_text.
    apply (noMarkup_below (named "column") header); [| exact Hcol].
    apply (noMarkup_below (named "header") tableElement); [exact Hclean |].
    rewrite Hheader. now left.
  - unfold tbodySection.
    destruct (elementsBelow (named "row") tableElement)
      as [| row rows] eqn:Hrows; [apply contributes_nil |].
    rewrite <- Hrows in *. rewrite <- !Nat.add_assoc.
    apply contributes_app; [apply Hlit; vm_compute; tauto |].
    apply contributes_app; [| apply Hlit; vm_compute; tauto].
    apply contributes_concat_sum. intros r Hr. unfold bodyRow.
    rewrite <- !Nat.add_assoc.
    apply contributes_app; [apply Hlit; vm_compute; tauto |].
    apply contributes_app; [| apply Hlit; vm_compute; tauto].
    apply contributes_concat. intros cell Hcell. unfold bodyCell.
    apply (contributes_eq _ _
             (occurrences p "<td>" + (0 + occurrences p "</td>"))); [| lia].
    apply contributes_app; [apply Hlit; vm_compute; tauto |].
    apply contributes_app; [| apply Hlit; vm_compute; tauto].
    apply contributes_text.
    apply (noMarkup_below (named "cell") r); [| exact Hcell].
    now apply (noMarkup_below (named "row") tableElement).
Qed.

(** Computes the number of occurrences of a tag in each literal piece. *)
Ltac count_literals :=
  repeat match goal with
         | |- context [occurrences ?a ?b] =>
             let v := eval vm_compute in (occurrences a b) in
             progress change (occurrences a b) with v
         end.

(** No literal piece of the list overlaps the tag. *)
Ltac check_pieces :=
  let lit := fresh "lit" in
  let Hin := fresh "Hin" in
  intros lit Hin; vm_compute in Hin;
  repeat (destruct Hin as [<- | Hin]; [vm_compute; reflexivity |]);
  contradiction.

Lemma list_sum_ext {A : Type} (f g : A -> nat) (l : list A) :
  (forall x, f x = g x) -> list_sum (map f l) = list_sum (map g l).
Proof. intros Hfg. f_equal. now apply map_ext. Qed.

Lemma list_sum_const {A : Type} (k : nat) (l : list A) :
  list_sum (map (fun _ => k) l) = k * length l.
Proof. induction l as [| x l IH]; simpl; [lia | rewrite IH; lia]. Qed.

(** X3: the table renderer aligns by position.  For a table whose text
    holds no [<], the output has one [<table], one [<th>] per [column] of
    the first [header], one [<td>] per [cell] of every [row], and one
    [<tr>] per [row] plus one for the header row when there is a
    [header]. *)
Theorem table_shape (tableElement : Element) :
  noMarkup (textContent tableElement) = true ->
  let html := convertTableXmlToHtml tableElement in
  let headers := elementsBelow (named "header") tableElement in
  let rows := elementsBelow (named "row") tableElement in
  occurrences "<table" html = 1
  /\ occurrences "<th>" html
     = match headers with
       | header :: _ => length (elementsBelow (named "column") header)
       | [] => 0
       end
  /\ occurrences "<tr>" html
     = match headers with [] => 0 | _ => 1 end + length rows
  /\ occurrences "<td>" html
     = list_sum
         (map (fun row => length (elementsBelow (named "cell") row)) rows).
Proof.
  intros Hclean html headers rows. subst html headers rows.
  split; [| split; [| split]].
  - rewrite (occurrences_tableCount "table"); [| check_pieces | exact Hclean].
    unfold tableCount. count_literals.
    destruct (elementsBelow (named "header") tableElement);
      destruct (elementsBelow (named "row") tableElement) as [| row rows];
      try rewrite (list_sum_ext _ (fun _ => 0)) by (intros; lia);
      rewrite ?list_sum_const; lia.
  - rewrite (occurrences_tableCount "th>"); [| check_pieces | exact Hclean].
    unfold tableCount. count_literals.
    destruct (elementsBelow (named "header") tableElement);
      destruct (elementsBelow (named "row") tableElement) as [| row rows];
      try rewrite (list_sum_ext _ (fun _ => 0)) by (intros; lia);
      rewrite ?list_sum_const; lia.
  - rewrite (occurrences_tableCount "tr>"); [| check_pieces | exact Hclean].
    unfold tableCount. count_literals.
    destruct (elementsBelow (named "header") tableElement);
      destruct (elementsBelow (named "row") tableElement) as [| row rows];
      try rewrite (list_sum_ext _ (fun _ => 1)) by (intros; lia);
      rewrite ?list_sum_const; simpl length; lia.
  - rewrite (occurrences_tableCount "td>"); [| check_pieces | exact Hclean].
    unfold tableCount. count_literals.
    destruct (elementsBelow (named "header") tableElement);
      destruct (elementsBelow (named "row") tableElement) as [| row rows];
      try rewrite (list_sum_ext
                     (fun row =>
                        0 + (1 + 0)
                            * length (elementsBelow (named "cell") row) + 0)
                     (fun row => length (elementsBelow (named "cell") row)))
        by (intros; lia);
      simpl; lia.
Qed.

Lemma htmlTableTemplate_pieces (html : string) :
  htmlTableTemplate html = genericPre ++ html ++ genericPost.
Proof. reflexivity. Qed.

Section GenericShape.

Context `{Platform}.

Lemma parsedCellText_clean (row : Element) (col : string) :
  noMarkup (textContent row) = true ->
  noMarkup (parsedCellText row col) = true.
Proof.
  intros Hclean. unfold parsedCellText.
  destruct (parseSelector col) as [e | sel]; [reflexivity |].
  destruct (querySelector sel row) as [cell |] eqn:Hq; [| reflexivity].
  exact (querySelector_clean sel row cell Hclean Hq).
Qed.

(** The occurrences of a tag in a generic table, for a tag that no literal
    piece overlaps, column names without [<] and rows whose text holds no
    [<]. *)
Lemma occurrences_genericCount (q : string) (columns : list string)
    (rows : list Element) :
  (forall lit, In lit genericPieces -> noOverlap (String "<" q) lit = true) ->
  forallb noMarkup columns = true ->
  (forall row, In row rows -> noMarkup (textContent row) = true) ->
  let n := occurrences (String "<" q) in
  occurrences (String "<" q) (parsedTable columns rows)
  = n genericPre + n htmlTableOpen + n "<thead><tr>"
    + (n "<th>" + n "</th>") * length columns + n "</tr></thead>"
    + n "<tbody>"
    + (n "<tr>" + (n "<td>" + n "</td>") * length columns + n "</tr>")
      * length rows
    + n "</tbody></table></div>" + n genericPost.
Proof.
  intros Hall Hnames Hrows n. subst n. set (p := String "<" q) in *.
  assert (Hlit : forall lit, In lit genericPieces ->
            contributes p lit (occurrences p lit))
    by (intros lit Hin; now apply (contributes_piece q lit genericPieces)).
  unfold parsedTable. rewrite htmlTableTemplate_pieces.
  apply contributes_total; [discriminate |].
  rewrite <- !Nat.add_assoc.
  apply contributes_app; [apply Hlit; vm_compute; tauto |].
  rewrite !append_assoc.
  apply contributes_app; [apply Hlit; vm_compute; tauto |].
  unfold tableHeader. rewrite !append_assoc.
  apply contributes_app; [apply Hlit; vm_compute; tauto |].
  apply contributes_app.
  { apply contributes_concat. intros col Hcol.
    apply (contributes_eq _ _
             (occurrences p "<th>" + (0 + occurrences p "</th>"))); [| lia].
    apply contributes_app; [apply Hlit; vm_compute; tauto |].
    apply contributes_app; [| apply Hlit; vm_compute; tauto].
    apply contributes_text.
    rewrite forallb_forall in Hnames. now apply Hnames. }
  apply contributes_app; [apply Hlit; vm_compute; tauto |].
  apply contributes_app; [apply Hlit; vm_compute; tauto |].
  apply contributes_app.
  { apply contributes_concat. intros row Hrow. unfold parsedRow.
    apply contributes_app; [apply Hlit; vm_compute; tauto |].
    apply contributes_app; [| apply Hlit; vm_compute; tauto].
    apply contributes_concat. intros col Hcol.
    apply (contributes_eq _ _
             (occurrences p "<td>" + (0 + occurrences p "</td>"))); [| lia].
    apply contributes_app; [apply Hlit; vm_compute; tauto |].
    apply contributes_app; [| apply Hlit; vm_compute; tauto].
    apply contributes_text, parsedCellText_clean. now apply Hrows. }
  apply contributes_app; [apply Hlit; vm_compute; tauto |].
  apply Hlit; vm_compute; tauto.
Qed.

(** X4: the generic table is rectangular.  When the selector parser
    accepts every column name, and neither the column names nor the text
    of the document hold a [<], the output has one [<th>] per column, one
    [<tr>] per row plus the header row, and as many [<td>] as rows times
    columns: every row has a cell in every column, empty or not. *)
Theorem generic_table_shape (element : Element) :
  children element <> [] ->
  let rows := children element in
  let columns := columnUnion rows in
  firstRejected columns = None ->
  forallb noMarkup columns = true ->
  noMarkup (textContent element) = true ->
  exists html,
    convertToHtmlTable element = Ok html
    /\ occurrences "<th>" html = length columns
    /\ occurrences "<tr>" html = S (length rows)
    /\ occurrences "<td>" html = length rows * length columns.
Proof.
  intros Hsome rows columns Hparse Hnames Hclean.
  exists (parsedTable columns rows).
  assert (Hrows : forall row, In row rows -> noMarkup (textContent row) = true)
    by (intros row Hrow; exact (noMarkup_child element row Hclean Hrow)).
  split; [| split; [| split]].
  - rewrite (convertToHtmlTable_rows element Hsome). cbv zeta.
    fold rows. fold columns. now rewrite Hparse.
  - rewrite (occurrences_genericCount "th>");
      [| check_pieces | exact Hnames | exact Hrows].
    cbv zeta. count_literals. lia.
  - rewrite (occurrences_genericCount "tr>");
      [| check_pieces | exact Hnames | exact Hrows].
    cbv zeta. count_literals. lia.
  - rewrite (occurrences_genericCount "td>");
      [| check_pieces | exact Hnames | exact Hrows].
    cbv zeta. count_literals. lia.
Qed.

End GenericShape.

(** ** The semantic renderer on a whole tree *)

Lemma elementsOf_drop (nodes : list Node) :
  elementsOf
    (flat_map (fun n => match n with
                        | ElementNode c => [ElementNode (dropMixedText c)]
                        | _ => []
                        end) nodes)
  = map dropMixedText (elementsOf nodes).
Proof.
  unfold elementsOf.
  induction nodes as [| n nodes IH]; [reflexivity |].
  destruct n as [c | d | d]; simpl; [| exact IH | exact IH].
  f_equal. exact IH.
Qed.

Lemma existsb_elementNode (nodes : list Node) :
  existsb isElementNode nodes = negb (length (elementsOf nodes) =? 0)%nat.
Proof.
  induction nodes as [| n nodes IH]; [reflexivity |].
  destruct n as [c | d | d]; simpl; [reflexivity | exact IH | exact IH].
Qed.

Lemma renderNode_dropMixedText (e : Element) :
  renderNode (dropMixedText e) = renderNode e.
Proof.
  induction e as [p l attrs nodes IH] using Element_induction.
  unfold dropMixedText; fold dropMixedText.
  rewrite existsb_elementNode.
  destruct (length (elementsOf nodes) =? 0)%nat eqn:Hleaf; [reflexivity |].
  simpl negb. cbv iota.
  rewrite !renderNode_eq.
  unfold childElementCount, children, childNodes.
  rewrite elementsOf_drop, length_map, Hleaf.
  change (semanticStartTag (mkElement p l attrs ?n))
    with (semanticStartTag (mkElement p l attrs nodes)).
  change (tagName (mkElement p l attrs ?n))
    with (tagName (mkElement p l attrs nodes)).
  rewrite map_map.
  rewrite (map_ext_in (fun c => renderNode (dropMixedText c)) renderNode);
    [reflexivity |].
  intros c Hc. rewrite Forall_forall in IH. now apply IH.
Qed.

(** X5: text that stands beside child elements never reaches the output.
    The semantic rendering of a document equals that of the document from
    which the text and comment nodes of every element with child elements
    are removed. *)
Theorem mixed_text_dropped (root : Element) :
  convertToSemanticHtml (mkDocument root) root
  = convertToSemanticHtml (mkDocument (dropMixedText root))
                          (dropMixedText root).
Proof.
  pose proof (convertToSemanticHtml_root (mkDocument root)) as Hroot.
  pose proof (convertToSemanticHtml_root (mkDocument (dropMixedText root)))
    as Hdropped.
  change (documentElement (mkDocument ?r)) with r in Hroot, Hdropped.
  now rewrite Hroot, Hdropped, renderNode_dropMixedText.
Qed.

(** *** Counting the rendered elements *)

Lemma lowerChar_lt (c : ascii) :
  Ascii.eqb (lowerChar c) "<" = Ascii.eqb c "<".
Proof. destruct c as [[] [] [] [] [] [] [] []]; reflexivity. Qed.

Lemma noMarkup_toLowerCase (s : string) :
  noMarkup (toLowerCase s) = noMarkup s.
Proof.
  induction s as [| c s IH]; [reflexivity |].
  simpl. now rewrite lowerChar_lt, IH.
Qed.

Lemma noMarkup_concat (l : list string) :
  Forall (fun s => noMarkup s = true) l ->
  noMarkup (String.concat EmptyString l) = true.
Proof.
  induction 1 as [| s l Hs Hl IH]; [reflexivity |].
  now rewrite join_cons, noMarkup_app, Hs, IH.
Qed.

Lemma ownProperty_range (key t : string) :
  ownProperty key = Some t -> In t (map snd tagMapping).
Proof.
  unfold ownProperty.
  destruct (find (fun kv => String.eqb (fst kv) key) tagMapping)
    as [kv |] eqn:Hfind; [| discriminate].
  intros [= <-]. apply find_some in Hfind as [Hin _]. now apply in_map.
Qed.

(** [htmlTagOf] answers with one of the tags of [htmlTags]. *)
Lemma htmlTagOf_range (t : string) : In (htmlTagOf t) htmlTags.
Proof.
  unfold htmlTagOf.
  destruct (ownProperty t) as [tag |] eqn:Hown.
  - apply ownProperty_range in Hown. vm_compute in Hown.
    repeat (destruct Hown as [<- | Hown]; [vm_compute; tauto |]).
    contradiction.
  - unfold inheritedProperty.
    destruct (String.eqb t "constructor"); [vm_compute; tauto |].
    destruct (String.eqb t "__proto__"); vm_compute; tauto.
Qed.

Lemma semanticStartTag_split (element : Element) :
  semanticStartTag element
  = startLiteral (htmlTagOf (toLowerCase (tagName element)))
    ++ startTail element.
Proof.
  rewrite semanticStartTag_written.
  unfold writtenAttributes, startLiteral, startTail.
  rewrite map_cons, join_cons. unfold writeAttribute at 1.
  now string_normalize.
Qed.

Lemma cleanElement_tagName (e : Element) :
  cleanElement e = true -> noMarkup (tagName e) = true.
Proof.
  destruct e as [[p |] l attrs nodes]; unfold cleanElement, tagName;
    rewrite !andb_true_iff; intros [[[Hp Hl] _] _]; simpl.
  - rewrite noMarkup_app, Hp. simpl. exact Hl.
  - exact Hl.
Qed.

Lemma cleanElement_attributes (e : Element) :
  cleanElement e = true -> forallb cleanAttr (attributes e) = true.
Proof.
  destruct e as [p l attrs nodes]; unfold cleanElement, attributes.
  rewrite !andb_true_iff. now intros [[_ Hattrs] _].
Qed.

Lemma cleanElement_child (e c : Element) :
  cleanElement e = true -> In c (children e) -> cleanElement c = true.
Proof.
  destruct e as [p l attrs nodes]. simpl cleanElement.
  rewrite !andb_true_iff. intros [_ Hnodes] Hin.
  unfold children, childNodes, elementsOf in Hin.
  apply in_flat_map in Hin as [n [Hn Hc]].
  rewrite forallb_forall in Hnodes. specialize (Hnodes n Hn).
  destruct n as [c' | d | d]; try contradiction.
  destruct Hc as [<- | []]. exact Hnodes.
Qed.

Lemma cleanElement_text (e : Element) :
  cleanElement e = true -> noMarkup (textContent e) = true.
Proof.
  induction e as [p l attrs nodes IH] using Element_induction.
  simpl cleanElement. rewrite !andb_true_iff. intros [_ Hnodes].
  unfold textContent; fold textContent.
  apply noMarkup_concat. apply Forall_forall. intros s Hs.
  apply in_map_iff in Hs as [n [<- Hn]].
  rewrite forallb_forall in Hnodes. specialize (Hnodes n Hn).
  destruct n as [c | d | d]; [| exact Hnodes | reflexivity].
  rewrite Forall_forall in IH. apply IH; [| exact Hnodes].
  unfold elementsOf. apply in_flat_map. exists (ElementNode c).
  split; [exact Hn | now left].
Qed.

Lemma getAttribute_clean (e : Element) (n v : string) :
  forallb cleanAttr (attributes e) = true ->
  getAttribute e n = Some v -> noMarkup v = true.
Proof.
  intros Hattrs. unfold getAttribute.
  destruct (find (fun a => String.eqb (name a) n) (attributes e))
    as [a |] eqn:Hfind; [| discriminate].
  intros [= <-]. apply find_some in Hfind as [Hin _].
  rewrite forallb_forall in Hattrs. specialize (Hattrs a Hin).
  unfold cleanAttr in Hattrs. now apply andb_true_iff in Hattrs.
Qed.

Lemma writeAttribute_clean (a : string * string) :
  noMarkup (fst a) = true -> noMarkup (snd a) = true ->
  noMarkup (writeAttribute a) = true.
Proof.
  intros Hname Hvalue. unfold writeAttribute.
  now rewrite !noMarkup_app, Hname, Hvalue.
Qed.

(** In a start tag of a clean tree the only [<] is the first character. *)
Lemma startTail_clean (e : Element) :
  cleanElement e = true -> noMarkup (startTail e) = true.
Proof.
  intros Hclean. pose proof (cleanElement_attributes e Hclean) as Hattrs.
  unfold startTail.
  rewrite !noMarkup_app, noMarkup_toLowerCase, (cleanElement_tagName e Hclean).
  rewrite andb_true_r. simpl andb.
  apply noMarkup_concat. apply Forall_forall. intros s Hs.
  apply in_map_iff in Hs as [a [<- Ha]].
  rewrite !in_app_iff in Ha. destruct Ha as [Ha | [Ha | Ha]].
  - unfold anchorAttributes in Ha.
    destruct (String.eqb _ "a"); [| contradiction].
    destruct (getAttribute e "href") as [h |] eqn:Hh; [| contradiction].
    destruct Ha as [<- | []]. apply writeAttribute_clean; [reflexivity |].
    exact (getAttribute_clean e "href" h Hattrs Hh).
  - unfold imageAttributes in Ha.
    destruct (String.eqb _ "img"); [| contradiction].
    destruct (getAttribute e "src") as [v |] eqn:Hv; [| contradiction].
    destruct Ha as [<- | [<- | []]];
      (apply writeAttribute_clean; [reflexivity |]).
    + exact (getAttribute_clean e "src" v Hattrs Hv).
    + simpl snd. destruct (getAttribute e "alt") as [alt |] eqn:Halt;
        [| reflexivity].
      unfold orDefault, orElse. destruct (truthy alt); [| reflexivity].
      exact (getAttribute_clean e "alt" alt Hattrs Halt).
  - unfold dataAttributes in Ha. apply in_map_iff in Ha as [x [<- Hx]].
    apply filter_In in Hx as [Hx _].
    rewrite forallb_forall in Hattrs. specialize (Hattrs x Hx).
    unfold cleanAttr in Hattrs. apply andb_true_iff in Hattrs as [Hn Hv].
    apply writeAttribute_clean; [exact Hn | exact Hv].
Qed.

Lemma size_children (e : Element) :
  size e = S (list_sum (map size (children e))).
Proof.
  destruct e as [p l attrs nodes]. unfold children, childNodes.
  unfold size at 1; fold size. f_equal.
  induction nodes as [| n nodes IH]; [reflexivity |].
  destruct n as [c | d | d]; simpl; now rewrite IH.
Qed.

(** The occurrences of a tag in the rendering of a clean tree, for a tag
    that occurs [a] times in each start of a start tag and [b] times in
    each end tag, and that none of them overlaps. *)
Lemma renderNode_contributes (q : string) (a b : nat) :
  (forall tag, In tag htmlTags ->
     noOverlap (String "<" q) (startLiteral tag) = true
     /\ occurrences (String "<" q) (startLiteral tag) = a
     /\ noOverlap (String "<" q) (endTag tag) = true
     /\ occurrences (String "<" q) (endTag tag) = b) ->
  forall e, cleanElement e = true ->
  contributes (String "<" q) (renderNode e) ((a + b) * size e).
Proof.
  intros Htags. set (p := String "<" q) in *.
  induction e as [pre l attrs nodes IH] using Element_induction.
  intros Hclean. set (e := mkElement pre l attrs nodes) in *.
  rewrite renderNode_eq, semanticStartTag_split.
  destruct (Htags _ (htmlTagOf_range (toLowerCase (tagName e))))
    as (Hstart & Ha & Hend & Hb).
  set (tag := htmlTagOf (toLowerCase (tagName e))) in *.
  change ("</" ++ tag ++ ">") with (endTag tag).
  rewrite (size_children e).
  set (content := if (childElementCount e =? 0)%nat then _ else _).
  assert (Hcontent : contributes p content
                       ((a + b) * list_sum (map size (children e)))).
  { subst content. unfold childElementCount.
    destruct (children e) as [| c cs] eqn:Hchildren.
    - simpl Nat.eqb. cbv iota. rewrite Nat.mul_0_r.
      apply contributes_text. now apply cleanElement_text.
    - simpl Nat.eqb. cbv iota. rewrite <- Hchildren in *.
      apply (contributes_eq _ _
               (list_sum (map (fun c => (a + b) * size c) (children e)))).
      + apply contributes_concat_sum. intros x Hx.
        rewrite Forall_forall in IH. apply IH; [exact Hx |].
        exact (cleanElement_child e x Hclean Hx).
      + clear. induction (children e) as [| x xs IHx]; simpl; [lia |].
        rewrite IHx. lia. }
  apply (contributes_eq _ _
           ((a + 0) + ((a + b) * list_sum (map size (children e)) + b)));
    [| lia].
  apply contributes_app; [apply contributes_app |].
  - rewrite <- Ha. apply contributes_literal; [discriminate | exact Hstart].
  - apply contributes_text. now apply startTail_clean.
  - apply contributes_app; [exact Hcontent |].
    rewrite <- Hb. apply contributes_literal; [discriminate | exact Hend].
Qed.

Lemma semanticTemplate_pieces (html : string) :
  semanticTemplate html = semanticPre ++ html ++ semanticPost.
Proof. unfold semanticTemplate, semanticPre. now string_normalize. Qed.

Lemma occurrences_semantic (q : string) (a b : nat) (root : Element) :
  (forall tag, In tag htmlTags ->
     noOverlap (String "<" q) (startLiteral tag) = true
     /\ occurrences (String "<" q) (startLiteral tag) = a
     /\ noOverlap (String "<" q) (endTag tag) = true
     /\ occurrences (String "<" q) (endTag tag) = b) ->
  noOverlap (String "<" q) semanticPre = true ->
  noOverlap (String "<" q) semanticPost = true ->
  cleanElement root = true ->
  occurrences (String "<" q) (convertToSemanticHtml (mkDocument root) root)
  = occurrences (String "<" q) semanticPre
    + (a + b) * size root
    + occurrences (String "<" q) semanticPost.
Proof.
  intros Htags Hpre Hpost Hclean.
  pose proof (convertToSemanticHtml_root (mkDocument root)) as Hroot.
  change (documentElement (mkDocument root)) with root in Hroot.
  rewrite Hroot, semanticTemplate_pieces.
  apply contributes_total; [discriminate |].
  rewrite <- Nat.add_assoc.
  apply contributes_app;
    [apply contributes_literal; [discriminate | exact Hpre] |].
  apply contributes_app;
    [| apply contributes_literal; [discriminate | exact Hpost]].
  now apply renderNode_contributes.
Qed.

(** The start and the end of every tag of [htmlTags] hold the tag as
    often as stated and do not overlap it. *)
Ltac check_tags :=
  let tag := fresh "tag" in
  let Hin := fresh "Hin" in
  intros tag Hin; vm_compute in Hin;
  repeat (destruct Hin as [<- | Hin]; [vm_compute; tauto |]);
  contradiction.

(** X6: the semantic renderer writes one HTML element for each XML
    element.  For a tree whose names, attribute values and text hold no
    [<], the output for the document holds the styled container once, and
    beside the container and its style sheet one start tag and one end tag
    for each element of the tree: text beside child elements is dropped,
    elements never are. *)
Theorem semantic_element_count (root : Element) :
  cleanElement root = true ->
  let html := convertToSemanticHtml (mkDocument root) root in
  occurrences semanticContainer html = 1
  /\ occurrences "</" html = size root + 2
  /\ occurrences "<" html = 2 * (size root + 2).
Proof.
  intros Hclean html. subst html. split; [| split].
  - unfold semanticContainer. simpl append.
    rewrite (occurrences_semantic _ 0 0 root);
      [| check_tags | now vm_compute | now vm_compute | exact Hclean].
    count_literals. lia.
  - rewrite (occurrences_semantic "/" 0 1 root);
      [| check_tags | now vm_compute | now vm_compute | exact Hclean].
    count_literals. lia.
  - rewrite (occurrences_semantic EmptyString 1 1 root);
      [| check_tags | now vm_compute | now vm_compute | exact Hclean].
    count_literals. lia.
Qed.

(** *** Text is copied as it is *)

Lemma prefix_mono (p a b : string) :
  prefix p a = true -> prefix p (a ++ b) = true.
Proof.
  revert a. induction p as [| c p IH]; intros a Hpre.
  - destruct a; [destruct b |]; reflexivity.
  - destruct a as [| x a]; [discriminate Hpre |].
    simpl in Hpre |- *. destruct (ascii_dec c x); [now apply IH | assumption].
Qed.

Lemma occurrences_app_l (p a b : string) :
  occurrences p a <= occurrences p (a ++ b).
Proof.
  induction a as [| x a IH].
  - simpl. destruct p; simpl; [| lia].
    destruct b; simpl; lia.
  - change (String x a ++ b) with (String x (a ++ b)).
    change (occurrences p (String x a))
      with ((if prefix p (String x a) then 1 else 0) + occurrences p a).
    change (occurrences p (String x (a ++ b)))
      with ((if prefix p (String x a ++ b) then 1 else 0)
            + occurrences p (a ++ b)).
    destruct (prefix p (String x a)) eqn:Hpre.
    + rewrite (prefix_mono _ _ b Hpre). lia.
    + destruct (prefix p (String x a ++ b)); lia.
Qed.

Lemma occurrences_app_r (p a b : string) :
  occurrences p b <= occurrences p (a ++ b).
Proof.
  induction a as [| x a IH]; [simpl; lia |].
  change (String x a ++ b) with (String x (a ++ b)).
  change (occurrences p (String x (a ++ b)))
    with ((if prefix p (String x (a ++ b)) then 1 else 0)
          + occurrences p (a ++ b)).
  lia.
Qed.

Lemma contains_app_l (p a b : string) :
  contains p a = true -> contains p (a ++ b) = true.
Proof.
  unfold contains. rewrite !Nat.ltb_lt.
  pose proof (occurrences_app_l p a b). lia.
Qed.

Lemma contains_app_r (p a b : string) :
  contains p b = true -> contains p (a ++ b) = true.
Proof.
  unfold contains. rewrite !Nat.ltb_lt.
  pose proof (occurrences_app_r p a b). lia.
Qed.

Lemma contains_refl (p : string) : contains p p = true.
Proof.
  unfold contains. apply Nat.ltb_lt. destruct p as [| c p]; [simpl; lia |].
  change (occurrences (String c p) (String c p))
    with ((if prefix (String c p) (String c p) then 1 else 0)
          + occurrences (String c p) p).
  assert (Hself : forall s, prefix s s = true).
  { induction s as [| x s IH]; [reflexivity |].
    simpl. destruct (ascii_dec x x); [exact IH | congruence]. }
  rewrite Hself. lia.
Qed.

Lemma contains_concat (p s : string) (l : list string) :
  In s l -> contains p s = true ->
  contains p (String.concat EmptyString l) = true.
Proof.
  induction l as [| x l IH]; [contradiction |].
  intros [-> | Hin] Hs; rewrite join_cons.
  - now apply contains_app_l.
  - apply contains_app_r. now apply IH.
Qed.

Lemma treeElements_child (e x : Element) :
  In x (elementsBelow (fun _ => true) e) ->
  exists c, In c (children e) /\ In x (treeElements c).
Proof.
  destruct e as [p l attrs nodes]. unfold children, childNodes, elementsOf.
  unfold elementsBelow; fold elementsBelow.
  intros Hin. apply in_flat_map in Hin as [n [Hn Hx]].
  destruct n as [c | d | d]; try contradiction.
  exists c. split; [| exact Hx].
  apply in_flat_map. exists (ElementNode c). split; [exact Hn | now left].
Qed.

(** The rendering of a tree holds the text of each of its leaves. *)
Lemma renderNode_holds_text (root x : Element) :
  In x (treeElements root) ->
  childElementCount x = 0 ->
  contains (textContent x) (renderNode root) = true.
Proof.
  induction root as [p l attrs nodes IH] using Element_induction.
  set (root := mkElement p l attrs nodes) in *.
  intros Hin Hleaf. rewrite renderNode_eq.
  apply contains_app_r, contains_app_l.
  destruct Hin as [<- | Hbelow].
  - rewrite Hleaf. simpl Nat.eqb. cbv iota. apply contains_refl.
  - apply treeElements_child in Hbelow as [c [Hc Hx]].
    unfold childElementCount.
    destruct (children root) as [| c0 cs] eqn:Hchildren; [contradiction |].
    simpl Nat.eqb. cbv iota. rewrite <- Hchildren in *.
    apply (contains_concat _ (renderNode c)).
    + now apply in_map.
    + rewrite Forall_forall in IH. now apply IH.
Qed.

(** X17: the semantic renderer copies text without escaping it.  The
    text content of every element without child elements, the root or an
    element below it, stands in the output for the document as it is,
    whatever characters it holds: text that is markup is written as
    markup. *)
Theorem leaf_text_verbatim (root x : Element) :
  In x (treeElements root) ->
  childElementCount x = 0 ->
  contains (textContent x) (convertToSemanticHtml (mkDocument root) root)
  = true.
Proof.
  intros Hin Hleaf.
  pose proof (convertToSemanticHtml_root (mkDocument root)) as Hroot.
  change (documentElement (mkDocument root)) with root in Hroot.
  rewrite Hroot, semanticTemplate_pieces.
  apply contains_app_r, contains_app_l.
  now apply renderNode_holds_text.
Qed.

(** ** The heading of a feed *)

Lemma querySelectorAll_ext (sel1 sel2 : Selector) (e : Element) :
  (forall parent c,
     matchesSelector sel1 parent c = matchesSelector sel2 parent c) ->
  querySelectorAll sel1 e = querySelectorAll sel2 e.
Proof.
  intros Hsame. unfold querySelectorAll. f_equal.
  apply filter_ext. intros [parent c]. apply Hsame.
Qed.

(** [title, channel > title] finds what [title] finds. *)
Lemma querySelector_title (e : Element) :
  querySelector [TypeSel "title"; ChildSel "channel" "title"] e
  = hd_error (elementsBelow (named "title") e).
Proof.
  unfold querySelector.
  rewrite (querySelectorAll_ext _ [TypeSel "title"]).
  - now rewrite querySelectorAll_type.
  - intros parent c. unfold matchesSelector, existsb, matchesComplex.
    now destruct (String.eqb (localName c) "title").
Qed.

(** [description, channel > description, subtitle] finds what
    [description, subtitle] finds. *)
Lemma querySelector_description (e : Element) :
  querySelector [TypeSel "description"; ChildSel "channel" "description";
                 TypeSel "subtitle"] e
  = hd_error (elementsBelow (namedOneOf ["description"; "subtitle"]) e).
Proof.
  unfold querySelector.
  rewrite (querySelectorAll_ext _ (map TypeSel ["description"; "subtitle"])).
  - now rewrite querySelectorAll_types.
  - intros parent c. unfold matchesSelector, map, existsb, matchesComplex.
    now destruct (String.eqb (localName c) "description").
Qed.

Lemma convertFeedToHtml_heading (root : Element) :
  convertFeedToHtml root
  = feedOpen
    ++ orDefault
         (option_map textContent
            (hd_error (elementsBelow (named "title") root)))
         "XML Feed"
    ++ "</h1>"
    ++ match option_map textContent
               (hd_error
                  (elementsBelow (namedOneOf ["description"; "subtitle"])
                                 root)) with
       | Some d =>
           if isEmpty d then EmptyString else descriptionOpen ++ d ++ "</p>"
       | None => EmptyString
       end
    ++ feedItemsSection (map feedItemHtml (sourceItems root))
    ++ "</div>".
Proof.
  rewrite convertFeedToHtml_items. unfold feedHeading, firstText.
  rewrite querySelector_title, querySelector_description.
  now rewrite !append_assoc.
Qed.

(** X7: where the heading of a feed comes from.  The alternatives
    [channel > title] and [channel > description] of the two selectors
    add nothing: the title is the text of the first [title] element
    anywhere below the root, an item's own title when the feed has none,
    and the description the text of the first [description] or [subtitle]
    element anywhere below the root; an empty title gives the default
    [XML Feed], an empty description no paragraph. *)
Theorem feed_heading_first_below (root : Element) :
  convertFeedToHtml root
  = feedOpen
    ++ orDefault
         (option_map textContent
            (hd_error (elementsBelow (named "title") root)))
         "XML Feed"
    ++ "</h1>"
    ++ match option_map textContent
               (hd_error
                  (elementsBelow (namedOneOf ["description"; "subtitle"])
                                 root)) with
       | Some d =>
           if isEmpty d then EmptyString else descriptionOpen ++ d ++ "</p>"
       | None => EmptyString
       end
    ++ feedItemsSection (map feedItemHtml (sourceItems root))
    ++ "</div>".
Proof. exact (convertFeedToHtml_heading root). Qed.

(** X8: a feed without content.  When no [title], [description],
    [subtitle], [item] or [entry] element stands below the root, the feed
    renderer writes the default heading and nothing else. *)
Theorem feed_without_content (root : Element) :
  elementsBelow (named "title") root = [] ->
  elementsBelow (namedOneOf ["description"; "subtitle"]) root = [] ->
  sourceItems root = [] ->
  convertFeedToHtml root
  = "<div class=" ++ dq ++ "xml-feed" ++ dq ++ "><h1>XML Feed</h1></div>".
Proof.
  intros Htitle Hdescription Hitems.
  rewrite convertFeedToHtml_heading, Htitle, Hdescription, Hitems.
  reflexivity.
Qed.

(** ** The formatter of the input *)

Section FormatterKinds.

Context `{Platform}.

(** X16: the XML of the input is formatted as HTML.  [formatCode] does
    not look at the kind of code it is given: for an input that is not
    blank and passes the parser, [formatXml] answers what [formatHtml]
    answers for the serialized document when the formatter accepts it,
    and the input itself, not the serialized document, when the formatter
    fails. *)
Theorem formatXml_as_html (xmlString : string) :
  truthy (trim xmlString) = true ->
  wellFormed xmlString ->
  let serialized := serializeDocumentToString (parseFromString xmlString) in
  truthy (trim serialized) = true ->
  formatXml xmlString
  = match formatCode serialized html_ with
    | inr _ => formatHtml serialized
    | inl _ => xmlString
    end.
Proof.
  intros Hfull Hwf serialized Hserialized. unfold wellFormed in Hwf.
  unfold formatXml, formatHtml. rewrite Hfull, Hwf, Hserialized.
  cbn [negb]. fold serialized.
  change (formatCode serialized xml_) with (formatCode serialized html_).
  now destruct (formatCode serialized html_).
Qed.

End FormatterKinds.

(** ** The file uploader *)

Lemma substring_all (s : string) : substring 0 (String.length s) s = s.
Proof. induction s as [| c s IH]; simpl; [reflexivity | now rewrite IH]. Qed.

Lemma substring_skip (pre s : string) (m : nat) :
  substring (String.length pre) m (pre ++ s) = substring 0 m s.
Proof. induction pre as [| c pre IH]; [reflexivity | exact IH]. Qed.

Lemma substring_split (s : string) (k : nat) :
  k <= String.length s ->
  s = substring 0 k s ++ substring k (String.length s - k) s.
Proof.
  revert k. induction s as [| c s IH]; intros k Hk.
  - destruct k; reflexivity.
  - destruct k as [| k].
    + simpl. now rewrite substring_all.
    + simpl in Hk |- *. f_equal. apply IH. lia.
Qed.

Lemma length_append (a b : string) :
  String.length (a ++ b) = String.length a + String.length b.
Proof. induction a as [| c a IH]; simpl; [reflexivity | now rewrite IH]. Qed.

(** [endsWith] holds of the strings that end with the suffix. *)
Lemma endsWith_spec (s suffix : string) :
  endsWith s suffix = true <-> exists pre, s = pre ++ suffix.
Proof.
  unfold endsWith. cbv zeta. rewrite andb_true_iff, Nat.leb_le, String.eqb_eq.
  split.
  - intros [Hlen Hsub].
    exists (substring 0 (String.length s - String.length suffix) s).
    pose proof (substring_split s (String.length s - String.length suffix))
      as Hsplit.
    replace (String.length s - (String.length s - String.length suffix))
      with (String.length suffix) in Hsplit by lia.
    rewrite Hsub in Hsplit. apply Hsplit. lia.
  - intros [pre ->]. rewrite length_append. split; [lia |].
    replace (String.length pre + String.length suffix - String.length suffix)
      with (String.length pre) by lia.
    rewrite substring_skip. apply substring_all.
Qed.

(** ** The converter component *)

Section ComponentProperties.

Context `{Platform}.

Variable messageOf : string -> string.

Lemma formatXml_blank (xmlString : string) :
  truthy (trim xmlString) = false -> formatXml xmlString = EmptyString.
Proof. intros Hblank. unfold formatXml. now rewrite Hblank. Qed.

Lemma failureText_truthy (err : Exn) :
  Some (failureText messageOf err) <> Some EmptyString.
Proof. destruct err; discriminate. Qed.

Lemma inputEffect_consistent (s : ConverterState) :
  (htmlOutput s = EmptyString
   \/ (htmlOutput s = formatHtml (renderedHtml s)
       /\ exists xmlString,
            convertXmlToHtml xmlString = Ok (renderedHtml s))) ->
  error s <> Some EmptyString ->
  isConverting s = false ->
  consistent (inputEffect s).
Proof.
  intros Hout Herror Hidle. destruct s as [tab x out ren err conv fx].
  unfold consistent, inputEffect. simpl in *.
  destruct (truthy (trim x)) eqn:Hblank; simpl; rewrite ?Hblank.
  - repeat split; try assumption; try discriminate.
  - repeat split; try assumption.
    + symmetry. now apply formatXml_blank.
    + now left.
Qed.

Lemma mounted_consistent (stored : string) : consistent (mounted stored).
Proof.
  apply inputEffect_consistent; [now left | discriminate | reflexivity].
Qed.

(** Unfolds the handlers and the state setters. *)
Ltac component_unfold :=
  unfold handler, handleXmlInput, handleFileUpload, handleConvert,
    handleReset, setActiveTab, setXmlInput, setHtmlOutput, setRenderedHtml,
    setError, setIsConverting, setFormattedXml in *;
  cbn [activeTab xmlInput htmlOutput renderedHtml error isConverting
       formattedXml fst snd] in *.

(** No handler starts a conversion that it does not finish, clears the
    text of an error, or writes an output that the converter has not
    answered. *)
Lemma handler_keeps (s : ConverterState) (ev : Event) :
  consistent s ->
  let s' := handler messageOf ev s in
  (htmlOutput s' = EmptyString
   \/ (htmlOutput s' = formatHtml (renderedHtml s')
       /\ exists xmlString,
            convertXmlToHtml xmlString = Ok (renderedHtml s')))
  /\ error s' <> Some EmptyString
  /\ isConverting s' = false
  /\ (xmlInput s' = xmlInput s ->
      formattedXml s' = formattedXml s
      /\ (truthy (trim (xmlInput s)) = false -> htmlOutput s' = EmptyString)).
Proof.
  intros (Hformatted & Hblank & Hout & Herror & Hidle) s'. subst s'.
  destruct s as [tab x out ren err conv fx].
  cbn [activeTab xmlInput htmlOutput renderedHtml error isConverting
       formattedXml] in *.
  destruct ev as [value | seen content | | | value]; component_unfold.
  - destruct (truthyError err); component_unfold;
      repeat split; try assumption; try discriminate;
      intros ->; assumption.
  - destruct (truthyError seen); component_unfold;
      repeat split; try assumption; try discriminate;
      intros ->; assumption.
  - destruct (truthy (trim x)) eqn:Hfull; cbn [negb].
    + destruct (convertXmlToHtml x) as [e | result] eqn:Hconvert;
        component_unfold.
      * repeat split; try assumption; try discriminate.
        apply failureText_truthy.
      * repeat split; try discriminate.
        right. split; [reflexivity | now exists x].
    + component_unfold. repeat split; try assumption; discriminate.
  - split; [now left |].
    repeat split; try discriminate; try reflexivity; assumption.
  - repeat split; assumption.
Qed.

Lemma dispatch_consistent (s : ConverterState) (ev : Event) :
  consistent s -> consistent (dispatch messageOf s ev).
Proof.
  intros Hs. destruct (handler_keeps s ev Hs) as (Hout & Herror & Hidle & Hsame).
  unfold dispatch, rendered.
  destruct (String.eqb_spec (xmlInput s) (xmlInput (handler messageOf ev s)))
    as [Hinput | Hchanged].
  - destruct (Hsame (eq_sym Hinput)) as [Hformatted Hblank].
    destruct Hs as (Hformatted0 & _).
    unfold consistent. rewrite <- Hinput, Hformatted.
    repeat split; assumption.
  - now apply inputEffect_consistent.
Qed.

Lemma session_consistent (stored : string) (events : list Event) :
  consistent (session messageOf stored events).
Proof.
  unfold session. generalize (mounted_consistent stored).
  generalize (mounted stored). induction events as [| ev events IH];
    intros s Hs; [exact Hs |].
  simpl. apply IH. now apply dispatch_consistent.
Qed.

(** X9: what the component keeps through every sequence of events.
    After the first render and any number of edits, uploads, conversions,
    resets and tab changes, the formatted input is [formatXml] of the
    input, a blank input has no output, and an output that is not empty
    is [formatHtml] of the HTML that the preview shows, which
    [convertXmlToHtml] has answered for some input. *)
Theorem component_consistent (stored : string) (events : list Event) :
  let s := session messageOf stored events in
  formattedXml s = formatXml (xmlInput s)
  /\ (truthy (trim (xmlInput s)) = false -> htmlOutput s = EmptyString)
  /\ (htmlOutput s = EmptyString
      \/ (htmlOutput s = formatHtml (renderedHtml s)
          /\ exists xmlString,
               convertXmlToHtml xmlString = Ok (renderedHtml s)))
  /\ error s <> Some EmptyString
  /\ isConverting s = false.
Proof. exact (session_consistent stored events). Qed.

Lemma convertXmlToHtml_malformed (xmlString : string) :
  malformed xmlString -> convertXmlToHtml xmlString = Throw ParseError.
Proof.
  unfold malformed, convertXmlToHtml. intros Hbad.
  destruct (docQuerySelector _ (parseFromString xmlString));
    [reflexivity | congruence].
Qed.

(** X10: a conversion that fails on the parser changes the error and
    nothing else.  For a malformed input, [handleConvert] shows no toast,
    leaves the input, the output, the preview and the active tab as they
    were, so that the output of an earlier conversion stays on display,
    ends the conversion, and sets the error: the text of the parse
    failure for an input with a character that is not white space, and
    the request for input for a blank one, which is never parsed. *)
Theorem handleConvert_malformed (s : ConverterState) :
  malformed (xmlInput s) ->
  let s' := fst (handleConvert messageOf s) in
  snd (handleConvert messageOf s) = []
  /\ error s'
     = Some (if truthy (trim (xmlInput s)) then "Error: Invalid XML format"
             else "Please provide XML input first")
  /\ xmlInput s' = xmlInput s
  /\ htmlOutput s' = htmlOutput s
  /\ renderedHtml s' = renderedHtml s
  /\ activeTab s' = activeTab s
  /\ formattedXml s' = formattedXml s
  /\ (truthy (trim (xmlInput s)) = true -> isConverting s' = false).
Proof.
  intros Hbad s'. subst s'. unfold handleConvert.
  rewrite (convertXmlToHtml_malformed _ Hbad).
  destruct s as [tab x out ren err conv fx].
  cbn [xmlInput]. destruct (truthy (trim x)); cbn [negb]; component_unfold;
    repeat split; discriminate.
Qed.

(** X11: a conversion that succeeds with nothing to show.  When the
    converter answers a blank string, as it does for a tabular root without
    rows, [handleConvert] announces success and selects the preview, but
    the output is the empty string, and the handlers that copy and
    download do nothing. *)
Theorem handleConvert_blank_result (s : ConverterState) (result : string) :
  truthy (trim (xmlInput s)) = true ->
  convertXmlToHtml (xmlInput s) = Ok result ->
  truthy (trim result) = false ->
  let s' := fst (handleConvert messageOf s) in
  snd (handleConvert messageOf s)
  = [showToast (toast "Conversion successful"
                      "XML has been converted to HTML" None)]
  /\ activeTab s' = "preview"
  /\ error s' = None
  /\ renderedHtml s' = result
  /\ htmlOutput s' = EmptyString
  /\ handleCopyHtml s' = []
  /\ handleDownloadHtml s' = []
  /\ handleDownloadZip s' = [].
Proof.
  intros Hfull Hconvert Hblank s'. subst s'.
  unfold handleConvert, handleCopyHtml, handleDownloadHtml, handleDownloadZip.
  rewrite Hfull, Hconvert. unfold Ok. cbn [negb].
  assert (Hformat : formatHtml result = EmptyString)
    by (unfold formatHtml; now rewrite Hblank).
  destruct s as [tab x out ren err conv fx]. component_unfold.
  rewrite Hformat. cbn [truthy isEmpty negb andb].
  rewrite andb_false_r. repeat split.
Qed.

(** X12: what leaves the page is what the preview shows.  In every state
    the component can reach, when one of the handlers that copy and
    download does something, all three do: the input is not blank, and
    the code they export is the formatted form of the HTML of the
    preview, which the converter has answered for some input (not always
    the present one, which the archive holds beside it). *)
Theorem exports_match_preview (stored : string) (events : list Event) :
  let s := session messageOf stored events in
  handleCopyHtml s <> [] \/ handleDownloadHtml s <> []
  \/ handleDownloadZip s <> [] ->
  truthy (trim (xmlInput s)) = true
  /\ htmlOutput s = formatHtml (renderedHtml s)
  /\ (exists xmlString, convertXmlToHtml xmlString = Ok (renderedHtml s))
  /\ handleCopyHtml s
     = [clipboardWriteText (formatHtml (renderedHtml s));
        showToast (toast "Copied to clipboard"
                         "HTML code has been copied to your clipboard" None)]
  /\ handleDownloadHtml s
     = [saveAs (textBlob [formatHtml (renderedHtml s)]
                         "text/html;charset=utf-8") "converted.html"]
  /\ handleDownloadZip s
     = [saveAs (zipBlob [("original.xml", xmlInput s);
                         ("converted.html", formatHtml (renderedHtml s))])
               "xml-html-conversion.zip"].
Proof.
  intros s.
  destruct (session_consistent stored events)
    as (_ & Hblank & Hout & _ & _).
  fold s in Hblank, Hout.
  unfold handleCopyHtml, handleDownloadHtml, handleDownloadZip.
  intros Hexport.
  assert (Hsome : truthy (htmlOutput s) = true).
  { destruct (truthy (htmlOutput s)); [reflexivity |].
    rewrite andb_false_r in Hexport.
    destruct Hexport as [Hn | [Hn | Hn]]; now contradiction Hn. }
  rewrite Hsome.
  assert (Hfull : truthy (trim (xmlInput s)) = true).
  { destruct (truthy (trim (xmlInput s))); [reflexivity |].
    rewrite (Hblank eq_refl) in Hsome. discriminate Hsome. }
  assert (Hinput : truthy (xmlInput s) = true)
    by (destruct (xmlInput s); [discriminate Hfull | reflexivity]).
  rewrite Hinput.
  destruct Hout as [Hempty | [Hformat Hresult]];
    [rewrite Hempty in Hsome; discriminate Hsome |].
  rewrite <- Hformat. repeat split; assumption.
Qed.

Lemma inputEffect_fields (s : ConverterState) :
  xmlInput (inputEffect s) = xmlInput s
  /\ activeTab (inputEffect s) = activeTab s
  /\ renderedHtml (inputEffect s) = renderedHtml s
  /\ htmlOutput (inputEffect s)
     = (if truthy (trim (xmlInput s)) then htmlOutput s else EmptyString)
  /\ error (inputEffect s)
     = (if truthy (trim (xmlInput s)) then None else error s).
Proof.
  destruct s as [tab x out ren err conv fx]. unfold inputEffect.
  cbn [xmlInput]. destruct (truthy (trim x)); component_unfold;
    repeat split.
Qed.

(** X13: an edit keeps the output of the last conversion.  In every
    state the component can reach, a change of the text leaves the HTML
    of the preview as it is, and the output too unless the new text is
    blank: the output then belongs to an earlier input. *)
Theorem edit_keeps_output (stored : string) (events : list Event)
    (value : string) :
  let s := session messageOf stored events in
  let s' := dispatch messageOf s (Typed value) in
  xmlInput s' = value
  /\ renderedHtml s' = renderedHtml s
  /\ htmlOutput s'
     = (if truthy (trim value) then htmlOutput s else EmptyString)
  /\ error s' = None.
Proof.
  intros s s'. subst s'.
  destruct (session_consistent stored events)
    as (_ & Hblank & _ & Herror & _).
  fold s in Hblank, Herror. revert Hblank Herror. generalize s. clear s.
  intros s Hblank Herror.
  assert (Hcleared : error (handleXmlInput value s) = None).
  { destruct s as [tab x out ren err conv fx]. component_unfold.
    destruct err as [[| c m] |]; [now contradiction Herror | |];
      reflexivity. }
  unfold dispatch, rendered. cbn [handler].
  destruct (String.eqb_spec (xmlInput s) (xmlInput (handleXmlInput value s)))
    as [Hsame | Hchanged].
  - assert (Hvalue : xmlInput s = value).
    { rewrite Hsame. destruct s as [tab x out ren err conv fx].
      component_unfold. now destruct (truthyError err). }
    split; [now rewrite <- Hsame |].
    split; [| split; [| exact Hcleared]].
    + destruct s as [tab x out ren err conv fx]. component_unfold.
      now destruct (truthyError err).
    + assert (Hout : htmlOutput (handleXmlInput value s) = htmlOutput s).
      { destruct s as [tab x out ren err conv fx]. component_unfold.
        now destruct (truthyError err). }
      rewrite Hout, <- Hvalue.
      destruct (truthy (trim (xmlInput s))); [reflexivity | now apply Hblank].
  - destruct (inputEffect_fields (handleXmlInput value s))
      as (Hinput & _ & Hrendered & Hout & Herr).
    rewrite Hinput, Hrendered, Hout, Herr, Hcleared.
    destruct s as [tab x out ren err conv fx]. component_unfold.
    destruct (truthyError err); component_unfold;
      repeat split; now destruct (truthy (trim value)).
Qed.

(** X14: an accepted file becomes the input.  For a file whose name ends
    in [.xml] in any letter case, or whose type is [text/xml], that has
    at most ten times 1024 times 1024 bytes and that the reader can read,
    the upload shows no toast, makes the text of the file the input,
    selects the input tab and formats the text; the output of an earlier
    conversion stays unless the text is blank.  The error is cleared when
    the render in which the file was chosen showed an error, or when the
    text differs from the input and is not blank; otherwise it stays as
    it is when the reader finishes.  It is cleared in particular when
    nothing has set an error between the choice of the file and the end
    of the reading. *)
Theorem upload_accepted (stored : string) (events : list Event)
    (seenError : option string) (file : File.t) (content : string) :
  endsWith (toLowerCase (File.name file)) ".xml" = true
  \/ File.type file = "text/xml" ->
  (File.size file <= 10485760)%N ->
  File.text file = Some content ->
  let s := session messageOf stored events in
  let s' := fst (upload messageOf seenError file s) in
  snd (upload messageOf seenError file s) = []
  /\ xmlInput s' = content
  /\ activeTab s' = "input"
  /\ formattedXml s' = formatXml content
  /\ htmlOutput s'
     = (if truthy (trim content) then htmlOutput s else EmptyString)
  /\ error s'
     = (if truthyError seenError
           || (negb (String.eqb (xmlInput s) content)
               && truthy (trim content))
        then None else error s)
  /\ (seenError = error s -> error s' = None).
Proof.
  intros Hformat Hsize Htext s s'. subst s'.
  assert (Hprocess : processFile file = inr content).
  { unfold processFile.
    replace (negb (endsWith (toLowerCase (File.name file)) ".xml")
             && negb (String.eqb (File.type file) "text/xml")) with false.
    - replace (10 * 1024 * 1024 <? File.size file)%N with false;
        [now rewrite Htext |].
      symmetry. apply N.ltb_ge. exact Hsize.
    - symmetry. destruct Hformat as [Hname | Htype].
      + now rewrite Hname.
      + rewrite Htype, String.eqb_refl. apply andb_false_r. }
  unfold upload. rewrite Hprocess. cbn [fst snd].
  split; [reflexivity |].
  pose proof (session_consistent stored events) as Hs. fold s in Hs.
  pose proof (dispatch_consistent s (FileRead seenError content) Hs)
    as (Hformatted & _).
  destruct Hs as (_ & Hblank & _ & Herror & _).
  revert Hformatted Hblank Herror. generalize s. clear s.
  intros s Hformatted Hblank Herror.
  assert (Hhandled :
    let h := handleFileUpload seenError content s in
    xmlInput h = content /\ activeTab h = "input"
    /\ error h = (if truthyError seenError then None else error s)
    /\ htmlOutput h = htmlOutput s).
  { destruct s as [tab x out ren err conv fx]. component_unfold.
    destruct (truthyError seenError); component_unfold; repeat split. }
  destruct Hhandled as (Hinput & Htab & Hhandler & Hout).
  assert (Hcontent :
    xmlInput (dispatch messageOf s (FileRead seenError content)) = content).
  { unfold dispatch, rendered. cbn [handler].
    destruct (String.eqb _ _); [exact Hinput |].
    now rewrite (proj1 (inputEffect_fields _)). }
  rewrite Hformatted, Hcontent.
  split; [reflexivity |].
  assert (Hfields :
    let s' := dispatch messageOf s (FileRead seenError content) in
    activeTab s' = "input"
    /\ htmlOutput s'
       = (if truthy (trim content) then htmlOutput s else EmptyString)
    /\ error s'
       = (if truthyError seenError
             || (negb (String.eqb (xmlInput s) content)
                 && truthy (trim content))
          then None else error s)).
  { unfold dispatch, rendered. cbn [handler]. rewrite Hinput.
    destruct (String.eqb_spec (xmlInput s) content) as [Hsame | Hchanged].
    - rewrite Htab, Hhandler, Hout. cbn [negb andb]. rewrite orb_false_r.
      repeat split. rewrite <- Hsame.
      destruct (truthy (trim (xmlInput s))); [reflexivity | now apply Hblank].
    - destruct (inputEffect_fields (handleFileUpload seenError content s))
        as (_ & Htab' & _ & Hout' & Herr').
      rewrite Htab', Hout', Herr', Htab, Hhandler, Hout, Hinput.
      cbn [negb andb].
      destruct (truthy (trim content)), (truthyError seenError);
        repeat split. }
  destruct Hfields as (Htab' & Hout' & Herr').
  repeat split; try assumption.
  intros ->. rewrite Herr'.
  destruct (error s) as [[| c m] |];
    [now contradiction Herror | reflexivity |].
  now destruct (truthyError None || _).
Qed.

(** X15: a file that is not accepted changes nothing.  A file whose name
    does not end in [.xml] and whose type is not [text/xml], or that has
    more than ten times 1024 times 1024 bytes, is not read: the state
    stays as it is and one toast is shown.  The format is checked before
    the size, so a file that fails both is answered with the toast on the
    format. *)
Theorem upload_rejected (seenError : option string) (file : File.t)
    (s : ConverterState) :
  let wrongFormat :=
    negb (endsWith (toLowerCase (File.name file)) ".xml")
    && negb (String.eqb (File.type file) "text/xml") in
  let tooLarge := (10485760 <? File.size file)%N in
  wrongFormat || tooLarge = true ->
  upload messageOf seenError file s
  = (s, [if wrongFormat then
           toast "Invalid file format" "Please upload an XML file"
                 (Some "destructive")
         else
           toast "File too large" "Maximum file size is 10MB"
                 (Some "destructive")]).
Proof.
  intros wrongFormat tooLarge Hrejected. subst wrongFormat tooLarge.
  unfold upload, processFile.
  change (10 * 1024 * 1024)%N with 10485760%N.
  destruct (negb (endsWith (toLowerCase (File.name file)) ".xml")
            && negb (String.eqb (File.type file) "text/xml"));
    [reflexivity |].
  cbn [orb] in Hrejected. now rewrite Hrejected.
Qed.

End ComponentProperties.

(** ** The further statements on the sample platform *)

Lemma convertToHtmlTable_all_or_nothing_witness :
  children prefixedFieldRoot <> []
  /\ @convertToHtmlTable Sample.platform prefixedFieldRoot
     = Throw (DOMException "SyntaxError").
Proof.
  assert (Hrows : children prefixedFieldRoot <> []) by discriminate.
  split; [exact Hrows |].
  pose proof (@convertToHtmlTable_all_or_nothing Sample.platform
                prefixedFieldRoot Hrows) as Hall.
  cbv zeta in Hall. rewrite Hall. vm_compute. reflexivity.
Defined.

Lemma table_shape_witness :
  noMarkup (textContent raggedTableRoot) = true
  /\ occurrences "<th>" (convertTableXmlToHtml raggedTableRoot) = 2
  /\ occurrences "<tr>" (convertTableXmlToHtml raggedTableRoot) = 3
  /\ occurrences "<td>" (convertTableXmlToHtml raggedTableRoot) = 4.
Proof.
  assert (Hclean : noMarkup (textContent raggedTableRoot) = true)
    by reflexivity.
  split; [exact Hclean |].
  destruct (table_shape raggedTableRoot Hclean) as (_ & Hth & Htr & Htd).
  rewrite Hth, Htr, Htd. vm_compute. auto.
Defined.

Lemma generic_table_shape_witness :
  children nestedColumnRoot <> []
  /\ exists html,
       @convertToHtmlTable Sample.platform nestedColumnRoot = Ok html
       /\ occurrences "<th>" html = 3
       /\ occurrences "<tr>" html = 3
       /\ occurrences "<td>" html = 6.
Proof.
  assert (Hrows : children nestedColumnRoot <> []) by discriminate.
  split; [exact Hrows |].
  destruct (@generic_table_shape Sample.platform nestedColumnRoot Hrows)
    as (html & Hconvert & Hth & Htr & Htd);
    [reflexivity | reflexivity | reflexivity |].
  exists html. split; [exact Hconvert |].
  rewrite Hth, Htr, Htd. vm_compute. auto.
Defined.

Lemma semantic_element_count_witness :
  cleanElement (documentElement listDocument) = true
  /\ occurrences "</"
       (convertToSemanticHtml listDocument (documentElement listDocument))
     = 5.
Proof.
  assert (Hclean : cleanElement (documentElement listDocument) = true)
    by reflexivity.
  split; [exact Hclean |].
  destruct (semantic_element_count (documentElement listDocument) Hclean)
    as (_ & Hend & _).
  exact Hend.
Defined.

Lemma leaf_text_verbatim_witness :
  textContent markupTextRoot = "<script>alert(1)</script>"
  /\ contains "<script>alert(1)</script>"
       (convertToSemanticHtml (mkDocument markupTextRoot) markupTextRoot)
     = true.
Proof.
  split; [reflexivity |].
  apply (leaf_text_verbatim markupTextRoot
           (mkElement None "body" [] [TextNode "<script>alert(1)</script>"])).
  - right. left. reflexivity.
  - reflexivity.
Defined.

Lemma feed_without_content_witness :
  sourceItems emptyFeedRoot = []
  /\ convertFeedToHtml emptyFeedRoot
     = "<div class=" ++ dq ++ "xml-feed" ++ dq ++ "><h1>XML Feed</h1></div>".
Proof.
  split; [reflexivity |].
  apply (feed_without_content emptyFeedRoot); reflexivity.
Defined.

(** The title of the only item is the title of the feed. *)
Example untitled_feed_heading :
  contains "<h1>First</h1>" (convertFeedToHtml untitledFeedRoot) = true.
Proof. now vm_compute. Qed.

Lemma handleConvert_malformed_witness :
  @malformed Sample.platform "<a><b></a>"
  /\ error (fst (@handleConvert Sample.platform (fun name => name)
                   (initialState "<a><b></a>")))
     = Some "Error: Invalid XML format".
Proof.
  assert (Hbad : @malformed Sample.platform
                   (xmlInput (initialState "<a><b></a>")))
    by (vm_compute; discriminate).
  split; [exact Hbad |].
  destruct (@handleConvert_malformed Sample.platform (fun name => name)
              (initialState "<a><b></a>") Hbad) as (_ & Herror & _).
  rewrite Herror. reflexivity.
Defined.

Lemma handleConvert_blank_result_witness :
  @convertXmlToHtml Sample.platform "<Grid/>" = Ok EmptyString
  /\ activeTab (fst (@handleConvert Sample.platform (fun name => name)
                       (initialState "<Grid/>")))
     = "preview"
  /\ htmlOutput (fst (@handleConvert Sample.platform (fun name => name)
                        (initialState "<Grid/>")))
     = EmptyString.
Proof.
  assert (Hconvert : @convertXmlToHtml Sample.platform "<Grid/>"
                     = Ok EmptyString) by (vm_compute; reflexivity).
  split; [exact Hconvert |].
  destruct (@handleConvert_blank_result Sample.platform (fun name => name)
              (initialState "<Grid/>") EmptyString)
    as (_ & Htab & _ & _ & Hout & _);
    [reflexivity | exact Hconvert | reflexivity |].
  split; [exact Htab | exact Hout].
Defined.

Lemma exports_match_preview_witness :
  let s := @session Sample.platform (fun name => name) listExample
             [ConvertClicked] in
  handleCopyHtml s <> []
  /\ htmlOutput s = @formatHtml Sample.platform (renderedHtml s).
Proof.
  intros s.
  assert (Hcopy : handleCopyHtml s <> []) by (vm_compute; discriminate).
  split; [exact Hcopy |].
  destruct (@exports_match_preview Sample.platform (fun name => name)
              listExample [ConvertClicked] (or_introl Hcopy))
    as (_ & Hout & _).
  exact Hout.
Defined.

(** The reader finishes after a conversion has failed, with the
    [handleFileUpload] of a render without error: the text is the input
    already, and the error of the conversion stays. *)
Lemma upload_accepted_witness :
  let s := @session Sample.platform (fun name => name) EmptyString
             [FileRead None "<a>"; ConvertClicked] in
  let s' := fst (@upload Sample.platform (fun name => name) None
                   unclosedFile s) in
  File.text unclosedFile = Some "<a>"
  /\ error s = Some "Error: Invalid XML format"
  /\ xmlInput s' = "<a>"
  /\ activeTab s' = "input"
  /\ error s' = Some "Error: Invalid XML format".
Proof.
  intros s s'.
  assert (Herror : error s = Some "Error: Invalid XML format")
    by (vm_compute; reflexivity).
  split; [reflexivity |]. split; [exact Herror |].
  destruct (@upload_accepted Sample.platform (fun name => name)
              EmptyString [FileRead None "<a>"; ConvertClicked] None
              unclosedFile "<a>")
    as (_ & Hinput & Htab & _ & _ & Hstays & _).
  - right. reflexivity.
  - vm_compute. discriminate.
  - reflexivity.
  - split; [exact Hinput |]. split; [exact Htab |].
    fold s in Hstays. fold s'. fold s' in Hstays.
    rewrite Hstays, Herror. vm_compute. reflexivity.
Defined.

(** The extension is compared in lower case, and the type is not asked
    for when the name fits. *)
Example upperCase_extension_accepted :
  processFile upperCaseFile = inr "<a/>".
Proof. reflexivity. Qed.

Lemma upload_rejected_witness :
  (10485760 <? File.size largeTextFile)%N = true
  /\ @upload Sample.platform (fun name => name) None largeTextFile
       (initialState EmptyString)
     = (initialState EmptyString,
        [toast "Invalid file format" "Please upload an XML file"
               (Some "destructive")]).
Proof.
  split; [reflexivity |].
  apply (@upload_rejected Sample.platform (fun name => name) None
           largeTextFile (initialState EmptyString)).
  reflexivity.
Defined.

Lemma formatXml_as_html_witness :
  @wellFormed Sample.platform "<a><b/></a>"
  /\ @formatXml Sample.platform "<a><b/></a>"
     = @formatHtml Sample.platform "<a><b/></a>".
Proof.
  assert (Hwf : @wellFormed Sample.platform "<a><b/></a>")
    by (vm_compute; reflexivity).
  split; [exact Hwf |].
  pose proof (@formatXml_as_html Sample.platform "<a><b/></a>" eq_refl Hwf)
    as Hformat.
  cbv zeta in Hformat. rewrite Hformat by (vm_compute; reflexivity).
  vm_compute. reflexivity.
Defined.
